(** * A shallow embedding of the factory-physics simulation engine

    The development follows the three Python modules of
    [simulation_tool/simulation_engine]:

    - [discrete_event_sim.py]: events, the event queue (a [heapq] list) and
      the simulator's run loop;
    - [production_line.py]: stations, the CONWIP production line, its event
      handlers and its statistics;
    - [factory_physics.py]: the closed-form estimators.

    Python [float]s are embedded as exact rationals ([Q]); equalities between
    computed floats are therefore stated with [==].  Python [int]s are [Z],
    lists are [list], [dict]s are [gmap].  The random generator of numpy is an
    explicit stream of draws indexed by the number of draws made so far. *)

From Stdlib Require Import ZArith QArith Qminmax Qabs Lia Lqa String.
From stdpp Require Import base decidable option list gmap pretty relations.

Local Open Scope Z_scope.

(** ** discrete_event_sim.py: events *)

Inductive EventType : Set :=
  | ARRIVAL
  | PROCESSING_START
  | PROCESSING_END
  | DEPARTURE.

#[global] Instance EventType_eq_dec : EqDecision EventType.
Proof. solve_decision. Defined.

(** The dataclass [Event].  Its [data] dictionary is never read or written by
    the engine and is left out. *)
Record Event : Set := mkEvent {
  time : Q;
  event_type : EventType;
  ev_station_id : option Z;
  ev_entity_id : option Z
}.

(** [Event.__lt__]: only the timestamps are compared. *)
Definition Qlt_bool (x y : Q) : bool := negb (Qle_bool y x).

Definition Event_lt (self other : Event) : bool :=
  Qlt_bool (time self) (time other).

(** ** The event queue: CPython's [heapq] on a list of events

    [schedule_event] and the run loop use [heapq.heappush] and
    [heapq.heappop]; both are transcribed from [Lib/heapq.py], with list
    positions as [nat] (they are never negative there). *)

Module heapq.

(** The [while pos > startpos] loop of [_siftdown]; [pos] strictly decreases,
    so [pos] iterations are always enough. *)
Fixpoint _siftdown_loop (fuel : nat) (heap : list Event)
    (startpos pos : nat) (newitem : Event) : list Event :=
  match fuel with
  | O => <[pos := newitem]> heap
  | S fuel' =>
      if decide (startpos < pos)%nat then
        let parentpos := ((pos - 1) / 2)%nat in
        match heap !! parentpos with
        | Some parent =>
            if Event_lt newitem parent
            then _siftdown_loop fuel' (<[pos := parent]> heap)
                                startpos parentpos newitem
            else <[pos := newitem]> heap
        | None => <[pos := newitem]> heap
        end
      else <[pos := newitem]> heap
  end.

Definition _siftdown (heap : list Event) (startpos pos : nat) : list Event :=
  match heap !! pos with
  | Some newitem => _siftdown_loop pos heap startpos pos newitem
  | None => heap
  end.

(** The index of the smaller child, as chosen inside [_siftup]. *)
Definition smaller_child (heap : list Event) (endpos childpos : nat) : nat :=
  let rightpos := (childpos + 1)%nat in
  if decide (rightpos < endpos)%nat then
    match heap !! childpos, heap !! rightpos with
    | Some l, Some r => if negb (Event_lt l r) then rightpos else childpos
    | _, _ => childpos
    end
  else childpos.

(** The [while childpos < endpos] loop of [_siftup]: the smaller child is
    moved up until a leaf is reached; the result is the list together with
    the position of that leaf. *)
Fixpoint _siftup_loop (fuel : nat) (heap : list Event)
    (endpos pos : nat) : list Event * nat :=
  match fuel with
  | O => (heap, pos)
  | S fuel' =>
      let childpos := (2 * pos + 1)%nat in
      if decide (childpos < endpos)%nat then
        let childpos := smaller_child heap endpos childpos in
        match heap !! childpos with
        | Some c => _siftup_loop fuel' (<[pos := c]> heap) endpos childpos
        | None => (heap, pos)
        end
      else (heap, pos)
  end.

Definition _siftup (heap : list Event) (pos : nat) : list Event :=
  let endpos := length heap in
  let startpos := pos in
  match heap !! pos with
  | Some newitem =>
      let '(heap, pos) := _siftup_loop endpos heap endpos pos in
      _siftdown (<[pos := newitem]> heap) startpos pos
  | None => heap
  end.

Definition heappush (heap : list Event) (item : Event) : list Event :=
  let heap := heap ++ [item] in
  _siftdown heap 0 (length heap - 1).

(** [heappop] raises [IndexError] on the empty list: [None] here. *)
Definition heappop (heap : list Event) : option (Event * list Event) :=
  match last heap with
  | None => None
  | Some lastelt =>
      let heap := removelast heap in
      match heap with
      | returnitem :: _ =>
          Some (returnitem, _siftup (<[0%nat := lastelt]> heap) 0)
      | [] => Some (lastelt, heap)
      end
  end.

End heapq.

(** ** Exceptions and the state-and-exception monad of the methods

    A method of [ProductionLine] either returns or raises, and in both cases
    leaves the (possibly already mutated) object behind. *)

Inductive PyError : Set :=
  | IndexError
  | TypeError
  | ZeroDivisionError.

Inductive Result (A : Type) : Type :=
  | Ok (a : A)
  | Raise (e : PyError).
Arguments Ok {A} a.
Arguments Raise {A} e.

Definition Result_bind {A B} (r : Result A) (k : A -> Result B) : Result B :=
  match r with
  | Ok a => k a
  | Raise e => Raise e
  end.

(** [l[i]] for a Python list: negative positions count from the end. *)
Definition py_index (len : nat) (i : Z) : option nat :=
  if decide (0 <= i < Z.of_nat len) then Some (Z.to_nat i)
  else if decide (- Z.of_nat len <= i < 0) then Some (Z.to_nat (Z.of_nat len + i))
  else None.

Definition py_getitem {A} (l : list A) (i : Z) : Result A :=
  match py_index (length l) i with
  | Some n => match l !! n with Some x => Ok x | None => Raise IndexError end
  | None => Raise IndexError
  end.

(** [max(a, b)] of two floats. *)
Definition py_max (a b : Q) : Q := if Qlt_bool a b then b else a.

(** ** factory_physics.py *)

(** A float result that may be [np.inf]. *)
Inductive float_or_inf : Set :=
  | Finite (q : Q)
  | np_inf.

Definition calculate_cycle_time (mean_processing_time utilization
    cv_arrival cv_processing : Q) : float_or_inf :=
  if Qle_bool 1 utilization then np_inf
  else if Qle_bool utilization 0 then Finite mean_processing_time
  else
    let variability_term := ((cv_arrival ^ 2 + cv_processing ^ 2) / 2)%Q in
    let utilization_term := (utilization / (1 - utilization))%Q in
    let cycle_time :=
      (variability_term * utilization_term * mean_processing_time
       + mean_processing_time)%Q in
    Finite cycle_time.

(** [min(a, b)] of two floats: [b] when [b < a], else [a]. *)
Definition py_min (a b : Q) : Q := if Qlt_bool b a then b else a.



(** [calculate_utilization].  [calculate_system_cycle_time] passes [np.inf]
    as the processing rate of a station without processing time: [np.inf]
    is not [<= 0], and a rate divided by it is [0.0]. *)
Definition calculate_utilization (arrival_rate : Q)
    (processing_rate : float_or_inf) : Q :=
  match processing_rate with
  | Finite processing_rate =>
      if Qle_bool processing_rate 0 then 1%Q
      else
        let utilization := (arrival_rate / processing_rate)%Q in
        py_min utilization 1
  | np_inf => py_min 0 1
  end.


(** A station dictionary with float values, and [station.get(key, default)]. *)
Definition dict_get (station : gmap string Q) (key : string) (dflt : Q) : Q :=
  default dflt (station !! key).

(** [np.argmax] of a list of floats: the position of the first maximum;
    [None] is the [ValueError] that it raises on an empty list. *)
Fixpoint np_argmax_from (best_pos : nat) (best : Q) (pos : nat) (l : list Q)
    : nat :=
  match l with
  | [] => best_pos
  | x :: l =>
      if Qlt_bool best x then np_argmax_from pos x (S pos) l
      else np_argmax_from best_pos best (S pos) l
  end.

Definition np_argmax (l : list Q) : option nat :=
  match l with
  | [] => None
  | x :: l => Some (np_argmax_from 0 x 1 l)
  end.

(** [calculate_bottleneck_station] *)
Definition calculate_bottleneck_station (stations : list (gmap string Q))
    (arrival_rate : Q) : option nat :=
  let utilizations :=
    map (fun station =>
           let processing_rate := dict_get station "processing_rate" 1 in
           calculate_utilization arrival_rate (Finite processing_rate))
        stations in
  np_argmax utilizations.

(** [calculate_system_throughput]; [None] when
    [calculate_bottleneck_station] raises (the position that it returns is
    a position of the list, so the subscript itself never fails). *)
Definition calculate_system_throughput (stations : list (gmap string Q))
    (arrival_rate : Q) : option Q :=
  match calculate_bottleneck_station stations arrival_rate with
  | Some bottleneck_idx =>
      match stations !! bottleneck_idx with
      | Some station =>
          let bottleneck_rate := dict_get station "processing_rate" 1 in
          Some (py_min arrival_rate bottleneck_rate)
      | None => None
      end
  | None => None
  end.

(** [total_ct += ct], where either side may be [np.inf]. *)
Definition float_add (a b : float_or_inf) : float_or_inf :=
  match a, b with
  | Finite x, Finite y => Finite (x + y)
  | _, _ => np_inf
  end.

(** The [for i, station in enumerate(stations)] loop of
    [calculate_system_cycle_time]. *)
Fixpoint system_cycle_time_loop (i : Z) (stations : list (gmap string Q))
    (cv_arrivals cv_processing : list Q) (total_ct : float_or_inf)
    (current_arrival_rate : Q) : Result float_or_inf :=
  match stations with
  | [] => Ok total_ct
  | station :: stations =>
      let mean_pt := dict_get station "mean_processing_time" 1 in
      let processing_rate :=
        if Qlt_bool 0 mean_pt then Finite (1 / mean_pt) else np_inf in
      let util := calculate_utilization current_arrival_rate processing_rate in
      Result_bind (py_getitem cv_arrivals i) (fun ca =>
      Result_bind (py_getitem cv_processing i) (fun ce =>
        let ct := calculate_cycle_time mean_pt util ca ce in
        let total_ct := float_add total_ct ct in
        let current_arrival_rate :=
          match processing_rate with
          | Finite processing_rate =>
              py_min current_arrival_rate processing_rate
          | np_inf => current_arrival_rate
          end in
        system_cycle_time_loop (i + 1) stations cv_arrivals cv_processing
                               total_ct current_arrival_rate))
  end.

Definition calculate_system_cycle_time (stations : list (gmap string Q))
    (arrival_rate : Q) (cv_arrivals cv_processing : option (list Q))
    : Result float_or_inf :=
  let cv_arrivals :=
    match cv_arrivals with
    | Some l => l
    | None => replicate (length stations) 1%Q
    end in
  let cv_processing :=
    match cv_processing with
    | Some l => l
    | None => replicate (length stations) 1%Q
    end in
  system_cycle_time_loop 0 stations cv_arrivals cv_processing (Finite 0)
                         arrival_rate.

(** ** production_line.py: stations *)

Inductive StationState : Set :=
  | IDLE
  | PROCESSING
  | BLOCKED
  | STARVED.

#[global] Instance StationState_eq_dec : EqDecision StationState.
Proof. solve_decision. Defined.

Record Station : Set := mkStation {
  station_id : Z;
  name : string;
  mean_processing_time : Q;
  cv_processing : Q;
  buffer_capacity : Z;
  state : StationState;
  current_job : option Z;
  queue : list Z;
  buffer : list Z;
  total_processed : Z;
  total_processing_time : Q;
  total_idle_time : Q;
  total_blocked_time : Q;
  total_starved_time : Q;
  last_state_change_time : Q
}.

(** The dataclass constructor with its defaults, as [ProductionLine.__init__]
    calls it. *)
Definition new_Station (station_id : Z) (name : string)
    (mean_processing_time cv_processing : Q) : Station :=
  {| station_id := station_id; name := name;
     mean_processing_time := mean_processing_time;
     cv_processing := cv_processing; buffer_capacity := 0;
     state := IDLE; current_job := None; queue := []; buffer := [];
     total_processed := 0; total_processing_time := 0;
     total_idle_time := 0; total_blocked_time := 0;
     total_starved_time := 0; last_state_change_time := 0 |}.

(** Attribute assignments on a station. *)
Definition set_mean_processing_time (v : Q) (s : Station) : Station :=
  {| station_id := station_id s; name := name s;
     mean_processing_time := v;
     cv_processing := cv_processing s; buffer_capacity := buffer_capacity s;
     state := state s; current_job := current_job s; queue := queue s;
     buffer := buffer s; total_processed := total_processed s;
     total_processing_time := total_processing_time s;
     total_idle_time := total_idle_time s;
     total_blocked_time := total_blocked_time s;
     total_starved_time := total_starved_time s;
     last_state_change_time := last_state_change_time s |}.

Definition set_cv_processing (v : Q) (s : Station) : Station :=
  {| station_id := station_id s; name := name s;
     mean_processing_time := mean_processing_time s;
     cv_processing := v; buffer_capacity := buffer_capacity s;
     state := state s; current_job := current_job s; queue := queue s;
     buffer := buffer s; total_processed := total_processed s;
     total_processing_time := total_processing_time s;
     total_idle_time := total_idle_time s;
     total_blocked_time := total_blocked_time s;
     total_starved_time := total_starved_time s;
     last_state_change_time := last_state_change_time s |}.

Definition set_state (v : StationState) (s : Station) : Station :=
  {| station_id := station_id s; name := name s;
     mean_processing_time := mean_processing_time s;
     cv_processing := cv_processing s; buffer_capacity := buffer_capacity s;
     state := v; current_job := current_job s; queue := queue s;
     buffer := buffer s; total_processed := total_processed s;
     total_processing_time := total_processing_time s;
     total_idle_time := total_idle_time s;
     total_blocked_time := total_blocked_time s;
     total_starved_time := total_starved_time s;
     last_state_change_time := last_state_change_time s |}.

Definition set_current_job (v : option Z) (s : Station) : Station :=
  {| station_id := station_id s; name := name s;
     mean_processing_time := mean_processing_time s;
     cv_processing := cv_processing s; buffer_capacity := buffer_capacity s;
     state := state s; current_job := v; queue := queue s;
     buffer := buffer s; total_processed := total_processed s;
     total_processing_time := total_processing_time s;
     total_idle_time := total_idle_time s;
     total_blocked_time := total_blocked_time s;
     total_starved_time := total_starved_time s;
     last_state_change_time := last_state_change_time s |}.

Definition set_queue (v : list Z) (s : Station) : Station :=
  {| station_id := station_id s; name := name s;
     mean_processing_time := mean_processing_time s;
     cv_processing := cv_processing s; buffer_capacity := buffer_capacity s;
     state := state s; current_job := current_job s; queue := v;
     buffer := buffer s; total_processed := total_processed s;
     total_processing_time := total_processing_time s;
     total_idle_time := total_idle_time s;
     total_blocked_time := total_blocked_time s;
     total_starved_time := total_starved_time s;
     last_state_change_time := last_state_change_time s |}.

Definition set_total_processed (v : Z) (s : Station) : Station :=
  {| station_id := station_id s; name := name s;
     mean_processing_time := mean_processing_time s;
     cv_processing := cv_processing s; buffer_capacity := buffer_capacity s;
     state := state s; current_job := current_job s; queue := queue s;
     buffer := buffer s; total_processed := v;
     total_processing_time := total_processing_time s;
     total_idle_time := total_idle_time s;
     total_blocked_time := total_blocked_time s;
     total_starved_time := total_starved_time s;
     last_state_change_time := last_state_change_time s |}.

(** The three time counters and the time stamp that [update_statistics]
    writes, in one assignment. *)
Definition set_times (idle blocked starved last : Q) (s : Station) : Station :=
  {| station_id := station_id s; name := name s;
     mean_processing_time := mean_processing_time s;
     cv_processing := cv_processing s; buffer_capacity := buffer_capacity s;
     state := state s; current_job := current_job s; queue := queue s;
     buffer := buffer s; total_processed := total_processed s;
     total_processing_time := total_processing_time s;
     total_idle_time := idle;
     total_blocked_time := blocked;
     total_starved_time := starved;
     last_state_change_time := last |}.

(** [Station.update_statistics] *)
Definition update_statistics (self : Station) (current_time : Q) : Station :=
  let time_elapsed := (current_time - last_state_change_time self)%Q in
  match state self with
  | IDLE =>
      set_times (total_idle_time self + time_elapsed)%Q
                (total_blocked_time self) (total_starved_time self)
                current_time self
  | BLOCKED =>
      set_times (total_idle_time self)
                (total_blocked_time self + time_elapsed)%Q
                (total_starved_time self) current_time self
  | STARVED =>
      set_times (total_idle_time self) (total_blocked_time self)
                (total_starved_time self + time_elapsed)%Q
                current_time self
  | PROCESSING =>
      set_times (total_idle_time self) (total_blocked_time self)
                (total_starved_time self) current_time self
  end.

(** [Station.get_utilization]: the station is updated, then read. *)
Definition get_utilization (self : Station) (current_time : Q) : Q * Station :=
  let self := update_statistics self current_time in
  let total_time := current_time in
  if Qlt_bool 0 total_time then
    let processing_time :=
      (total_time - total_idle_time self - total_blocked_time self
       - total_starved_time self)%Q in
    ((processing_time / total_time)%Q, self)
  else (0%Q, self).

(** ** discrete_event_sim.py: the simulator object *)

(** The two bound methods that [ProductionLine.__init__] registers. *)
Inductive Handler : Set :=
  | Handle_arrival
  | Handle_processing_end.

(** The [stats] dictionary of the simulator (three fixed keys). *)
Record SimStats : Set := mkSimStats {
  total_entities : Z;
  completed_entities : Z;
  events_processed : Z
}.

Record DiscreteEventSimulator : Set := mkSim {
  clock : Q;
  event_queue : list Event;
  stats : SimStats;
  event_handlers : EventType -> option Handler
}.

Definition new_DiscreteEventSimulator : DiscreteEventSimulator :=
  {| clock := 0; event_queue := [];
     stats := mkSimStats 0 0 0;
     event_handlers := fun _ => None |}.

Definition set_clock (v : Q) (s : DiscreteEventSimulator) :=
  {| clock := v; event_queue := event_queue s; stats := stats s;
     event_handlers := event_handlers s |}.

Definition set_event_queue (v : list Event) (s : DiscreteEventSimulator) :=
  {| clock := clock s; event_queue := v; stats := stats s;
     event_handlers := event_handlers s |}.

Definition set_stats (v : SimStats) (s : DiscreteEventSimulator) :=
  {| clock := clock s; event_queue := event_queue s; stats := v;
     event_handlers := event_handlers s |}.

Definition schedule_event (self : DiscreteEventSimulator) (event : Event)
    : DiscreteEventSimulator :=
  set_event_queue (heapq.heappush (event_queue self) event) self.

Definition register_handler (self : DiscreteEventSimulator)
    (event_type : EventType) (handler : Handler) : DiscreteEventSimulator :=
  {| clock := clock self; event_queue := event_queue self;
     stats := stats self;
     event_handlers := fun t =>
       if decide (t = event_type) then Some handler
       else event_handlers self t |}.

Definition get_next_event_time (self : DiscreteEventSimulator) : option Q :=
  match event_queue self with
  | e :: _ => Some (time e)
  | [] => None
  end.

Definition sim_reset (self : DiscreteEventSimulator) : DiscreteEventSimulator :=
  {| clock := 0; event_queue := []; stats := mkSimStats 0 0 0;
     event_handlers := event_handlers self |}.

(** ** production_line.py: the production line *)

(** One entry of [station_stats] and the dictionary that [get_statistics]
    returns. *)
Record StationStats : Set := mkStationStats {
  ss_station_id : Z;
  ss_name : string;
  utilization : Q;
  ss_total_processed : Z;
  avg_processing_time : Q
}.

Record Statistics : Set := mkStatistics {
  throughput : Q;
  avg_cycle_time : Q;
  avg_wip : Q;
  total_completed : Z;
  station_stats : list StationStats;
  simulation_time : Q
}.

(** The attributes of a [ProductionLine].  [np_random] is the state of
    numpy's global generator, the number of draws made so far; it is kept
    with the line because only the line's methods draw from it. *)
Record ProductionLine : Type := mkLine {
  num_stations : Z;
  conwip_level : Z;
  arrival_rate : Q;
  cv_arrival : Q;
  stations : list Station;
  simulator : DiscreteEventSimulator;
  entity_counter : Z;
  system_wip : Z;
  completed_jobs : list Z;
  job_arrival_times : gmap Z Q;
  job_completion_times : gmap Z Q;
  stats_history : list Statistics;
  np_random : nat
}.

Definition set_stations (v : list Station) (l : ProductionLine) :=
  {| num_stations := num_stations l; conwip_level := conwip_level l;
     arrival_rate := arrival_rate l; cv_arrival := cv_arrival l;
     stations := v; simulator := simulator l;
     entity_counter := entity_counter l; system_wip := system_wip l;
     completed_jobs := completed_jobs l;
     job_arrival_times := job_arrival_times l;
     job_completion_times := job_completion_times l;
     stats_history := stats_history l; np_random := np_random l |}.

Definition set_simulator (v : DiscreteEventSimulator) (l : ProductionLine) :=
  {| num_stations := num_stations l; conwip_level := conwip_level l;
     arrival_rate := arrival_rate l; cv_arrival := cv_arrival l;
     stations := stations l; simulator := v;
     entity_counter := entity_counter l; system_wip := system_wip l;
     completed_jobs := completed_jobs l;
     job_arrival_times := job_arrival_times l;
     job_completion_times := job_completion_times l;
     stats_history := stats_history l; np_random := np_random l |}.

Definition set_np_random (v : nat) (l : ProductionLine) :=
  {| num_stations := num_stations l; conwip_level := conwip_level l;
     arrival_rate := arrival_rate l; cv_arrival := cv_arrival l;
     stations := stations l; simulator := simulator l;
     entity_counter := entity_counter l; system_wip := system_wip l;
     completed_jobs := completed_jobs l;
     job_arrival_times := job_arrival_times l;
     job_completion_times := job_completion_times l;
     stats_history := stats_history l; np_random := v |}.

(** The job book-keeping attributes, assigned together. *)
Definition set_jobs (counter wip : Z) (completed : list Z)
    (arrivals completions : gmap Z Q) (l : ProductionLine) :=
  {| num_stations := num_stations l; conwip_level := conwip_level l;
     arrival_rate := arrival_rate l; cv_arrival := cv_arrival l;
     stations := stations l; simulator := simulator l;
     entity_counter := counter; system_wip := wip;
     completed_jobs := completed;
     job_arrival_times := arrivals;
     job_completion_times := completions;
     stats_history := stats_history l; np_random := np_random l |}.

Definition M (A : Type) : Type := ProductionLine -> Result A * ProductionLine.

Definition ret {A} (a : A) : M A := fun self => (Ok a, self).

Definition raise {A} (e : PyError) : M A := fun self => (Raise e, self).

Definition bind {A B} (m : M A) (k : A -> M B) : M B :=
  fun self =>
    match m self with
    | (Ok a, self') => k a self'
    | (Raise e, self') => (Raise e, self')
    end.

Definition gets {A} (f : ProductionLine -> A) : M A :=
  fun self => (Ok (f self), self).

Definition modify (f : ProductionLine -> ProductionLine) : M unit :=
  fun self => (Ok tt, f self).

Notation "'let*' x ':=' m 'in' k" := (bind m (fun x => k))
  (at level 10, x pattern, m at level 200, k at level 200).
Notation "m ;; k" := (bind m (fun _ => k))
  (at level 100, k at level 200, right associativity).

(** [self.stations[station_id]]: the position of the station object in the
    list, and the object. *)
Definition lookup_station (station_id : Z) : M (nat * Station) :=
  fun self =>
    match py_index (length (stations self)) station_id with
    | Some i =>
        match stations self !! i with
        | Some station => (Ok (i, station), self)
        | None => (Raise IndexError, self)
        end
    | None => (Raise IndexError, self)
    end.

(** Writing the attributes of the station object at position [i]. *)
Definition store_station (i : nat) (station : Station) : M unit :=
  modify (fun self => set_stations (<[i := station]> (stations self)) self).

Definition sim_schedule_event (event : Event) : M unit :=
  modify (fun self => set_simulator (schedule_event (simulator self) event) self).

Section Sampling.

(** The value that [np.random.gamma(shape, scale)] returns when the
    generator has made [n] draws, and likewise for
    [np.random.exponential(scale)].  Both are taken to return a draw for
    every argument; the argument checks of numpy are not part of the
    embedding. *)
Variable np_random_gamma : nat -> Q -> Q -> Q.
Variable np_random_exponential : nat -> Q -> Q.

(** [Station.get_processing_time]; the generator state goes in and out. *)
Definition get_processing_time (self : Station) (g : nat) : Q * nat :=
  if Qeq_bool (cv_processing self) 0 then (mean_processing_time self, g)
  else if Qlt_bool 0 (cv_processing self) then
    let shape := (1 / cv_processing self ^ 2)%Q in
    let scale := (mean_processing_time self / shape)%Q in
    (np_random_gamma g shape scale, S g)
  else (mean_processing_time self, g).

Definition _try_start_processing (station_id job_id : Z) : M unit :=
  let* (i, station) := lookup_station station_id in
  if decide (state station = IDLE) then
    let* now := gets (fun self => clock (simulator self)) in
    let station := set_state PROCESSING station in
    let station := set_current_job (Some job_id) station in
    let station := update_statistics station now in
    store_station i station;;
    let* g := gets np_random in
    let '(processing_time, g) := get_processing_time station g in
    modify (set_np_random g);;
    let processing_time := py_max 0.001 processing_time in
    let end_event :=
      {| time := (now + processing_time)%Q;
         event_type := PROCESSING_END;
         ev_station_id := Some station_id;
         ev_entity_id := Some job_id |} in
    sim_schedule_event end_event
  else
    if decide (job_id ∈ queue station) then ret tt
    else store_station i (set_queue (queue station ++ [job_id]) station).

Definition _handle_arrival (event : Event) : M unit :=
  let* wip := gets system_wip in
  let* cap := gets conwip_level in
  if decide (wip < cap) then
    let* now := gets (fun self => clock (simulator self)) in
    modify (fun self =>
      let job_id := entity_counter self + 1 in
      set_jobs job_id (system_wip self + 1) (completed_jobs self)
               (<[job_id := now]> (job_arrival_times self))
               (job_completion_times self) self);;
    let* job_id := gets entity_counter in
    _try_start_processing 0 job_id
  else ret tt.

(** [_handle_processing_end].  The events of this kind are built by
    [_try_start_processing] only and always carry both identifiers; an event
    without them is rejected here with [TypeError] (the list subscript with
    [None] raises it for a missing [station_id]). *)
Definition _handle_processing_end (event : Event) : M unit :=
  match ev_station_id event, ev_entity_id event with
  | Some station_id, Some job_id =>
      let* (i, station) := lookup_station station_id in
      let* now := gets (fun self => clock (simulator self)) in
      let station := set_total_processed (total_processed station + 1) station in
      let station := set_current_job None station in
      let station := set_state IDLE station in
      let station := update_statistics station now in
      store_station i station;;
      let* n := gets num_stations in
      (if decide (station_id < n - 1) then
         _try_start_processing (station_id + 1) job_id
       else
         modify (fun self =>
           set_jobs (entity_counter self) (system_wip self - 1)
                    (completed_jobs self ++ [job_id])
                    (job_arrival_times self)
                    (<[job_id := now]> (job_completion_times self)) self);;
         let* wip := gets system_wip in
         let* cap := gets conwip_level in
         if decide (wip < cap) then
           sim_schedule_event
             {| time := now; event_type := ARRIVAL;
                ev_station_id := None; ev_entity_id := None |}
         else ret tt);;
      let* sts := gets stations in
      match sts !! i with
      | Some station =>
          match queue station with
          | next_job :: rest =>
              store_station i (set_queue rest station);;
              _try_start_processing station_id next_job
          | [] => ret tt
          end
      | None => raise IndexError
      end
  | _, _ => raise TypeError
  end.

Definition call_handler (h : Handler) (event : Event) : M unit :=
  match h with
  | Handle_arrival => _handle_arrival event
  | Handle_processing_end => _handle_processing_end event
  end.

(** One turn of the [while self.event_queue] loop of
    [DiscreteEventSimulator.run]; the result tells whether the loop goes
    on. *)
Definition run_iteration (max_time : option Q) (max_events : option Z)
    : M bool :=
  let* sim := gets simulator in
  match event_queue sim with
  | [] => ret false
  | _ :: _ =>
      if match max_time with
         | Some max_time => Qle_bool max_time (clock sim)
         | None => false
         end
      then ret false
      else if match max_events with
              | Some max_events =>
                  bool_decide (max_events <= events_processed (stats sim))
              | None => false
              end
      then ret false
      else
        match heapq.heappop (event_queue sim) with
        | None => raise IndexError
        | Some (event, rest) =>
            modify (fun self =>
              set_simulator
                (set_clock (time event)
                   (set_event_queue rest (simulator self))) self);;
            match event_handlers sim (event_type event) with
            | Some h => call_handler h event
            | None => ret tt
            end;;
            modify (fun self =>
              let sim := simulator self in
              let st := stats sim in
              set_simulator
                (set_stats
                   (mkSimStats (total_entities st) (completed_entities st)
                               (events_processed st + 1)) sim) self);;
            ret true
        end
  end.

(** [DiscreteEventSimulator.run]: at most [fuel] turns of the loop; the
    result is [true] when the loop has ended within them. *)
Fixpoint sim_run (fuel : nat) (max_time : option Q) (max_events : option Z)
    : M bool :=
  match fuel with
  | O => ret false
  | S fuel' =>
      let* continue := run_iteration max_time max_events in
      if continue then sim_run fuel' max_time max_events else ret true
  end.

(** The body of the [while current_time < duration] loop of
    [generate_arrivals]; the result is the new [current_time]. *)
Definition generate_arrivals_body (duration current_time : Q) : M Q :=
  let* rate := gets arrival_rate in
  let* cv := gets cv_arrival in
  let* g := gets np_random in
  let denominator := if Qeq_bool cv 1 then rate else (rate * cv)%Q in
  if Qeq_bool denominator 0 then raise ZeroDivisionError
  else
    let inter_arrival := np_random_exponential g (1 / denominator)%Q in
    modify (set_np_random (S g));;
    let current_time := (current_time + inter_arrival)%Q in
    (if Qlt_bool current_time duration then
       sim_schedule_event
         {| time := current_time; event_type := ARRIVAL;
            ev_station_id := None; ev_entity_id := None |}
     else ret tt);;
    ret current_time.

Fixpoint generate_arrivals_loop (fuel : nat) (duration current_time : Q)
    : M bool :=
  match fuel with
  | O => ret false
  | S fuel' =>
      if Qlt_bool current_time duration then
        let* current_time := generate_arrivals_body duration current_time in
        generate_arrivals_loop fuel' duration current_time
      else ret true
  end.

Definition generate_arrivals (fuel : nat) (duration : Q) : M bool :=
  generate_arrivals_loop fuel duration 0.

(** The loop over [completed_jobs] in [get_statistics]. *)
Fixpoint collect_cycle_times (completed : list Z)
    (arrivals completions : gmap Z Q) (warmup_period : Q) : list Q :=
  match completed with
  | [] => []
  | job_id :: rest =>
      let tl := collect_cycle_times rest arrivals completions warmup_period in
      match arrivals !! job_id, completions !! job_id with
      | Some arrival_time, Some completion_time =>
          if Qle_bool warmup_period arrival_time
          then (completion_time - arrival_time)%Q :: tl
          else tl
      | _, _ => tl
      end
  end.

Definition Qsum (l : list Q) : Q := fold_right Qplus 0%Q l.

(** [np.mean] of a non-empty list. *)
Definition np_mean (l : list Q) : Q :=
  (Qsum l / inject_Z (Z.of_nat (length l)))%Q.

Definition station_stat (now : Q) (station : Station) : StationStats * Station :=
  let '(util, station) := get_utilization station now in
  ({| ss_station_id := station_id station;
      ss_name := name station;
      utilization := util;
      ss_total_processed := total_processed station;
      avg_processing_time :=
        if decide (0 < total_processed station)
        then (total_processing_time station
              / inject_Z (total_processed station))%Q
        else 0%Q |}, station).

Definition get_statistics (warmup_period : Q) : M Statistics :=
  let* now := gets (fun self => clock (simulator self)) in
  modify (fun self =>
    set_stations
      (map (fun station => update_statistics station now) (stations self))
      self);;
  let* cycle_times := gets (fun self =>
    collect_cycle_times (completed_jobs self) (job_arrival_times self)
                        (job_completion_times self) warmup_period) in
  let total_time := (now - warmup_period)%Q in
  let throughput :=
    if Qlt_bool 0 total_time
    then (inject_Z (Z.of_nat (length cycle_times)) / total_time)%Q
    else 0%Q in
  let avg_cycle_time :=
    match cycle_times with
    | [] => 0%Q
    | _ :: _ => np_mean cycle_times
    end in
  let avg_wip :=
    if Qlt_bool 0 avg_cycle_time then (throughput * avg_cycle_time)%Q
    else 0%Q in
  let* sts := gets stations in
  let per_station := map (station_stat now) sts in
  modify (set_stations (map snd per_station));;
  ret {| throughput := throughput;
         avg_cycle_time := avg_cycle_time;
         avg_wip := avg_wip;
         total_completed := Z.of_nat (length cycle_times);
         station_stats := map fst per_station;
         simulation_time := now |}.

(** [ProductionLine.run]; [None] when one of the two loops needs more turns
    than the fuel given for it. *)
Definition run (fuel_arrivals fuel_events : nat) (duration warmup_period : Q)
    : M (option Statistics) :=
  let* generated := generate_arrivals fuel_arrivals duration in
  if generated then
    let* finished := sim_run fuel_events (Some duration) None in
    if finished then
      let* st := get_statistics warmup_period in
      ret (Some st)
    else ret None
  else ret None.

Definition update_parameters (station_id : Z)
    (mean_processing_time cv_processing : option Q) : M unit :=
  let* (i, station) := lookup_station station_id in
  let station :=
    match mean_processing_time with
    | Some v => set_mean_processing_time v station
    | None => station
    end in
  let station :=
    match cv_processing with
    | Some v => set_cv_processing v station
    | None => station
    end in
  store_station i station.

Definition reset_station (s : Station) : Station :=
  {| station_id := station_id s; name := name s;
     mean_processing_time := mean_processing_time s;
     cv_processing := cv_processing s; buffer_capacity := buffer_capacity s;
     state := IDLE; current_job := None; queue := []; buffer := [];
     total_processed := 0; total_processing_time := 0;
     total_idle_time := 0; total_blocked_time := 0;
     total_starved_time := 0; last_state_change_time := 0 |}.

Definition reset : M unit :=
  modify (fun self =>
    {| num_stations := num_stations self;
       conwip_level := conwip_level self;
       arrival_rate := arrival_rate self; cv_arrival := cv_arrival self;
       stations := map reset_station (stations self);
       simulator := sim_reset (simulator self);
       entity_counter := 0; system_wip := 0; completed_jobs := [];
       job_arrival_times := ∅; job_completion_times := ∅;
       stats_history := []; np_random := np_random self |}).

End Sampling.

(** [ProductionLine.__init__].  The list comprehension that builds the
    stations subscripts both parameter lists at every position of
    [range(num_stations)]. *)
Fixpoint build_stations (positions : list Z)
    (mean_processing_times cv_processing : list Q) : Result (list Station) :=
  match positions with
  | [] => Ok []
  | i :: rest =>
      Result_bind (py_getitem mean_processing_times i) (fun m =>
      Result_bind (py_getitem cv_processing i) (fun cv =>
      Result_bind (build_stations rest mean_processing_times cv_processing)
        (fun tl =>
           Ok (new_Station i ("Station " +:+ pretty (i + 1)) m cv :: tl))))
  end.

Definition ProductionLine__init__ (num_stations conwip_level : Z)
    (mean_processing_times cv_processing : option (list Q))
    (arrival_rate cv_arrival : Q) (seed : nat) : Result ProductionLine :=
  let mean_processing_times :=
    match mean_processing_times with
    | Some l => l
    | None => replicate (Z.to_nat num_stations) 1%Q
    end in
  let cv_processing :=
    match cv_processing with
    | Some l => l
    | None => replicate (Z.to_nat num_stations) 1%Q
    end in
  Result_bind
    (build_stations (seqZ 0 num_stations) mean_processing_times cv_processing)
    (fun sts =>
       let sim := new_DiscreteEventSimulator in
       let sim := register_handler sim ARRIVAL Handle_arrival in
       let sim := register_handler sim PROCESSING_END Handle_processing_end in
       Ok {| num_stations := num_stations; conwip_level := conwip_level;
             arrival_rate := arrival_rate; cv_arrival := cv_arrival;
             stations := sts; simulator := sim;
             entity_counter := 0; system_wip := 0; completed_jobs := [];
             job_arrival_times := ∅; job_completion_times := ∅;
             stats_history := []; np_random := seed |}).

(** * Invariants, reachable states and the inputs of the examples *)

(** The position of the parent of position [i] in the heap. *)
Definition parent (i : nat) : nat := ((i - 1) / 2)%nat.

(** The heap invariant of [heapq]: no element is smaller than its parent. *)
Definition heap_inv (h : list Event) : Prop :=
  forall i x p, (0 < i)%nat -> h !! i = Some x -> h !! parent i = Some p ->
    (time p <= time x)%Q.

(** A heap with a hole at [pos]: the slot [pos] is ignored, and the children
    of [pos] are compared with the parent of [pos] instead. *)
Definition hole_inv (h : list Event) (pos : nat) : Prop :=
  forall i x, (0 < i)%nat -> i <> pos -> h !! i = Some x ->
    (parent i <> pos -> forall p, h !! parent i = Some p ->
       (time p <= time x)%Q) /\
    (parent i = pos -> (0 < pos)%nat -> forall p, h !! parent pos = Some p ->
       (time p <= time x)%Q).

(** Every child of [pos] is at least [v]. *)
Definition children_ge (h : list Event) (pos : nat) (v : Event) : Prop :=
  forall c x, (0 < c)%nat -> parent c = pos -> h !! c = Some x ->
    (time v <= time x)%Q.

(** The number of jobs held by a station: the waiting ones and the one in
    service. *)
Definition occ (st : Station) : Z :=
  Z.of_nat (length (queue st)) + (if decide (state st = IDLE) then 0 else 1).

Definition occ_sum (sts : list Station) : Z :=
  foldr (fun st acc => occ st + acc) 0 sts.

(** The job [j] has been admitted, at a time not after [t]. *)
Definition job_known (L : ProductionLine) (j : Z) (t : Q) : Prop :=
  exists a, job_arrival_times L !! j = Some a /\ (a <= t)%Q.

(** What the line knows about a pending [PROCESSING_END] event: its station
    is busy, and neither its job nor the jobs waiting at that station were
    admitted after the event's time. *)
Definition pe_ok (L : ProductionLine) (e : Event) : Prop :=
  event_type e = PROCESSING_END ->
  exists s j st,
    ev_station_id e = Some s /\ ev_entity_id e = Some j /\ 0 <= s /\
    stations L !! Z.to_nat s = Some st /\ state st <> IDLE /\
    job_known L j (time e) /\
    (forall k, k ∈ queue st -> job_known L k (time e)).

(** The station of a [PROCESSING_END] event. *)
Definition pe_station (e : Event) : option Z :=
  if decide (event_type e = PROCESSING_END) then ev_station_id e else None.

(** The handler table that [__init__] registers. *)
Definition handlers_registered (sim : DiscreteEventSimulator) : Prop :=
  forall t, event_handlers sim t =
    match t with
    | ARRIVAL => Some Handle_arrival
    | PROCESSING_END => Some Handle_processing_end
    | _ => None
    end.

(** The part of the invariant that holds at every point of a handler. *)
Record Core (L : ProductionLine) : Prop := {
  core_len : Z.of_nat (length (stations L)) = num_stations L;
  core_pos : 1 <= num_stations L;
  core_heap : heap_inv (event_queue (simulator L));
  core_pe : Forall (pe_ok L) (event_queue (simulator L));
  core_nodup : NoDup (omap pe_station (event_queue (simulator L)));
  core_tpt : forall i st, stations L !! i = Some st ->
    total_processing_time st = 0%Q;
  core_handlers : handlers_registered (simulator L);
  core_idle : forall i st, stations L !! i = Some st -> state st = IDLE ->
    forall k, k ∈ queue st -> job_known L k (clock (simulator L));
  core_clock : forall e, e ∈ event_queue (simulator L) ->
    event_type e = PROCESSING_END -> (clock (simulator L) <= time e)%Q
}.

(** The book-keeping of jobs. *)
Record Books (L : ProductionLine) : Prop := {
  books_counter : 0 <= entity_counter L;
  books_wip : system_wip L = entity_counter L - Z.of_nat (length (completed_jobs L));
  books_cap : system_wip L <= conwip_level L;
  books_dom : forall j, is_Some (job_arrival_times L !! j) <->
    1 <= j <= entity_counter L;
  books_size : Z.of_nat (size (job_arrival_times L)) = entity_counter L;
  books_completed : forall j, j ∈ completed_jobs L ->
    exists a c, job_arrival_times L !! j = Some a /\
      job_completion_times L !! j = Some c /\ (a <= c)%Q
}.

(** What a call of [_try_start_processing] leaves untouched. *)
Definition frame (L L' : ProductionLine) : Prop :=
  num_stations L' = num_stations L /\
  conwip_level L' = conwip_level L /\
  entity_counter L' = entity_counter L /\
  system_wip L' = system_wip L /\
  completed_jobs L' = completed_jobs L /\
  job_arrival_times L' = job_arrival_times L /\
  job_completion_times L' = job_completion_times L /\
  clock (simulator L') = clock (simulator L).

(** The invariant between two event dispatches. *)
Record Inv (L : ProductionLine) : Prop := {
  inv_core : Core L;
  inv_books : Books L;
  inv_occ : occ_sum (stations L) <= system_wip L;
  inv_idle : forall i st, stations L !! i = Some st -> state st = IDLE ->
    queue st = []
}.

(** The last statement of [_handle_processing_end]: the station at position
    [i] takes the head of its queue. *)
Definition drain_queue (np_random_gamma : nat -> Q -> Q -> Q)
    (i : nat) (station_id : Z) : M unit :=
  let* sts := gets stations in
  match sts !! i with
  | Some station =>
      match queue station with
      | next_job :: rest =>
          store_station i (set_queue rest station);;
          _try_start_processing np_random_gamma station_id next_job
      | [] => ret tt
      end
  | None => raise IndexError
  end.

(** Two stations that differ in parameters and time counters only. *)
Definition same_shape (st st' : Station) : Prop :=
  state st' = state st /\ queue st' = queue st /\
  total_processing_time st' = total_processing_time st.

(** The configurations that the specification calls valid. *)
Definition valid_config (num_stations conwip_level : Z)
    (mean_processing_times cv_processing : option (list Q))
    (arrival_rate : Q) : Prop :=
  1 <= num_stations /\ 1 <= conwip_level /\ (0 < arrival_rate)%Q /\
  (forall l, mean_processing_times = Some l ->
     Z.of_nat (length l) = num_stations /\ Forall (fun m => (0 < m)%Q) l) /\
  (forall l, cv_processing = Some l -> Forall (fun c => (0 <= c)%Q) l).

(** The states of a production line between two steps of its use: after its
    construction from a valid configuration, after each turn of the arrival
    generation loop, after each dispatch of the run loop (for any stopping
    bounds), and after [get_statistics], [update_parameters] and [reset]. *)
Inductive reachable (np_random_gamma : nat -> Q -> Q -> Q)
    (np_random_exponential : nat -> Q -> Q) : ProductionLine -> Prop :=
  | reach_init n c means cvs rate cva seed L :
      valid_config n c means cvs rate ->
      ProductionLine__init__ n c means cvs rate cva seed = Ok L ->
      reachable np_random_gamma np_random_exponential L
  | reach_generate L duration t t' L' :
      reachable np_random_gamma np_random_exponential L ->
      generate_arrivals_body np_random_exponential duration t L = (Ok t', L') ->
      reachable np_random_gamma np_random_exponential L'
  | reach_dispatch L max_time max_events b L' :
      reachable np_random_gamma np_random_exponential L ->
      run_iteration np_random_gamma max_time max_events L = (Ok b, L') ->
      reachable np_random_gamma np_random_exponential L'
  | reach_statistics L warmup st L' :
      reachable np_random_gamma np_random_exponential L ->
      get_statistics warmup L = (Ok st, L') ->
      reachable np_random_gamma np_random_exponential L'
  | reach_update L station_id mean cv L' :
      reachable np_random_gamma np_random_exponential L ->
      update_parameters station_id mean cv L = (Ok tt, L') ->
      reachable np_random_gamma np_random_exponential L'
  | reach_reset L :
      reachable np_random_gamma np_random_exponential L -> reachable np_random_gamma np_random_exponential (snd (reset L)).

(** The event queues that a simulator can hold: built from the empty queue
    of [__init__] or [reset] by [schedule_event] and by the [heappop] of the
    run loop. *)
Inductive queue_built : list Event -> Prop :=
  | built_new : queue_built (event_queue new_DiscreteEventSimulator)
  | built_schedule sim event :
      queue_built (event_queue sim) ->
      queue_built (event_queue (schedule_event sim event))
  | built_pop q event rest :
      queue_built q -> heapq.heappop q = Some (event, rest) ->
      queue_built rest.

(** Four arrivals with the same time stamp, told apart by [entity_id]. *)
Definition tie (n : Z) : Event :=
  {| time := 1; event_type := ARRIVAL;
     ev_station_id := None; ev_entity_id := Some n |}.

Definition four_ties : DiscreteEventSimulator :=
  schedule_event
    (schedule_event
       (schedule_event
          (schedule_event new_DiscreteEventSimulator (tie 1)) (tie 2))
       (tie 3))
    (tie 4).

(** A generator whose draws are all [1]; the deterministic stations below
    never draw from it. *)
Definition draw_one : nat -> Q -> Q -> Q := fun _ _ _ => 1%Q.
Definition exponential_one : nat -> Q -> Q := fun _ _ => 1%Q.

(** [ProductionLine(num_stations=1, conwip_level=1,
    mean_processing_times=[mean], cv_processing=[cv], arrival_rate=10)] *)
Definition single_station_line (mean cv : Q) : ProductionLine :=
  {| num_stations := 1; conwip_level := 1;
     arrival_rate := 10; cv_arrival := 1;
     stations := [new_Station 0 "Station 1" mean cv];
     simulator :=
       register_handler
         (register_handler new_DiscreteEventSimulator ARRIVAL Handle_arrival)
         PROCESSING_END Handle_processing_end;
     entity_counter := 0; system_wip := 0; completed_jobs := [];
     job_arrival_times := ∅; job_completion_times := ∅;
     stats_history := []; np_random := 0 |}.

Definition arrival_at (t : Q) : Event :=
  {| time := t; event_type := ARRIVAL;
     ev_station_id := None; ev_entity_id := None |}.

(** The line with one arrival scheduled at time [t], and the states after
    the first and the second dispatch of the run loop. *)
Definition with_arrival (t : Q) (L : ProductionLine) : ProductionLine :=
  snd (sim_schedule_event (arrival_at t) L).

Definition dispatch (L : ProductionLine) : ProductionLine :=
  snd (run_iteration draw_one None None L).

(** A reachable state with one completed job: the line above, one turn of
    the arrival generation (an arrival at time 1) and two dispatches. *)
Definition after_one_job : ProductionLine :=
  dispatch (dispatch
    (snd (generate_arrivals_body exponential_one 5 0 (single_station_line 1 0)))).

(** The lists that the list comprehension subscripts. *)
Definition effective (num_stations : Z) (l : option (list Q)) : list Q :=
  match l with
  | Some l => l
  | None => replicate (Z.to_nat num_stations) 1%Q
  end.

(** ** The mutations that the event handlers perform *)

(** The station after [_try_start_processing] has put a job in service, and
    after [_handle_processing_end] has taken the finished job off it. *)
Definition started (job_id : Z) (now : Q) (st : Station) : Station :=
  update_statistics
    (set_current_job (Some job_id) (set_state PROCESSING st)) now.

Definition finished (now : Q) (st : Station) : Station :=
  update_statistics
    (set_state IDLE
       (set_current_job None
          (set_total_processed (total_processed st + 1) st))) now.

Definition processing_end_at (t : Q) (station_id job_id : Z) : Event :=
  {| time := t; event_type := PROCESSING_END;
     ev_station_id := Some station_id; ev_entity_id := Some job_id |}.

(** One assignment group of a handler: a station starts a job (with the end
    of processing scheduled at least 0.001 later), a busy station queues a
    job, a station finishes its job, a station takes the head off its
    queue, a job is admitted, a job is recorded as completed, and an arrival
    is scheduled at the current time. *)
Inductive handler_mutation (L : ProductionLine) : ProductionLine -> Prop :=
  | mut_start i st station_id job_id d g :
      py_index (length (stations L)) station_id = Some i ->
      stations L !! i = Some st -> state st = IDLE -> (1 # 1000 <= d)%Q ->
      handler_mutation L
        (set_simulator
           (schedule_event (simulator L)
              (processing_end_at (clock (simulator L) + d) station_id job_id))
           (set_np_random g
              (set_stations
                 (<[i := started job_id (clock (simulator L)) st]> (stations L))
                 L)))
  | mut_enqueue i st job_id :
      stations L !! i = Some st -> state st <> IDLE -> job_id ∉ queue st ->
      handler_mutation L
        (set_stations
           (<[i := set_queue (queue st ++ [job_id]) st]> (stations L)) L)
  | mut_finish i st :
      stations L !! i = Some st ->
      handler_mutation L
        (set_stations
           (<[i := finished (clock (simulator L)) st]> (stations L)) L)
  | mut_dequeue i st next_job rest :
      stations L !! i = Some st -> queue st = next_job :: rest ->
      handler_mutation L
        (set_stations (<[i := set_queue rest st]> (stations L)) L)
  | mut_new_job :
      system_wip L < conwip_level L ->
      handler_mutation L
        (set_jobs (entity_counter L + 1) (system_wip L + 1) (completed_jobs L)
           (<[entity_counter L + 1 := clock (simulator L)]>
              (job_arrival_times L))
           (job_completion_times L) L)
  | mut_complete job_id :
      handler_mutation L
        (set_jobs (entity_counter L) (system_wip L - 1)
           (completed_jobs L ++ [job_id]) (job_arrival_times L)
           (<[job_id := clock (simulator L)]> (job_completion_times L)) L)
  | mut_pull :
      system_wip L < conwip_level L ->
      handler_mutation L
        (set_simulator
           (schedule_event (simulator L) (arrival_at (clock (simulator L))))
           L).

(** The line after the run loop has popped [event], and after it has
    counted a dispatch. *)
Definition popped (event : Event) (rest : list Event) (L : ProductionLine)
    : ProductionLine :=
  set_simulator
    (set_clock (time event) (set_event_queue rest (simulator L))) L.

Definition counted (L : ProductionLine) : ProductionLine :=
  set_simulator
    (set_stats
       (mkSimStats (total_entities (stats (simulator L)))
                   (completed_entities (stats (simulator L)))
                   (events_processed (stats (simulator L)) + 1))
       (simulator L)) L.

(** ** Time, station objects and the layout of the line *)

(** No queued event lies before the clock, and the queue is a heap. *)
Definition timely (L : ProductionLine) : Prop :=
  heap_inv (event_queue (simulator L)) /\
  Forall (fun e => (clock (simulator L) <= time e)%Q)
         (event_queue (simulator L)).

(** A station is idle without a job or processing one, and has never been
    blocked or starved. *)
Definition station_mode_ok (st : Station) : Prop :=
  ((state st = IDLE /\ current_job st = None) \/
   (state st = PROCESSING /\ is_Some (current_job st))) /\
  total_blocked_time st = 0%Q /\ total_starved_time st = 0%Q.

(** The time counters of a station at time [now]. *)
Definition station_time_ok (now : Q) (st : Station) : Prop :=
  station_mode_ok st /\
  (0 <= total_idle_time st)%Q /\
  (total_idle_time st <= last_state_change_time st)%Q /\
  (last_state_change_time st <= now)%Q.

Definition time_ok (L : ProductionLine) : Prop :=
  timely L /\ Forall (station_time_ok (clock (simulator L))) (stations L).

(** A station as [__init__] builds it, with the parameters of [st]. *)
Definition fresh_station (st : Station) : Station :=
  new_Station (station_id st) (name st)
              (mean_processing_time st) (cv_processing st).

(** A property of station objects that every assignment of the code to a
    station keeps: the constructor, [update_statistics], the start and the
    end of a job, the two queue operations, [update_parameters] and
    [reset]. *)
Record station_invariant (P : Station -> Prop) : Prop := {
  si_new : forall i nm m cv, P (new_Station i nm m cv);
  si_update : forall st now, P st -> P (update_statistics st now);
  si_start : forall st j, P st -> state st = IDLE ->
    P (set_current_job (Some j) (set_state PROCESSING st));
  si_finish : forall st, P st ->
    P (set_state IDLE
         (set_current_job None
            (set_total_processed (total_processed st + 1) st)));
  si_enqueue : forall st j, P st -> state st <> IDLE -> j ∉ queue st ->
    P (set_queue (queue st ++ [j]) st);
  si_dequeue : forall st k rest, P st -> queue st = k :: rest ->
    P (set_queue rest st);
  si_mean : forall st v, P st -> P (set_mean_processing_time v st);
  si_cv : forall st v, P st -> P (set_cv_processing v st);
  si_reset : forall st, P st -> P (reset_station st)
}.

(** What [reset] keeps of a station object besides its two parameters, and
    the values that [__init__] gives them at the positions of
    [range(num_stations)]. *)
Definition station_label (st : Station) : Z * string * Z :=
  (station_id st, name st, buffer_capacity st).

Definition label_at (i : Z) : Z * string * Z :=
  (i, "Station " +:+ pretty (i + 1), 0).

(** The simulator that [__init__] sets up. *)
Definition initial_simulator : DiscreteEventSimulator :=
  register_handler
    (register_handler new_DiscreteEventSimulator ARRIVAL Handle_arrival)
    PROCESSING_END Handle_processing_end.

Definition laid_out (L : ProductionLine) : Prop :=
  map station_label (stations L) = map label_at (seqZ 0 (num_stations L)) /\
  event_handlers (simulator L) = event_handlers initial_simulator.

(** ** Arrival generation, the end of the run loop and pending events *)



(** The events that [generate_arrivals] schedules for a run of length
    [duration]. *)
Definition generated_arrival (duration : Q) (e : Event) : Prop :=
  event_type e = ARRIVAL /\ ev_station_id e = None /\ ev_entity_id e = None /\
  (time e < duration)%Q.

(** Two lines that differ in the event queue and the generator state only. *)
Definition same_but_queue (L L' : ProductionLine) : Prop :=
  num_stations L' = num_stations L /\ conwip_level L' = conwip_level L /\
  arrival_rate L' = arrival_rate L /\ cv_arrival L' = cv_arrival L /\
  stations L' = stations L /\
  clock (simulator L') = clock (simulator L) /\
  stats (simulator L') = stats (simulator L) /\
  event_handlers (simulator L') = event_handlers (simulator L) /\
  entity_counter L' = entity_counter L /\ system_wip L' = system_wip L /\
  completed_jobs L' = completed_jobs L /\
  job_arrival_times L' = job_arrival_times L /\
  job_completion_times L' = job_completion_times L /\
  stats_history L' = stats_history L.

(** The counters and the queue of a station that never go wrong. *)
Definition station_counts_ok (st : Station) : Prop :=
  0 <= total_processed st /\ NoDup (queue st).

(** Why the loop of [DiscreteEventSimulator.run] has ended. *)
Definition stopping_condition (max_time : option Q) (max_events : option Z)
    (sim : DiscreteEventSimulator) : Prop :=
  event_queue sim = [] \/
  (exists t, max_time = Some t /\ (t <= clock sim)%Q) \/
  (exists n, max_events = Some n /\ n <= events_processed (stats sim)).




(** ** Values of the estimators *)

(** The order of floats with [np.inf] on top, and equality of values. *)
Definition float_le (a b : float_or_inf) : Prop :=
  match a, b with
  | Finite x, Finite y => (x <= y)%Q
  | _, np_inf => True
  | np_inf, Finite _ => False
  end.

Definition float_eq (a b : float_or_inf) : Prop :=
  match a, b with
  | Finite x, Finite y => (x == y)%Q
  | np_inf, np_inf => True
  | _, _ => False
  end.

(** The two entries of a station dictionary that the estimators read. *)
Definition rate_of (station : gmap string Q) : Q :=
  dict_get station "processing_rate" 1.

Definition mean_of (station : gmap string Q) : Q :=
  dict_get station "mean_processing_time" 1.

(** A station whose processing time, at the arrival rate [rate], takes up
    all of its capacity. *)
Definition station_saturated (rate : Q) (station : gmap string Q) : Prop :=
  (0 < mean_of station)%Q /\ (1 <= rate * mean_of station)%Q.

(** Kingman's cycle time of one station at the arrival rate [rate], with
    both coefficients of variation 1. *)
Definition station_cycle_time (rate : Q) (station : gmap string Q)
    : float_or_inf :=
  calculate_cycle_time (mean_of station)
    (calculate_utilization rate
       (if Qlt_bool 0 (mean_of station) then Finite (1 / mean_of station)
        else np_inf)) 1 1.

Definition float_sum (l : list float_or_inf) : float_or_inf :=
  foldr float_add (Finite 0) l.

(** * Properties of the event queue *)

Lemma Qlt_bool_true x y : Qlt_bool x y = true <-> (x < y)%Q.
Proof.
  unfold Qlt_bool. rewrite negb_true_iff.
  destruct (Qle_bool y x) eqn:E.
  - apply Qle_bool_iff in E. split; [discriminate | intros H; lra].
  - split; [intros _ | reflexivity].
    destruct (Qlt_le_dec x y) as [H|H]; [exact H|].
    apply Qle_bool_iff in H. congruence.
Qed.

Lemma Qlt_bool_false x y : Qlt_bool x y = false <-> (y <= x)%Q.
Proof. unfold Qlt_bool. rewrite negb_false_iff. apply Qle_bool_iff. Qed.

Lemma Event_lt_true a b : Event_lt a b = true <-> (time a < time b)%Q.
Proof. apply Qlt_bool_true. Qed.

Lemma Event_lt_false a b : Event_lt a b = false <-> (time b <= time a)%Q.
Proof. apply Qlt_bool_false. Qed.

Import heapq.

Lemma parent_lt i : (0 < i)%nat -> (parent i < i)%nat.
Proof. unfold parent. intros. apply Nat.Div0.div_lt_upper_bound; lia. Qed.

Lemma hole_inv_insert h pos v : hole_inv h pos -> hole_inv (<[pos := v]> h) pos.
Proof.
  intros H i x Hi Hne Hx.
  rewrite list_lookup_insert_ne in Hx by congruence.
  destruct (H i x Hi Hne Hx) as [H1 H2]. split.
  - intros Hp p Hl. rewrite list_lookup_insert_ne in Hl by congruence. eauto.
  - intros Hp H0 p Hl.
    rewrite list_lookup_insert_ne in Hl
      by (pose proof (parent_lt pos H0); lia).
    eauto.
Qed.

Lemma hole_fill h pos v :
  (pos < length h)%nat ->
  hole_inv h pos -> children_ge h pos v ->
  (forall p, (0 < pos)%nat -> h !! parent pos = Some p -> (time p <= time v)%Q) ->
  heap_inv (<[pos := v]> h).
Proof.
  intros Hlen Hh Hc Hp i x p Hi Hx Hpar.
  destruct (decide (i = pos)) as [->|Hne].
  - rewrite list_lookup_insert_eq in Hx by done. injection Hx as <-.
    rewrite list_lookup_insert_ne in Hpar
      by (pose proof (parent_lt pos Hi); lia).
    eauto.
  - rewrite list_lookup_insert_ne in Hx by congruence.
    destruct (decide (parent i = pos)) as [E|E].
    + rewrite E, list_lookup_insert_eq in Hpar by done. injection Hpar as <-.
      eapply Hc; eauto.
    + rewrite list_lookup_insert_ne in Hpar by congruence.
      destruct (Hh i x Hi Hne Hx) as [H1 _]. eauto.
Qed.

Lemma siftdown_loop_heap fuel : forall h pos newitem,
  (pos <= fuel)%nat -> (pos < length h)%nat ->
  hole_inv h pos -> children_ge h pos newitem ->
  heap_inv (_siftdown_loop fuel h 0 pos newitem).
Proof.
  induction fuel as [|fuel IH]; intros h pos newitem Hf Hlen Hh Hc; cbn [_siftdown_loop].
  - apply hole_fill; auto. intros; lia.
  - destruct (decide (0 < pos)%nat) as [Hpos|Hpos];
      [|apply hole_fill; auto; intros; lia].
    pose proof (parent_lt pos Hpos) as Hpl.
    change ((pos - 1) / 2)%nat with (parent pos).
    destruct (h !! parent pos) as [par|] eqn:Epar;
      [|apply lookup_ge_None in Epar; lia].
    destruct (Event_lt newitem par) eqn:Elt.
    + apply Event_lt_true in Elt.
      apply IH.
      * lia.
      * rewrite length_insert. lia.
      * intros i x Hi Hne Hx.
        destruct (decide (i = pos)) as [->|Hnp].
        -- rewrite list_lookup_insert_eq in Hx by done. injection Hx as <-.
           split; [congruence|]. intros _ H0 p Hl.
           rewrite list_lookup_insert_ne in Hl
             by (pose proof (parent_lt _ H0); lia).
           destruct (Hh (parent pos) par H0 ltac:(lia) Epar) as [H1 _].
           apply H1; auto. pose proof (parent_lt _ H0); lia.
        -- rewrite list_lookup_insert_ne in Hx by congruence.
           destruct (Hh i x Hi Hnp Hx) as [H1 H2].
           split.
           ++ intros Hpp p Hl.
              destruct (decide (parent i = pos)) as [E|E].
              ** rewrite E, list_lookup_insert_eq in Hl by done.
                 injection Hl as <-. eapply H2; eauto.
              ** rewrite list_lookup_insert_ne in Hl by congruence. eauto.
           ++ intros Hpp H0 p Hl.
              rewrite list_lookup_insert_ne in Hl
                by (pose proof (parent_lt _ H0); lia).
              destruct (Hh (parent pos) par H0 ltac:(lia) Epar) as [H3 _].
              assert (time p <= time par)%Q
                by (apply H3; auto; pose proof (parent_lt _ H0); lia).
              assert (time par <= time x)%Q
                by (apply H1; [lia | congruence]).
              lra.
      * intros c x Hc0 Hcp Hx.
        destruct (decide (c = pos)) as [->|Hnp].
        -- rewrite list_lookup_insert_eq in Hx by done. injection Hx as <-. lra.
        -- rewrite list_lookup_insert_ne in Hx by congruence.
           destruct (Hh c x Hc0 Hnp Hx) as [H1 _].
           assert (time par <= time x)%Q
             by (apply H1; [lia | congruence]).
           lra.
    + apply Event_lt_false in Elt.
      apply hole_fill; auto. intros p _ Hl. congruence.
Qed.

Lemma insert_head_Permutation (h : list Event) i z v :
  h !! i = Some z -> z :: <[i := v]> h ≡ₚ v :: h.
Proof.
  revert i. induction h as [|a t IH]; intros [|i] Hz; simplify_eq/=.
  - apply perm_swap.
  - rewrite perm_swap, (IH i Hz). apply perm_swap.
Qed.

(** Moving the element at [j] into the slot [i] and writing [v] at [j] is a
    rearrangement of writing [v] at [i]. *)
Lemma insert_move_Permutation (h : list Event) i j y v :
  i <> j -> (i < length h)%nat -> h !! j = Some y ->
  <[j := v]> (<[i := y]> h) ≡ₚ <[i := v]> h.
Proof.
  intros Hne Hi Hj.
  destruct (lookup_lt_is_Some_2 h i Hi) as [z Hz].
  assert (H1 : <[i := y]> h !! j = Some y)
    by (rewrite list_lookup_insert_ne; auto).
  apply (Permutation_cons_inv (a := y)), (Permutation_cons_inv (a := z)).
  transitivity (v :: y :: h).
  - rewrite (insert_head_Permutation _ j y v H1).
    rewrite (perm_swap v z), (insert_head_Permutation h i z y Hz). done.
  - rewrite (perm_swap y z), (insert_head_Permutation h i z v Hz).
    apply perm_swap.
Qed.

Lemma siftdown_loop_Permutation fuel : forall h startpos pos newitem,
  (pos < length h)%nat ->
  _siftdown_loop fuel h startpos pos newitem ≡ₚ <[pos := newitem]> h.
Proof.
  induction fuel as [|fuel IH]; intros h startpos pos newitem Hlen;
    cbn [_siftdown_loop]; [done|].
  destruct (decide (startpos < pos)%nat) as [Hpos|Hpos]; [|done].
  assert (Hpl : (parent pos < pos)%nat) by (apply parent_lt; lia).
  change ((pos - 1) / 2)%nat with (parent pos).
  destruct (h !! parent pos) as [par|] eqn:Epar; [|done].
  destruct (Event_lt newitem par); [|done].
  rewrite IH by (rewrite length_insert; lia).
  apply insert_move_Permutation; auto. lia.
Qed.

(** The child chosen by [_siftup] is a child of [pos], in range, and not
    larger than its sibling. *)
Lemma smaller_child_spec h pos :
  (2 * pos + 1 < length h)%nat ->
  let c := smaller_child h (length h) (2 * pos + 1) in
  (pos < c)%nat /\ parent c = pos /\
  exists y, h !! c = Some y /\
    forall i x, (0 < i)%nat -> parent i = pos -> h !! i = Some x ->
      (time y <= time x)%Q.
Proof.
  intros Hl. unfold smaller_child.
  assert (Hsib : forall i, (0 < i)%nat -> parent i = pos ->
            i = (2 * pos + 1)%nat \/ i = (2 * pos + 1 + 1)%nat).
  { unfold parent. intros i Hi Hp.
    pose proof (Nat.div_mod_eq (i - 1) 2).
    pose proof (Nat.mod_upper_bound (i - 1) 2). lia. }
  assert (Hp1 : parent (2 * pos + 1) = pos).
  { unfold parent. replace (2 * pos + 1 - 1)%nat with (pos * 2)%nat by lia.
    apply Nat.div_mul. lia. }
  assert (Hp2 : parent (2 * pos + 1 + 1) = pos).
  { unfold parent. replace (2 * pos + 1 + 1 - 1)%nat with (1 + pos * 2)%nat by lia.
    rewrite Nat.div_add by lia. done. }
  destruct (lookup_lt_is_Some_2 h _ Hl) as [l El].
  destruct (decide (2 * pos + 1 + 1 < length h)%nat) as [Hr|Hr].
  - destruct (lookup_lt_is_Some_2 h _ Hr) as [r Er]. rewrite El, Er.
    destruct (Event_lt l r) eqn:Elt; cbn [negb].
    + apply Event_lt_true in Elt. split; [lia|]. split; [done|].
      exists l. split; [done|]. intros i x Hi Hp Hx.
      destruct (Hsib i Hi Hp) as [->| ->]; simplify_eq; lra.
    + apply Event_lt_false in Elt. split; [lia|]. split; [done|].
      exists r. split; [done|]. intros i x Hi Hp Hx.
      destruct (Hsib i Hi Hp) as [->| ->]; simplify_eq; lra.
  - split; [lia|]. split; [done|].
    exists l. split; [done|]. intros i x Hi Hp Hx.
    destruct (Hsib i Hi Hp) as [->| ->]; simplify_eq; [lra|].
    apply lookup_lt_Some in Hx. lia.
Qed.

Lemma siftup_loop_spec fuel : forall h pos,
  (length h <= pos + fuel)%nat -> (pos < length h)%nat ->
  hole_inv h pos ->
  forall h' leaf, _siftup_loop fuel h (length h) pos = (h', leaf) ->
    hole_inv h' leaf /\ (leaf < length h')%nat /\ length h' = length h /\
    (forall c, parent c = leaf -> (0 < c)%nat -> (length h' <= c)%nat) /\
    (forall v, <[leaf := v]> h' ≡ₚ <[pos := v]> h).
Proof.
  induction fuel as [|fuel IH]; intros h pos Hf Hlen Hh h' leaf;
    cbn [_siftup_loop]; [lia|].
  destruct (decide (2 * pos + 1 < length h)%nat) as [Hc|Hc].
  - destruct (smaller_child_spec h pos Hc) as (Hlt & Hpar & y & Hy & Hmin).
    set (c := smaller_child h (length h) (2 * pos + 1)) in *.
    rewrite Hy. intros Hrun.
    assert (Hcl : (c < length h)%nat) by (eapply lookup_lt_Some; eauto).
    replace (length h) with (length (<[pos := y]> h)) in Hrun
      by apply length_insert.
    apply IH in Hrun.
    + destruct Hrun as (H1 & H2 & H3 & H4 & H5).
      rewrite length_insert in H3. split; [done|]. split; [done|].
      split; [done|]. split; [done|].
      intros v. rewrite H5. apply insert_move_Permutation; auto. lia.
    + rewrite length_insert. lia.
    + rewrite length_insert. lia.
    + intros i x Hi Hne Hx.
      destruct (decide (i = pos)) as [->|Hnp].
      * rewrite list_lookup_insert_eq in Hx by done. injection Hx as <-.
        split; [|intros; pose proof (parent_lt _ Hi); lia]. intros _ p Hl.
        rewrite list_lookup_insert_ne in Hl
          by (pose proof (parent_lt _ Hi); lia).
        destruct (Hh c y ltac:(lia) ltac:(lia) Hy) as [_ H2]. eauto.
      * rewrite list_lookup_insert_ne in Hx by congruence.
        destruct (Hh i x Hi Hnp Hx) as [H1 H2]. split.
        -- intros Hpc p Hl.
           destruct (decide (parent i = pos)) as [E|E].
           ++ rewrite E, list_lookup_insert_eq in Hl by done.
              injection Hl as <-. eauto.
           ++ rewrite list_lookup_insert_ne in Hl by congruence. eauto.
        -- intros Hpc _ p Hl. rewrite Hpar, list_lookup_insert_eq in Hl by done.
           injection Hl as <-. apply H1; [lia|]. by rewrite Hpc.
  - intros [= <- <-]. split; [done|]. split; [done|]. split; [done|].
    split; [|done].
    intros c Hp Hc0. unfold parent in Hp.
    pose proof (Nat.div_mod_eq (c - 1) 2).
    pose proof (Nat.mod_upper_bound (c - 1) 2). lia.
Qed.

Lemma heap_inv_app_l h t : heap_inv (h ++ t) -> heap_inv h.
Proof.
  intros H i x p Hi Hx Hp. apply (H i x p Hi); by apply lookup_app_l_Some.
Qed.

Lemma siftdown_heap h pos :
  (pos < length h)%nat -> hole_inv h pos ->
  (forall c, parent c = pos -> (0 < c)%nat -> (length h <= c)%nat) ->
  heap_inv (_siftdown h 0 pos).
Proof.
  intros Hlen Hh Hleaf. unfold _siftdown.
  destruct (h !! pos) as [newitem|] eqn:E; [|apply lookup_ge_None in E; lia].
  apply siftdown_loop_heap; auto.
  intros c x Hc Hp Hx. apply lookup_lt_Some in Hx.
  specialize (Hleaf c Hp Hc). lia.
Qed.

Lemma siftdown_Permutation h startpos pos : _siftdown h startpos pos ≡ₚ h.
Proof.
  unfold _siftdown. destruct (h !! pos) as [newitem|] eqn:E; [|done].
  rewrite siftdown_loop_Permutation by (eapply lookup_lt_Some; eauto).
  by rewrite list_insert_id.
Qed.

(** [heappush] keeps the heap invariant and adds exactly the new event. *)
Lemma heappush_heap h item : heap_inv h -> heap_inv (heappush h item).
Proof.
  intros H. unfold heappush.
  assert (Hl : (length (h ++ [item]) - 1 = length h)%nat)
    by (rewrite length_app; simpl; lia).
  rewrite Hl. apply siftdown_heap.
  - rewrite length_app; simpl; lia.
  - intros i x Hi Hne Hx.
    assert (Hil : (i < length h)%nat).
    { apply lookup_lt_Some in Hx. rewrite length_app in Hx. simpl in Hx. lia. }
    rewrite lookup_app_l in Hx by done. split.
    + intros _ p Hp.
      rewrite lookup_app_l in Hp by (pose proof (parent_lt i Hi); lia).
      eapply H; eauto.
    + intros Hp. pose proof (parent_lt i Hi). lia.
  - intros c Hp Hc. pose proof (parent_lt c Hc).
    rewrite length_app. simpl. lia.
Qed.

Lemma heappush_Permutation h item : heappush h item ≡ₚ item :: h.
Proof.
  unfold heappush. rewrite siftdown_Permutation.
  by rewrite Permutation_app_comm.
Qed.

Lemma siftup_heap h : hole_inv h 0 -> heap_inv (_siftup h 0).
Proof.
  intros Hh. unfold _siftup.
  destruct (h !! 0%nat) as [newitem|] eqn:E.
  - destruct (_siftup_loop (length h) h (length h) 0) as [h' leaf] eqn:Er.
    destruct (siftup_loop_spec (length h) h 0%nat ltac:(lia)
                (lookup_lt_Some _ _ _ E) Hh _ _ Er) as (H1 & H2 & H3 & H4 & H5).
    apply siftdown_heap.
    + by rewrite length_insert.
    + by apply hole_inv_insert.
    + intros c Hp Hc. rewrite length_insert. auto.
  - destruct h; [|done]. intros i x p _ Hx. done.
Qed.

Lemma siftup_Permutation h : hole_inv h 0 -> _siftup h 0 ≡ₚ h.
Proof.
  intros Hh. unfold _siftup.
  destruct (h !! 0%nat) as [newitem|] eqn:E; [|done].
  destruct (_siftup_loop (length h) h (length h) 0) as [h' leaf] eqn:Er.
  destruct (siftup_loop_spec (length h) h 0%nat ltac:(lia)
              (lookup_lt_Some _ _ _ E) Hh _ _ Er) as (H1 & H2 & H3 & H4 & H5).
  rewrite siftdown_Permutation, H5. by rewrite list_insert_id.
Qed.

Lemma heap_inv_hole_0 h v : heap_inv h -> hole_inv (<[0%nat := v]> h) 0.
Proof.
  intros H i x Hi Hne Hx. rewrite list_lookup_insert_ne in Hx by lia.
  split; [|lia]. intros Hp p Hl.
  rewrite list_lookup_insert_ne in Hl by congruence. eapply H; eauto.
Qed.

(** The first element of a heap has the smallest time stamp. *)
Lemma heap_inv_min h m :
  heap_inv h -> h !! 0%nat = Some m ->
  forall x, x ∈ h -> (time m <= time x)%Q.
Proof.
  intros H Hm x Hx. apply list_elem_of_lookup in Hx as [i Hi].
  revert x Hi. induction (lt_wf i) as [i _ IH]. intros x Hi.
  destruct (decide (i = 0%nat)) as [->|Hne].
  - simplify_eq. lra.
  - assert (Hpl : (parent i < i)%nat) by (apply parent_lt; lia).
    destruct (lookup_lt_is_Some_2 h (parent i)) as [p Hp].
    { apply lookup_lt_Some in Hi. lia. }
    assert (time m <= time p)%Q by eauto.
    assert (time p <= time x)%Q by (eapply (H i); eauto; lia).
    lra.
Qed.

(** [heappop] succeeds on a non-empty list. *)
Lemma heappop_is_Some h : h <> [] -> is_Some (heappop h).
Proof.
  intros Hne. unfold heappop.
  destruct (last h) as [l|] eqn:El.
  - destruct (removelast h); eauto.
  - apply last_None in El. done.
Qed.

(** [heappop] returns the first element, keeps the heap invariant and
    removes exactly the returned event. *)
Lemma heappop_spec h e h' :
  heap_inv h -> heappop h = Some (e, h') ->
  h !! 0%nat = Some e /\ heap_inv h' /\ h ≡ₚ e :: h'.
Proof.
  intros H. unfold heappop.
  destruct (last h) as [l|] eqn:El; [|done].
  apply last_Some in El as [init ->]. rewrite removelast_last.
  destruct init as [|r init].
  - intros [= <- <-]. split; [done|]. split; [|done]. by intros i x p _ Hx.
  - intros [= <- <-]. split; [done|].
    apply heap_inv_app_l in H as H'.
    pose proof (heap_inv_hole_0 _ l H') as Hh. split.
    + apply siftup_heap, Hh.
    + rewrite (siftup_Permutation _ Hh).
      simpl. apply perm_skip. by rewrite Permutation_app_comm.
Qed.

Lemma heappop_min h e h' :
  heap_inv h -> heappop h = Some (e, h') ->
  forall x, x ∈ h' -> (time e <= time x)%Q.
Proof.
  intros H Hpop x Hx. destruct (heappop_spec h e h' H Hpop) as (H0 & _ & Hp).
  eapply heap_inv_min; eauto. rewrite Hp. by right.
Qed.

Lemma heap_inv_nil : heap_inv [].
Proof. by intros i x p _ Hx. Qed.

(** * Invariants of the production line *)

Lemma py_max_ge_l a b : (a <= py_max a b)%Q.
Proof.
  unfold py_max. destruct (Qlt_bool a b) eqn:E.
  - apply Qlt_bool_true in E. lra.
  - lra.
Qed.

Lemma py_index_nonneg (len : nat) (i : Z) :
  0 <= i < Z.of_nat len -> py_index len i = Some (Z.to_nat i).
Proof. intros H. unfold py_index. by rewrite decide_True. Qed.

Lemma occ_sum_cons st sts : occ_sum (st :: sts) = occ st + occ_sum sts.
Proof. reflexivity. Qed.

Lemma occ_nonneg st : 0 <= occ st.
Proof. unfold occ. case_decide; lia. Qed.

Lemma occ_sum_nonneg sts : 0 <= occ_sum sts.
Proof.
  induction sts as [|st sts IH]; simpl; [lia|].
  pose proof (occ_nonneg st). lia.
Qed.

Lemma occ_sum_insert sts i st st' :
  sts !! i = Some st ->
  occ_sum (<[i := st']> sts) = occ_sum sts - occ st + occ st'.
Proof.
  revert i. induction sts as [|a sts IH]; intros [|i] H; simplify_eq/=.
  - lia.
  - rewrite (IH i H). lia.
Qed.

Arguments occ_sum : simpl never.

Lemma update_statistics_state st t : state (update_statistics st t) = state st.
Proof. unfold update_statistics. by destruct (state st) eqn:E. Qed.

Lemma update_statistics_queue st t : queue (update_statistics st t) = queue st.
Proof. unfold update_statistics. by destruct (state st) eqn:E. Qed.

Lemma update_statistics_total_processing_time st t :
  total_processing_time (update_statistics st t) = total_processing_time st.
Proof. unfold update_statistics. by destruct (state st) eqn:E. Qed.

Lemma update_statistics_total_processed st t :
  total_processed (update_statistics st t) = total_processed st.
Proof. unfold update_statistics. by destruct (state st) eqn:E. Qed.

Lemma occ_update_statistics st t : occ (update_statistics st t) = occ st.
Proof. unfold occ. by rewrite update_statistics_state, update_statistics_queue. Qed.

Lemma Books_frame L L' : frame L L' -> Books L -> Books L'.
Proof.
  intros (H1 & H2 & H3 & H4 & H5 & H6 & H7 & H8) [B1 B2 B3 B4 B6 B5].
  constructor; rewrite ?H1, ?H2, ?H3, ?H4, ?H5, ?H6, ?H7; auto.
Qed.

Lemma pe_ok_not_PE L e : event_type e <> PROCESSING_END -> pe_ok L e.
Proof. intros H E. done. Qed.

Lemma pe_station_elem (q : list Event) s e :
  e ∈ q -> event_type e = PROCESSING_END -> ev_station_id e = Some s ->
  s ∈ omap pe_station q.
Proof.
  intros He Ht Hs. apply list_elem_of_omap. exists e. split; [done|].
  unfold pe_station. by rewrite decide_True.
Qed.

Lemma elem_omap_pe_station (q : list Event) s :
  s ∈ omap pe_station q ->
  exists e, e ∈ q /\ event_type e = PROCESSING_END /\ ev_station_id e = Some s.
Proof.
  intros H. apply list_elem_of_omap in H as (e & He & Hs).
  unfold pe_station in Hs. case_decide; [|done]. eauto.
Qed.

Lemma job_known_mono L L' j t :
  job_arrival_times L ⊆ job_arrival_times L' ->
  job_known L j t -> job_known L' j t.
Proof.
  intros Hsub (a & Ha & Hle). exists a. split; [|done].
  eapply lookup_weaken; eauto.
Qed.

(** A pending event stays well described when the admitted jobs only grow
    and its station stays busy, with no unknown job joining the queue. *)
Lemma pe_ok_transfer L L' e :
  job_arrival_times L ⊆ job_arrival_times L' ->
  pe_ok L e ->
  (forall s st, ev_station_id e = Some s -> 0 <= s ->
     stations L !! Z.to_nat s = Some st -> state st <> IDLE ->
     exists st', stations L' !! Z.to_nat s = Some st' /\ state st' <> IDLE /\
       forall k, k ∈ queue st' -> k ∈ queue st \/ job_known L' k (time e)) ->
  pe_ok L' e.
Proof.
  intros Hsub Hok Hst Ht.
  destruct (Hok Ht) as (s & j & st & E1 & E2 & E3 & E4 & E5 & E6 & E7).
  destruct (Hst s st E1 E3 E4 E5) as (st' & F1 & F2 & F3).
  exists s, j, st'. repeat split; try done.
  - destruct E6 as (a & Ha & Hle). exists a. split; [|done].
    eapply lookup_weaken; eauto.
  - intros k Hk. destruct (F3 k Hk) as [Hq|Hq]; [|done].
    eapply job_known_mono; eauto.
Qed.

Section LineFacts.

Variable np_random_gamma : nat -> Q -> Q -> Q.
Variable np_random_exponential : nat -> Q -> Q.

(** [_try_start_processing] on a valid position, for a job admitted by now:
    it returns, keeps the core invariant, touches only the station it is
    called for, leaves that station busy, and adds at most one job to it. *)
Lemma try_start_ok (s j : Z) (L : ProductionLine) :
  Core L -> 0 <= s < num_stations L ->
  job_known L j (clock (simulator L)) ->
  exists L', _try_start_processing np_random_gamma s j L = (Ok tt, L') /\
    Core L' /\ frame L L' /\
    occ_sum (stations L') <= occ_sum (stations L) + 1 /\
    (forall i, i <> Z.to_nat s -> stations L' !! i = stations L !! i) /\
    (exists st', stations L' !! Z.to_nat s = Some st' /\ state st' <> IDLE).
Proof.
  intros HC Hs Hj. destruct HC as [C1 C2 C3 C4 C5 C6 C7 C8 C9].
  unfold _try_start_processing, bind, lookup_station.
  rewrite py_index_nonneg by lia.
  destruct (lookup_lt_is_Some_2 (stations L) (Z.to_nat s) ltac:(lia)) as [st Hst].
  rewrite Hst. cbn beta iota.
  destruct (decide (state st = IDLE)) as [Hidle|Hbusy].
  - unfold gets, store_station, modify, sim_schedule_event.
    cbn beta iota zeta.
    set (st1 := update_statistics _ _).
    assert (Hs1 : state st1 = PROCESSING)
      by (unfold st1; rewrite update_statistics_state; done).
    assert (Hq1 : queue st1 = queue st)
      by (unfold st1; rewrite update_statistics_queue; done).
    assert (Ht1 : total_processing_time st1 = total_processing_time st)
      by (unfold st1; rewrite update_statistics_total_processing_time; done).
    clearbody st1.
    destruct (get_processing_time _ _ _) as [pt g] eqn:Ept.
    cbn beta iota zeta.
    eexists. split; [reflexivity|].
    pose proof (py_max_ge_l 0.001 pt) as Hd.
    assert (Hfresh : forall e, e ∈ event_queue (simulator L) ->
              event_type e = PROCESSING_END -> ev_station_id e <> Some s).
    { intros e He Ht Hes. rewrite Forall_forall in C4.
      destruct (C4 e He Ht) as (s' & j' & st' & E1 & _ & _ & E2 & E3 & _).
      simplify_eq. }
    split; [constructor; cbn|].
    + by rewrite length_insert.
    + done.
    + by apply heappush_heap.
    + rewrite heappush_Permutation. constructor.
      * intros _. exists s, j, st1. cbn.
        rewrite list_lookup_insert_eq by (eapply lookup_lt_Some; eauto).
        repeat split; try done; try lia.
        -- by rewrite Hs1.
        -- destruct Hj as (a & Ha & Hle). exists a. split; [done|]. lra.
        -- intros k Hk. rewrite Hq1 in Hk.
           destruct (C8 _ _ Hst Hidle k Hk) as (a & Ha & Hle).
           exists a. split; [done|]. lra.
      * rewrite Forall_forall in C4 |- *. intros e He.
        apply (pe_ok_transfer L); [done|by apply C4|]. cbn.
        intros s' st' E1 E3 E4 E5. exists st'.
        rewrite list_lookup_insert_ne; [by auto|].
        intros Heq. assert (s = s') by lia. simplify_eq.
    + rewrite heappush_Permutation. cbn. unfold pe_station at 1. cbn.
      constructor; [|done].
      intros Hin. apply elem_omap_pe_station in Hin as (e & He & Ht & Hes).
      by eapply Hfresh.
    + intros i st' Hl. apply list_lookup_insert_Some in Hl as [(<- & <- & _)|[_ Hl]].
      * rewrite Ht1. eauto.
      * eauto.
    + done.
    + intros i st' Hl Hi'.
      apply list_lookup_insert_Some in Hl as [(<- & <- & _)|[_ Hl]];
        [congruence|]. eauto.
    + intros e He Ht. rewrite heappush_Permutation in He.
      apply elem_of_cons in He as [->|He]; [cbn; lra|]. eauto.
    + cbn. split; [done|]. split.
      * rewrite (occ_sum_insert _ _ _ _ Hst). unfold occ.
        rewrite Hs1, Hq1, decide_True, decide_False by done. lia.
      * split; [intros i Hi; by rewrite list_lookup_insert_ne|].
        exists st1. rewrite list_lookup_insert_eq by (eapply lookup_lt_Some; eauto).
        split; [done|]. by rewrite Hs1.
  - destruct (decide (j ∈ queue st)) as [Hin|Hnin]; unfold ret.
    + exists L. split; [done|]. split; [by constructor|]. split; [done|].
      split; [lia|]. split; [done|]. eauto.
    + unfold store_station, modify. eexists. split; [reflexivity|].
      split; [constructor; cbn|].
      * by rewrite length_insert.
      * done.
      * done.
      * rewrite Forall_forall in C4 |- *. intros e He.
        destruct (decide (event_type e = PROCESSING_END)) as [Ht|Ht];
          [|by apply pe_ok_not_PE].
        apply (pe_ok_transfer L); [done|by apply C4|]. cbn.
        intros s' st' E1 E3 E4 E5.
        destruct (decide (s' = s)) as [->|Hne].
        -- exists (set_queue (queue st ++ [j]) st). simplify_eq.
           rewrite list_lookup_insert_eq by (eapply lookup_lt_Some; eauto).
           split; [done|]. split; [done|].
           intros k Hk. cbn in Hk. apply elem_of_app in Hk as [Hk|Hk]; [by left|].
           apply list_elem_of_singleton in Hk as ->. right.
           destruct Hj as (a & Ha & Hle). exists a. split; [done|].
           specialize (C9 e He Ht). lra.
        -- exists st'. rewrite list_lookup_insert_ne by lia. auto.
      * done.
      * intros i st' Hl. apply list_lookup_insert_Some in Hl as [(<- & <- & _)|[_ Hl]];
          cbn; eauto.
      * done.
      * intros i st' Hl Hi'.
        apply list_lookup_insert_Some in Hl as [(<- & <- & _)|[_ Hl]];
          [done|]. eauto.
      * done.
      * cbn. split; [done|]. split.
        -- rewrite (occ_sum_insert _ _ _ _ Hst). unfold occ. cbn.
           rewrite length_app. cbn. lia.
        -- split; [intros i Hi; by rewrite list_lookup_insert_ne|].
           eexists. rewrite list_lookup_insert_eq by (eapply lookup_lt_Some; eauto).
           split; [done|]. done.
Qed.

Lemma pe_ok_ext L L' e :
  stations L' = stations L -> job_arrival_times L' = job_arrival_times L ->
  pe_ok L e -> pe_ok L' e.
Proof.
  intros Hs Ha H. apply (pe_ok_transfer L); [by rewrite Ha|done|].
  intros s st _ _ Hst Hb. exists st. rewrite Hs. auto.
Qed.

(** Admitting the next job keeps what is known about the pending events. *)
Lemma Core_new_job L now :
  Core L -> Books L ->
  Core (set_jobs (entity_counter L + 1) (system_wip L + 1) (completed_jobs L)
          (<[entity_counter L + 1 := now]> (job_arrival_times L))
          (job_completion_times L) L).
Proof.
  intros [C1 C2 C3 C4 C5 C6 C7 C8 C9] [B1 B2 B3 B4 B6 B5].
  assert (Hsub : job_arrival_times L ⊆
            <[entity_counter L + 1 := now]> (job_arrival_times L)).
  { apply insert_subseteq. apply eq_None_not_Some. rewrite B4. lia. }
  constructor; cbn; try done.
  - eapply Forall_impl; [exact C4|]. intros e He.
    apply (pe_ok_transfer L); [done|done|]. cbn.
    intros s st _ _ Hst Hb. exists st. auto.
  - intros i st Hst Hi k Hk. eapply (job_known_mono L); [done|]. eauto.
Qed.

Lemma Books_new_job L now :
  Books L -> system_wip L < conwip_level L ->
  Books (set_jobs (entity_counter L + 1) (system_wip L + 1) (completed_jobs L)
           (<[entity_counter L + 1 := now]> (job_arrival_times L))
           (job_completion_times L) L).
Proof.
  intros [B1 B2 B3 B4 B6 B5] Hcap. constructor; cbn.
  - lia.
  - lia.
  - lia.
  - intros j. rewrite lookup_insert_is_Some, B4. lia.
  - rewrite map_size_insert_None; [lia|].
    apply eq_None_not_Some. rewrite B4. lia.
  - intros j Hj. destruct (B5 j Hj) as (a & c & Ha & Hc & Hle).
    exists a, c. split; [|done].
    rewrite lookup_insert_ne; [done|].
    assert (is_Some (job_arrival_times L !! j)) as Hs by eauto.
    apply B4 in Hs. lia.
Qed.

Lemma handle_arrival_ok (e : Event) (L : ProductionLine) :
  Inv L ->
  exists L', _handle_arrival np_random_gamma e L = (Ok tt, L') /\ Inv L'.
Proof.
  intros [HC HB Hocc Hidle].
  unfold _handle_arrival, bind, gets, modify, ret. cbn beta iota zeta.
  destruct (decide (system_wip L < conwip_level L)) as [Hcap|Hcap];
    [|exists L; split; [done|by constructor]].
  set (now := clock (simulator L)).
  set (L2 := set_jobs _ _ _ _ _ L).
  assert (HC2 : Core L2) by (by apply Core_new_job).
  assert (HB2 : Books L2) by (by apply Books_new_job).
  destruct (try_start_ok 0 (entity_counter L2) L2 HC2) as
    (L3 & Hrun & HC3 & Hfr & Hocc3 & Hoth & st' & Hst' & Hbusy).
  { split; [lia|]. destruct HC. unfold L2. cbn. lia. }
  { exists now. unfold L2, now. split; [|cbn; lra]. cbn. by rewrite lookup_insert_eq. }
  exists L3. split; [exact Hrun|]. constructor.
  - done.
  - by apply (Books_frame L2).
  - destruct Hfr as (_ & _ & _ & -> & _). unfold L2 in *. cbn in *. lia.
  - intros i st Hst Hi.
    destruct (decide (i = Z.to_nat 0)) as [->|Hne]; [congruence|].
    rewrite Hoth in Hst by done. eauto.
Qed.

Lemma drain_queue_ok (s : Z) (st2 : Station) (L : ProductionLine) :
  Core L -> Books L -> occ_sum (stations L) <= system_wip L ->
  0 <= s -> stations L !! Z.to_nat s = Some st2 -> state st2 = IDLE ->
  (forall i st, i <> Z.to_nat s -> stations L !! i = Some st ->
     state st = IDLE -> queue st = []) ->
  exists L', drain_queue np_random_gamma (Z.to_nat s) s L = (Ok tt, L') /\ Inv L'.
Proof.
  intros HC HB Hocc Hs Hst Hidle Hoth.
  unfold drain_queue, bind, gets. cbn beta iota zeta. rewrite Hst.
  destruct (queue st2) as [|k rest] eqn:Hq.
  - exists L. split; [done|]. constructor; try done.
    intros i st Hi Hst'. destruct (decide (i = Z.to_nat s)) as [->|Hne].
    + by simplify_eq.
    + eauto.
  - unfold store_station, modify. cbn beta iota zeta.
    set (L1 := set_stations _ L).
    assert (Hlen : (Z.to_nat s < length (stations L))%nat)
      by (eapply lookup_lt_Some; eauto).
    assert (HC1 : Core L1).
    { destruct HC as [C1 C2 C3 C4 C5 C6 C7 C8 C9].
      constructor; unfold L1; cbn; try done.
      - by rewrite length_insert.
      - eapply Forall_impl; [exact C4|]. intros e He.
        apply (pe_ok_transfer L); [done|done|]. cbn.
        intros s' st' _ Hs' Hst' Hb. exists st'.
        rewrite list_lookup_insert_ne; [by auto|].
        intros Heq. rewrite <- Heq in Hst'. by simplify_eq.
      - intros i st Hl.
        apply list_lookup_insert_Some in Hl as [(<- & <- & _)|[_ Hl]];
          cbn; eauto.
      - intros i st Hl Hi.
        apply list_lookup_insert_Some in Hl as [(<- & <- & _)|[_ Hl]];
          [|by eauto].
        cbn. intros k' Hk'. apply (C8 _ _ Hst Hidle). rewrite Hq. by right. }
    destruct (try_start_ok s k L1 HC1) as
      (L2 & Hrun & HC2 & Hfr & Hocc2 & Hoth2 & st' & Hst' & Hbusy).
    { destruct HC. unfold L1. cbn. lia. }
    { destruct HC as [_ _ _ _ _ _ _ C8 _]. unfold L1. cbn.
      apply (C8 _ _ Hst Hidle). rewrite Hq. by left. }
    exists L2. split; [exact Hrun|]. constructor.
    + done.
    + apply (Books_frame L1); [done|].
      apply (Books_frame L); [|done]. by unfold frame, L1.
    + destruct Hfr as (_ & _ & _ & -> & _). unfold L1 in *. cbn in *.
      rewrite (occ_sum_insert _ _ _ _ Hst) in Hocc2.
      unfold occ in Hocc2. cbn in Hocc2. rewrite Hq, Hidle in Hocc2.
      cbn in Hocc2. lia.
    + intros i st Hi Hsti.
      destruct (decide (i = Z.to_nat s)) as [->|Hne]; [congruence|].
      rewrite Hoth2 in Hi by done. unfold L1 in Hi. cbn in Hi.
      rewrite list_lookup_insert_ne in Hi by done. eauto.
Qed.

(** Recording a completion, and the pull signal after it. *)
Lemma Books_complete L j now :
  Books L -> 1 <= system_wip L -> job_known L j now ->
  Books (set_jobs (entity_counter L) (system_wip L - 1)
           (completed_jobs L ++ [j]) (job_arrival_times L)
           (<[j := now]> (job_completion_times L)) L).
Proof.
  intros [B1 B2 B3 B4 B6 B5] Hw (a & Ha & Hle). constructor; cbn; try done.
  - rewrite length_app. cbn. lia.
  - lia.
  - intros j' Hj'. destruct (decide (j' = j)) as [->|Hne].
    + exists a, now. by rewrite lookup_insert_eq.
    + apply elem_of_app in Hj' as [Hj'|Hj'];
        [|apply list_elem_of_singleton in Hj'; done].
      destruct (B5 j' Hj') as (a' & c' & Ha' & Hc' & Hle').
      exists a', c'. by rewrite lookup_insert_ne.
Qed.

Lemma Core_schedule_arrival L t :
  Core L ->
  Core (set_simulator (schedule_event (simulator L)
          {| time := t; event_type := ARRIVAL;
             ev_station_id := None; ev_entity_id := None |}) L).
Proof.
  intros [C1 C2 C3 C4 C5 C6 C7 C8 C9]. constructor; cbn; try done.
  - by apply heappush_heap.
  - rewrite heappush_Permutation. constructor; [by apply pe_ok_not_PE|].
    eapply Forall_impl; [exact C4|]. intros e. by apply pe_ok_ext.
  - by rewrite heappush_Permutation.
  - intros e He Ht. rewrite heappush_Permutation in He.
    apply elem_of_cons in He as [->|He]; [done|]. eauto.
Qed.

Lemma handle_processing_end_ok (e : Event) (L : ProductionLine) :
  Inv L -> event_type e = PROCESSING_END -> pe_ok L e ->
  clock (simulator L) = time e ->
  (forall s, ev_station_id e = Some s ->
     s ∉ omap pe_station (event_queue (simulator L))) ->
  exists L', _handle_processing_end np_random_gamma e L = (Ok tt, L') /\ Inv L'.
Proof.
  intros [HC HB Hocc Hidle] Ht Hok Hclk Hfresh.
  destruct (Hok Ht) as (s & j & st & E1 & E2 & E3 & E4 & E5 & E6 & E7).
  specialize (Hfresh s E1).
  assert (Hlen : (Z.to_nat s < length (stations L))%nat)
    by (eapply lookup_lt_Some; eauto).
  unfold _handle_processing_end. rewrite E1, E2.
  unfold bind at 1. unfold lookup_station.
  rewrite py_index_nonneg by lia. rewrite E4. cbn beta iota zeta.
  unfold bind at 1. unfold gets at 1. cbn beta iota zeta.
  set (st2 := update_statistics _ _).
  assert (Hs2 : state st2 = IDLE)
    by (unfold st2; rewrite update_statistics_state; done).
  assert (Hq2 : queue st2 = queue st)
    by (unfold st2; rewrite update_statistics_queue; done).
  assert (Ht2 : total_processing_time st2 = total_processing_time st)
    by (unfold st2; rewrite update_statistics_total_processing_time; done).
  clearbody st2.
  unfold bind at 1. unfold store_station at 1. unfold modify at 1.
  cbn beta iota zeta.
  set (L2 := set_stations _ L).
  assert (HC2 : Core L2).
  { destruct HC as [C1 C2 C3 C4 C5 C6 C7 C8 C9].
    constructor; unfold L2; cbn; try done.
    - by rewrite length_insert.
    - rewrite Forall_forall in C4 |- *. intros e' He'.
      destruct (decide (event_type e' = PROCESSING_END)) as [Ht'|Ht'];
        [|by apply pe_ok_not_PE].
      apply (pe_ok_transfer L); [done|by apply C4|]. cbn.
      intros s' st' Hs' Hs0 Hst' Hb. exists st'.
      rewrite list_lookup_insert_ne; [by auto|].
      intros Heq. assert (s' = s) as -> by lia.
      apply Hfresh. by eapply pe_station_elem.
    - intros i st' Hl.
      apply list_lookup_insert_Some in Hl as [(<- & <- & _)|[_ Hl]];
        [rewrite Ht2|]; eauto.
    - intros i st' Hl Hi.
      apply list_lookup_insert_Some in Hl as [(<- & <- & _)|[_ Hl]];
        [|by eauto].
      rewrite Hq2, Hclk. done. }
  assert (HB2 : Books L2) by (apply (Books_frame L); [by unfold frame, L2|done]).
  assert (Hocc2 : occ_sum (stations L2) = occ_sum (stations L) - 1).
  { unfold L2. cbn. rewrite (occ_sum_insert _ _ _ _ E4). unfold occ.
    rewrite Hq2, Hs2, (decide_False (P := state st = IDLE)),
      (decide_True (P := IDLE = IDLE)) by done.
    lia. }
  assert (Hst2 : stations L2 !! Z.to_nat s = Some st2)
    by (unfold L2; cbn; by rewrite list_lookup_insert_eq).
  assert (Hoth2 : forall i st', i <> Z.to_nat s -> stations L2 !! i = Some st' ->
            state st' = IDLE -> queue st' = []).
  { unfold L2. cbn. intros i st' Hne Hl.
    rewrite list_lookup_insert_ne in Hl by done. eauto. }
  assert (Hj2 : job_known L2 j (clock (simulator L2))).
  { unfold L2. cbn. rewrite Hclk. done. }
  pose proof (occ_sum_nonneg (stations L2)) as Hnn.
  unfold bind at 1. unfold gets at 1. cbn beta iota zeta.
  unfold bind at 1.
  assert (Hbranch : exists L3,
    (if decide (s < num_stations L2 - 1)
     then _try_start_processing np_random_gamma (s + 1) j
     else
       modify (fun self =>
         set_jobs (entity_counter self) (system_wip self - 1)
                  (completed_jobs self ++ [j])
                  (job_arrival_times self)
                  (<[j := clock (simulator L)]> (job_completion_times self)) self);;
       let* wip := gets system_wip in
       let* cap := gets conwip_level in
       if decide (wip < cap) then
         sim_schedule_event
           {| time := clock (simulator L); event_type := ARRIVAL;
              ev_station_id := None; ev_entity_id := None |}
       else ret tt) L2 = (Ok tt, L3) /\
    Core L3 /\ Books L3 /\ occ_sum (stations L3) <= system_wip L3 /\
    stations L3 !! Z.to_nat s = Some st2 /\
    (forall i st', i <> Z.to_nat s -> stations L3 !! i = Some st' ->
       state st' = IDLE -> queue st' = [])).
  { destruct (decide (s < num_stations L2 - 1)) as [Hnext|Hlast].
    - destruct (try_start_ok (s + 1) j L2 HC2) as
        (L3 & Hrun & HC3 & Hfr & Hocc3 & Hoth3 & st' & Hst' & Hbusy).
      { lia. }
      { done. }
      exists L3. split; [exact Hrun|]. split; [done|].
      split; [by apply (Books_frame L2)|].
      split.
      { destruct Hfr as (_ & _ & _ & -> & _). unfold L2 in *. cbn in *. lia. }
      split.
      { rewrite Hoth3 by lia. done. }
      intros i sti Hne Hl Hi.
      destruct (decide (i = Z.to_nat (s + 1))) as [->|Hne']; [congruence|].
      rewrite Hoth3 in Hl by done. eauto.
    - unfold bind, modify, gets, ret, sim_schedule_event. cbn beta iota zeta.
      set (L3 := set_jobs _ _ _ _ _ L2).
      assert (HC3 : Core L3).
      { destruct HC2 as [C1 C2 C3 C4 C5 C6 C7 C8 C9].
        constructor; unfold L3; cbn; done. }
      assert (HB3 : Books L3).
      { apply Books_complete; [done| |done]. unfold L2 in *. cbn in *. lia. }
      assert (Hocc3 : occ_sum (stations L3) <= system_wip L3).
      { unfold L3, L2 in *. cbn in *. lia. }
      destruct (decide (system_wip L3 < conwip_level L3)).
      + eexists. split; [reflexivity|].
        split; [by apply Core_schedule_arrival|].
        split; [apply (Books_frame L3); [by unfold frame|done]|].
        done.
      + exists L3. done. }
  destruct Hbranch as (L3 & Hrun & HC3 & HB3 & Hocc3 & Hst3 & Hoth3).
  rewrite Hrun.
  destruct (drain_queue_ok s st2 L3 HC3 HB3 Hocc3 E3 Hst3 Hs2 Hoth3)
    as (L4 & Hd & HI).
  exists L4. split; [exact Hd|done].
Qed.

(** Taking the next event off the queue and moving the clock to it. *)
Lemma Inv_pop (L : ProductionLine) (e : Event) (rest : list Event) :
  Inv L -> heapq.heappop (event_queue (simulator L)) = Some (e, rest) ->
  let L1 := set_simulator
              (set_clock (time e) (set_event_queue rest (simulator L))) L in
  Inv L1 /\ pe_ok L1 e /\
  (forall s, ev_station_id e = Some s -> event_type e = PROCESSING_END ->
     s ∉ omap pe_station rest).
Proof.
  intros [[C1 C2 C3 C4 C5 C6 C7 C8 C9] HB Hocc Hidle] Hpop L1.
  destruct (heappop_spec _ _ _ C3 Hpop) as (_ & Hheap & Hperm).
  pose proof (heappop_min _ _ _ C3 Hpop) as Hmin.
  rewrite Hperm in C4, C5. apply Forall_cons in C4 as [Hoke C4].
  split; [constructor; [constructor| | |]; unfold L1; cbn; try done|].
  - cbn in C5. unfold pe_station at 1 in C5.
    destruct (decide (event_type e = PROCESSING_END)); [|done].
    destruct (ev_station_id e); [|done]. by apply NoDup_cons in C5 as [_ C5].
  - intros i st Hst Hi k Hk. rewrite (Hidle _ _ Hst Hi) in Hk.
    by apply elem_of_nil in Hk.
  - intros e' He' _. auto.
  - by destruct HB.
  - split; [done|]. intros s Hs Ht. cbn in C5. unfold pe_station at 1 in C5.
    rewrite decide_True, Hs in C5 by done.
    by apply NoDup_cons in C5 as [C5 _].
Qed.

Lemma Inv_schedule_arrival L t :
  Inv L ->
  Inv (set_simulator (schedule_event (simulator L)
         {| time := t; event_type := ARRIVAL;
            ev_station_id := None; ev_entity_id := None |}) L).
Proof.
  intros [HC HB Hocc Hidle]. constructor; try done.
  - by apply Core_schedule_arrival.
  - by destruct HB.
Qed.

Lemma Inv_set_np_random L g : Inv L -> Inv (set_np_random g L).
Proof.
  intros [[C1 C2 C3 C4 C5 C6 C7 C8 C9] HB Hocc Hidle].
  constructor; [constructor| | |]; try done. by destruct HB.
Qed.

Lemma Inv_set_stats L v :
  Inv L -> Inv (set_simulator (set_stats v (simulator L)) L).
Proof.
  intros [[C1 C2 C3 C4 C5 C6 C7 C8 C9] HB Hocc Hidle].
  constructor; [constructor| | |]; try done. by destruct HB.
Qed.

(** One turn of the run loop returns and keeps the invariant. *)
Lemma run_iteration_ok (max_time : option Q) (max_events : option Z)
    (L : ProductionLine) :
  Inv L ->
  exists b L', run_iteration np_random_gamma max_time max_events L = (Ok b, L')
    /\ Inv L'.
Proof.
  intros HI. unfold run_iteration.
  unfold bind at 1. unfold gets at 1. cbn beta iota zeta.
  destruct (event_queue (simulator L)) as [|e0 q0] eqn:Hq;
    [by exists false, L|].
  destruct (match max_time with Some _ => _ | None => _ end);
    [by exists false, L|].
  destruct (match max_events with Some _ => _ | None => _ end);
    [by exists false, L|].
  rewrite <- Hq.
  destruct (heappop_is_Some (event_queue (simulator L))) as [[e rest] Hpop];
    [by rewrite Hq|].
  rewrite Hpop.
  destruct (Inv_pop L e rest HI Hpop) as (HI1 & Hoke & Hfresh).
  unfold bind at 1. unfold modify at 1. cbn beta iota zeta.
  set (L1 := set_simulator _ L) in *.
  destruct HI as [[_ _ _ _ _ _ C7 _ _] _ _ _]. rewrite (C7 (event_type e)).
  assert (Hh : exists L2,
    match event_type e with
    | ARRIVAL => Some Handle_arrival
    | PROCESSING_END => Some Handle_processing_end
    | _ => None
    end = match event_type e with
    | ARRIVAL => Some Handle_arrival
    | PROCESSING_END => Some Handle_processing_end
    | _ => None
    end /\
    match match event_type e with
          | ARRIVAL => Some Handle_arrival
          | PROCESSING_END => Some Handle_processing_end
          | _ => None
          end with
    | Some h => call_handler np_random_gamma h e
    | None => ret tt
    end L1 = (Ok tt, L2) /\ Inv L2).
  { destruct (event_type e) eqn:Ht.
    - destruct (handle_arrival_ok e L1 HI1) as (L2 & Hrun & HI2). eauto.
    - exists L1. done.
    - destruct (handle_processing_end_ok e L1 HI1 Ht Hoke) as (L2 & Hrun & HI2);
        [done| |by eauto].
      intros s Hs. unfold L1. cbn. by apply Hfresh.
    - exists L1. done. }
  destruct Hh as (L2 & _ & Hrun & HI2).
  unfold bind at 1. rewrite Hrun.
  unfold bind, modify, ret. cbn beta iota zeta.
  eexists true, _. split; [reflexivity|]. by apply Inv_set_stats.
Qed.

Lemma occ_sum_same_shape sts sts' :
  Forall2 same_shape sts sts' -> occ_sum sts' = occ_sum sts.
Proof.
  unfold occ_sum. induction 1 as [|st st' sts sts' (H1 & H2 & H3) _ IH];
    [done|].
  cbn. rewrite IH. unfold occ. by rewrite H1, H2.
Qed.

Lemma Inv_same_shape L sts' :
  Forall2 same_shape (stations L) sts' -> Inv L -> Inv (set_stations sts' L).
Proof.
  intros HF [[C1 C2 C3 C4 C5 C6 C7 C8 C9] HB Hocc Hidle].
  constructor; [constructor| | |]; cbn; try done.
  - by rewrite <- (Forall2_length _ _ _ HF).
  - eapply Forall_impl; [exact C4|]. intros e He.
    apply (pe_ok_transfer L); [done|done|]. cbn.
    intros s st _ _ Hst Hb.
    destruct (Forall2_lookup_l _ _ _ _ _ HF Hst) as (st' & Hst' & H1 & H2 & H3).
    exists st'. rewrite H1, H2. auto.
  - intros i st' Hst'.
    destruct (Forall2_lookup_r _ _ _ _ _ HF Hst') as (st & Hst & H1 & H2 & H3).
    rewrite H3. eauto.
  - intros i st' Hst' Hi k Hk.
    destruct (Forall2_lookup_r _ _ _ _ _ HF Hst') as (st & Hst & H1 & H2 & H3).
    rewrite H1 in Hi. rewrite H2 in Hk.
    destruct (C8 _ _ Hst Hi k Hk) as (a & Ha & Hle). by exists a.
  - by destruct HB.
  - by rewrite (occ_sum_same_shape _ _ HF).
  - intros i st' Hst' Hi.
    destruct (Forall2_lookup_r _ _ _ _ _ HF Hst') as (st & Hst & H1 & H2 & H3).
    rewrite H1 in Hi. rewrite H2. eauto.
Qed.

Lemma same_shape_update_statistics st t : same_shape st (update_statistics st t).
Proof.
  unfold same_shape.
  by rewrite update_statistics_state, update_statistics_queue,
    update_statistics_total_processing_time.
Qed.

Lemma Forall2_same_shape_map (f : Station -> Station) sts :
  (forall st, same_shape st (f st)) -> Forall2 same_shape sts (map f sts).
Proof. intros H. induction sts; constructor; auto. Qed.

Lemma Forall2_same_shape_insert sts i st st' :
  sts !! i = Some st -> same_shape st st' ->
  Forall2 same_shape sts (<[i := st']> sts).
Proof.
  intros Hst Hs. apply Forall2_same_length_lookup_2;
    [by rewrite length_insert|].
  intros k x y Hx Hy. destruct (decide (i = k)) as [->|Hne].
  - rewrite list_lookup_insert_eq in Hy by (eapply lookup_lt_Some; eauto).
    by simplify_eq.
  - rewrite list_lookup_insert_ne in Hy by done. by simplify_eq.
Qed.

Lemma get_statistics_ok (warmup_period : Q) (L : ProductionLine) :
  Inv L ->
  exists st L', get_statistics warmup_period L = (Ok st, L') /\ Inv L'.
Proof.
  intros HI. unfold get_statistics, bind, gets, modify, ret.
  cbn beta iota zeta. eexists _, _. split; [reflexivity|].
  cbn [stations set_stations simulator clock].
  rewrite !map_map.
  apply (Inv_same_shape L); [|done].
  apply Forall2_same_shape_map. intros st.
  unfold station_stat, get_utilization.
  destruct (Qlt_bool 0 (clock (simulator L))); cbn;
    unfold same_shape;
    by rewrite !update_statistics_state, !update_statistics_queue,
      !update_statistics_total_processing_time.
Qed.

Lemma update_parameters_Inv station_id mean cv (L L' : ProductionLine) :
  Inv L -> update_parameters station_id mean cv L = (Ok tt, L') -> Inv L'.
Proof.
  intros HI. unfold update_parameters, bind, lookup_station.
  destruct (py_index _ _) as [i|]; [|done].
  destruct (stations L !! i) as [st|] eqn:Hst; [|done].
  unfold store_station, modify. cbn beta iota zeta. intros [= <-].
  apply (Inv_same_shape L); [|done].
  eapply Forall2_same_shape_insert; [done|].
  by destruct mean, cv.
Qed.

Lemma reset_Inv (L : ProductionLine) : Inv L -> Inv (snd (reset L)).
Proof.
  intros [[C1 C2 C3 C4 C5 C6 C7 C8 C9] HB Hocc Hidle].
  assert (Hst : forall i st, map reset_station (stations L) !! i = Some st ->
            exists st0, st = reset_station st0).
  { intros i st Hst. apply list_lookup_fmap_Some in Hst as (st0 & -> & _). eauto. }
  constructor; [constructor|constructor| |]; cbn; try done.
  - by rewrite length_map.
  - constructor.
  - intros i st Hl. by destruct (Hst i st Hl) as (st0 & ->).
  - intros i st Hl _ k Hk. destruct (Hst i st Hl) as (st0 & ->).
    by apply elem_of_nil in Hk.
  - intros e He. by apply elem_of_nil in He.
  - destruct HB. pose proof (occ_sum_nonneg (stations L)). lia.
  - intros j. rewrite lookup_empty. split; [by intros []|lia].
  - intros j Hj. by apply elem_of_nil in Hj.
  - clear. induction (stations L) as [|st sts IH]; [done|].
    rewrite map_cons, occ_sum_cons.
    replace (occ (reset_station st)) with 0 by reflexivity. lia.
  - intros i st Hl _. by destruct (Hst i st Hl) as (st0 & ->).
Qed.

Lemma generate_arrivals_body_Inv duration current_time t (L L' : ProductionLine) :
  Inv L ->
  generate_arrivals_body np_random_exponential duration current_time L
    = (Ok t, L') ->
  Inv L'.
Proof.
  intros HI. unfold generate_arrivals_body, bind, gets, modify, ret, raise.
  cbn beta iota zeta.
  destruct (Qeq_bool _ 0); [done|].
  destruct (Qlt_bool _ duration); unfold sim_schedule_event, modify;
    cbn beta iota zeta; intros H; inversion H; subst.
  - by apply (Inv_schedule_arrival (set_np_random _ L)), Inv_set_np_random.
  - by apply Inv_set_np_random.
Qed.

End LineFacts.

Lemma build_stations_spec positions means cvs sts :
  build_stations positions means cvs = Ok sts ->
  length sts = length positions /\
  Forall (fun st => state st = IDLE /\ queue st = [] /\
                    total_processing_time st = 0%Q) sts.
Proof.
  revert sts. induction positions as [|i rest IH]; intros sts; cbn.
  - intros [= <-]. by split.
  - destruct (py_getitem means i); [|done]. cbn.
    destruct (py_getitem cvs i); [|done]. cbn.
    destruct (build_stations rest means cvs) as [tl|]; [|done]. cbn.
    intros [= <-]. destruct (IH tl eq_refl) as [Hl HF].
    split; [cbn; by rewrite Hl|]. by constructor.
Qed.

Lemma init_Inv n c means cvs rate cva seed L :
  1 <= n -> 0 <= c ->
  ProductionLine__init__ n c means cvs rate cva seed = Ok L -> Inv L.
Proof.
  intros Hn Hc. unfold ProductionLine__init__.
  destruct (build_stations _ _ _) as [sts|] eqn:Hb; [|done]. cbn.
  intros [= <-]. apply build_stations_spec in Hb as [Hlen HF].
  rewrite length_seqZ in Hlen. rewrite Forall_lookup in HF.
  assert (Hocc : occ_sum sts = 0).
  { clear Hlen. induction sts as [|st sts IH]; [done|].
    rewrite occ_sum_cons, IH.
    - destruct (HF 0%nat st eq_refl) as (H1 & H2 & _).
      unfold occ. rewrite H1, H2. done.
    - intros i x Hx. apply (HF (S i)). done. }
  constructor; [constructor|constructor| |]; cbn; try done.
  - lia.
  - constructor.
  - intros i st Hst. by destruct (HF i st Hst) as (_ & _ & ?).
  - intros t. by destruct t.
  - intros i st Hst _ k Hk. destruct (HF i st Hst) as (_ & H2 & _).
    rewrite H2 in Hk. by apply elem_of_nil in Hk.
  - intros e He. by apply elem_of_nil in He.
  - intros j. rewrite lookup_empty. split; [by intros []|lia].
  - intros j Hj. by apply elem_of_nil in Hj.
  - lia.
  - intros i st Hst _. by destruct (HF i st Hst) as (_ & ? & _).
Qed.

Section Reachability.

Variable np_random_gamma : nat -> Q -> Q -> Q.
Variable np_random_exponential : nat -> Q -> Q.

Lemma reachable_Inv L : reachable np_random_gamma np_random_exponential L -> Inv L.
Proof.
  induction 1 as [n c means cvs rate cva seed L (Hn & Hc & _) Hinit
                 |L d t t' L' _ IH Hrun
                 |L mt me b L' _ IH Hrun
                 |L w st L' _ IH Hrun
                 |L sid m cv L' _ IH Hrun
                 |L _ IH].
  - eapply init_Inv; [| |exact Hinit]; lia.
  - eapply generate_arrivals_body_Inv; eauto.
  - destruct (run_iteration_ok np_random_gamma mt me L IH) as (b' & L2 & Hr & HI).
    rewrite Hr in Hrun. by simplify_eq.
  - destruct (get_statistics_ok w L IH) as (st' & L2 & Hr & HI).
    rewrite Hr in Hrun. by simplify_eq.
  - eapply update_parameters_Inv; eauto.
  - by apply reset_Inv.
Qed.

(** The loops of the engine stay within the reachable states. *)
Lemma sim_run_reachable fuel max_time max_events : forall L r L',
  reachable np_random_gamma np_random_exponential L ->
  sim_run np_random_gamma fuel max_time max_events L = (r, L') ->
  reachable np_random_gamma np_random_exponential L'.
Proof.
  induction fuel as [|fuel IH]; intros L r L' HL; cbn [sim_run].
  - unfold ret. by intros [= _ <-].
  - unfold bind at 1.
    destruct (run_iteration_ok np_random_gamma max_time max_events L
                (reachable_Inv L HL)) as (b & L1 & Hr & _).
    rewrite Hr. pose proof (reach_dispatch _ _ _ _ _ _ _ HL Hr) as HL1.
    destruct b; [by apply IH|]. unfold ret. by intros [= _ <-].
Qed.

Lemma generate_arrivals_body_result duration t L :
  (exists t' L', generate_arrivals_body np_random_exponential duration t L
     = (Ok t', L')) \/
  generate_arrivals_body np_random_exponential duration t L
     = (Raise ZeroDivisionError, L).
Proof.
  unfold generate_arrivals_body, bind, gets, modify, ret, raise.
  cbn beta iota zeta.
  destruct (Qeq_bool _ 0); [by right|]. left.
  destruct (Qlt_bool _ duration); unfold sim_schedule_event, modify;
    cbn beta iota zeta; eauto.
Qed.

Lemma generate_arrivals_loop_reachable fuel duration : forall t L r L',
  reachable np_random_gamma np_random_exponential L ->
  generate_arrivals_loop np_random_exponential fuel duration t L = (r, L') ->
  reachable np_random_gamma np_random_exponential L'.
Proof.
  induction fuel as [|fuel IH]; intros t L r L' HL;
    cbn [generate_arrivals_loop].
  - unfold ret. by intros [= _ <-].
  - destruct (Qlt_bool t duration); [|unfold ret; by intros [= _ <-]].
    unfold bind at 1.
    destruct (generate_arrivals_body_result duration t L)
      as [(t' & L1 & Hr)|Hr]; rewrite Hr.
    + apply IH. by eapply reach_generate.
    + by intros [= _ <-].
Qed.

Lemma run_reachable fuel_arrivals fuel_events duration warmup L r L' :
  reachable np_random_gamma np_random_exponential L ->
  run np_random_gamma np_random_exponential fuel_arrivals fuel_events
      duration warmup L = (r, L') ->
  reachable np_random_gamma np_random_exponential L'.
Proof.
  intros HL. unfold run. unfold bind at 1. unfold generate_arrivals.
  destruct (generate_arrivals_loop _ _ _ _ L) as [[g|e] L1] eqn:Hg;
    pose proof (generate_arrivals_loop_reachable _ _ _ _ _ _ HL Hg) as HL1;
    [|by intros [= _ <-]].
  destruct g; [|unfold ret; by intros [= _ <-]].
  unfold bind at 1.
  destruct (sim_run _ _ _ _ L1) as [[f|e] L2] eqn:Hs;
    pose proof (sim_run_reachable _ _ _ _ _ _ HL1 Hs) as HL2;
    [|by intros [= _ <-]].
  destruct f; [|unfold ret; by intros [= _ <-]].
  unfold bind at 1.
  destruct (get_statistics_ok warmup L2 (reachable_Inv _ HL2))
    as (st & L3 & Hst & _).
  rewrite Hst. unfold ret. intros [= _ <-]. by eapply reach_statistics.
Qed.

End Reachability.

(** * The claims of the specification *)

(** ** Event ordering (C1) *)

Lemma queue_built_heap q : queue_built q -> heap_inv q.
Proof.
  induction 1 as [|sim event _ IH|q event rest _ IH Hpop].
  - apply heap_inv_nil.
  - by apply heappush_heap.
  - by destruct (heappop_spec _ _ _ IH Hpop) as (_ & ? & _).
Qed.

(** C1, counterexample: four events with identical time stamps are
    scheduled in the order 1, 2, 3, 4.  The second pop returns event 3 while
    event 2, scheduled before it with the same time, is still queued: ties
    are not dispatched in insertion order. *)
Lemma C1_ties_not_fifo :
  time (tie 2) = time (tie 3) /\
  exists q1 q2,
    heapq.heappop (event_queue four_ties) = Some (tie 1, q1) /\
    heapq.heappop q1 = Some (tie 3, q2) /\
    tie 2 ∈ q2.
Proof.
  split; [reflexivity|].
  exists [tie 3; tie 2; tie 4], [tie 2; tie 4].
  split; [reflexivity|]. split; [reflexivity|]. by left.
Qed.

(** C1, amended: the event that the run loop pops has the smallest time
    stamp of the queue, whatever was scheduled and popped before; nothing is
    promised about the order of events with equal time stamps. *)
Theorem C1_pop_earliest (q : list Event) (event : Event) (rest : list Event) :
  queue_built q ->
  heapq.heappop q = Some (event, rest) ->
  q ≡ₚ event :: rest /\
  forall other, other ∈ rest -> (time event <= time other)%Q.
Proof.
  intros Hq Hpop. apply queue_built_heap in Hq.
  split.
  - by destruct (heappop_spec _ _ _ Hq Hpop) as (_ & _ & ?).
  - by eapply heappop_min.
Qed.

(** The queue of the four ties and its first pop. *)
Lemma C1_pop_earliest_witness :
  event_queue four_ties ≡ₚ tie 1 :: [tie 3; tie 2; tie 4] /\
  forall other, other ∈ [tie 3; tie 2; tie 4] -> (time (tie 1) <= time other)%Q.
Proof.
  apply (C1_pop_earliest (event_queue four_ties) (tie 1) [tie 3; tie 2; tie 4]).
  - unfold four_ties. repeat apply built_schedule. apply built_new.
  - reflexivity.
Defined.

(** ** Concrete lines used as inputs *)

Lemma single_station_line_init mean cv :
  ProductionLine__init__ 1 1 (Some [mean]) (Some [cv]) 10 1 0
  = Ok (single_station_line mean cv).
Proof. reflexivity. Qed.

(** ** Time-weighted statistics (C2) *)

(** C2, evaluated on the code: a station with service time 1 is idle during
    [0, 2), takes the job that arrives at time 2 and finishes it at time 3.
    [_try_start_processing] assigns [state] before it calls
    [update_statistics], so the two idle time units are added to no counter;
    [_handle_processing_end] assigns [IDLE] before the call, so the time
    unit spent processing is added to [total_idle_time]. *)
Theorem C2_processing_time_counted_as_idle :
  let L1 := with_arrival 2 (single_station_line 1 0) in
  let L2 := dispatch L1 in
  let L3 := dispatch L2 in
  (exists st, stations L1 = [st] /\ state st = IDLE /\
              (total_idle_time st == 0)%Q) /\
  (exists st, stations L2 = [st] /\ state st = PROCESSING /\
              (clock (simulator L2) == 2)%Q /\ (total_idle_time st == 0)%Q) /\
  (exists st, stations L3 = [st] /\ state st = IDLE /\
              (clock (simulator L3) == 3)%Q /\ (total_idle_time st == 1)%Q).
Proof.
  cbv zeta. split; [|split]; eexists; (split; [vm_compute; reflexivity|]);
    repeat split; vm_compute; reflexivity.
Qed.

Lemma eq_pair_fst_snd {A B} (p : A * B) (a : A) : fst p = a -> p = (a, snd p).
Proof. destruct p. cbn. by intros ->. Qed.

(** The state [after_one_job] is reachable: the construction is valid, and
    each of the three steps is evaluated. *)
Ltac after_one_job_is_reachable :=
  unfold after_one_job, dispatch;
  eapply reach_dispatch with (b := true);
    [eapply reach_dispatch with (b := true);
      [eapply reach_generate with (L := single_station_line 1 0) (t' := 1%Q);
        [eapply reach_init; [|apply single_station_line_init];
         split; [lia|]; split; [lia|]; split; [reflexivity|]; split;
           (let l := fresh "l" in let H := fresh "H" in
            intros l H; injection H as <-);
           [split; [reflexivity|]|]; repeat constructor; done
        |]|]|];
    apply eq_pair_fst_snd; vm_compute; reflexivity.

(** ** WIP conservation (C3) *)

(** C3: in every reachable state, so at every dispatch boundary of every
    run on a valid configuration, [system_wip] is the number of admitted
    jobs (the job counter, which is also the number of recorded arrival
    times) minus the number of completed jobs, it lies between [0] and
    [conwip_level], and with [conwip_level = 1] at most one job is in the
    system, counting those held by the stations. *)
Theorem C3_wip_conservation
    (np_random_gamma : nat -> Q -> Q -> Q)
    (np_random_exponential : nat -> Q -> Q) (L : ProductionLine) :
  reachable np_random_gamma np_random_exponential L ->
  Z.of_nat (size (job_arrival_times L)) = entity_counter L /\
  system_wip L = entity_counter L - Z.of_nat (length (completed_jobs L)) /\
  0 <= system_wip L <= conwip_level L /\
  (conwip_level L = 1 -> system_wip L <= 1 /\ occ_sum (stations L) <= 1).
Proof.
  intros HL. apply reachable_Inv in HL as [_ [B1 B2 B3 B4 B5 B6] Hocc _].
  pose proof (occ_sum_nonneg (stations L)).
  split; [done|]. split; [done|]. split; [lia|]. lia.
Qed.

(** The state after one completed job. *)
Lemma C3_wip_conservation_witness :
  Z.of_nat (size (job_arrival_times after_one_job))
    = entity_counter after_one_job /\
  system_wip after_one_job
    = entity_counter after_one_job
      - Z.of_nat (length (completed_jobs after_one_job)) /\
  0 <= system_wip after_one_job <= conwip_level after_one_job /\
  (conwip_level after_one_job = 1 ->
   system_wip after_one_job <= 1 /\ occ_sum (stations after_one_job) <= 1).
Proof.
  apply (C3_wip_conservation draw_one exponential_one after_one_job).
  after_one_job_is_reachable.
Defined.

(** ** Little's law in the statistics (C6) *)

Lemma Qsum_nonneg l : Forall (fun c => (0 <= c)%Q) l -> (0 <= Qsum l)%Q.
Proof.
  unfold Qsum. induction 1 as [|c l Hc _ IH]; cbn [fold_right]; lra.
Qed.

Lemma np_mean_nonneg l :
  l <> [] -> Forall (fun c => (0 <= c)%Q) l -> (0 <= np_mean l)%Q.
Proof.
  intros Hne HF. unfold np_mean. apply Qle_shift_div_l.
  - destruct l; [done|]. cbn [length].
    change 0%Q with (inject_Z 0). rewrite <- Zlt_Qlt. lia.
  - pose proof (Qsum_nonneg l HF). lra.
Qed.

Lemma collect_cycle_times_nonneg completed arrivals completions warmup :
  (forall j, j ∈ completed -> exists a c,
     arrivals !! j = Some a /\ completions !! j = Some c /\ (a <= c)%Q) ->
  Forall (fun c => (0 <= c)%Q)
    (collect_cycle_times completed arrivals completions warmup).
Proof.
  induction completed as [|j rest IH]; intros H; cbn; [constructor|].
  assert (IH' := IH (fun j' Hj' => H j' (list_elem_of_further _ _ _ Hj'))).
  destruct (H j) as (a & c & -> & -> & Hle); [by left|].
  destruct (Qle_bool warmup a); [|done]. constructor; [lra|done].
Qed.

(** C6: for every reachable state and every warm-up period, the record
    returned by [get_statistics] has [avg_wip] equal to
    [throughput * avg_cycle_time], hence within [1e-9] of it; when no job is
    counted both sides are [0]. *)
Theorem C6_littles_law
    (np_random_gamma : nat -> Q -> Q -> Q)
    (np_random_exponential : nat -> Q -> Q)
    (L : ProductionLine) (warmup_period : Q) (st : Statistics)
    (L' : ProductionLine) :
  reachable np_random_gamma np_random_exponential L ->
  get_statistics warmup_period L = (Ok st, L') ->
  (avg_wip st == throughput st * avg_cycle_time st)%Q /\
  (Qabs (avg_wip st - throughput st * avg_cycle_time st) <= 1 # 1000000000)%Q /\
  (total_completed st = 0 ->
   (avg_wip st == 0)%Q /\ (throughput st * avg_cycle_time st == 0)%Q).
Proof.
  intros HL. apply reachable_Inv in HL as [_ [_ _ _ _ _ B6] _ _].
  unfold get_statistics, bind, gets, modify, ret. cbn beta iota zeta.
  intros [= <- _]. cbn [avg_wip throughput avg_cycle_time total_completed].
  cbn [job_arrival_times job_completion_times completed_jobs set_stations].
  pose proof (collect_cycle_times_nonneg _ _ _ warmup_period B6) as HF.
  set (cycle_times := collect_cycle_times _ _ _ _) in *.
  set (act := match cycle_times with [] => 0%Q | _ :: _ => np_mean cycle_times end).
  set (th := if Qlt_bool 0 (_ - _) then _ else 0%Q).
  assert (Hact : (0 <= act)%Q).
  { unfold act. destruct cycle_times as [|c l] eqn:E; [lra|].
    rewrite <- E in *. apply np_mean_nonneg; [by rewrite E|done]. }
  assert (Heq : ((if Qlt_bool 0 act then th * act else 0) == th * act)%Q).
  { destruct (Qlt_bool 0 act) eqn:E; [reflexivity|].
    apply Qlt_bool_false in E. assert (act == 0)%Q as -> by lra. ring. }
  split; [exact Heq|]. split.
  - set (w := if Qlt_bool 0 act then _ else _) in *.
    assert (Hz : (w - th * act == 0)%Q) by (rewrite Heq; ring).
    rewrite Hz. done.
  - intros Hz. destruct cycle_times as [|c l] eqn:E; [|done].
    unfold act. cbn. split; [reflexivity|ring].
Qed.

(** The statistics of the line after one completed job. *)
Lemma C6_littles_law_witness :
  let st := {| throughput := 1 # 2; avg_cycle_time := 1; avg_wip := 1 # 2;
               total_completed := 1;
               station_stats :=
                 [{| ss_station_id := 0; ss_name := "Station 1";
                     utilization := 1 # 2; ss_total_processed := 1;
                     avg_processing_time := 0 |}];
               simulation_time := 2 |} in
  (avg_wip st == throughput st * avg_cycle_time st)%Q /\
  (Qabs (avg_wip st - throughput st * avg_cycle_time st) <= 1 # 1000000000)%Q /\
  (total_completed st = 0 ->
   (avg_wip st == 0)%Q /\ (throughput st * avg_cycle_time st == 0)%Q).
Proof.
  apply (C6_littles_law draw_one exponential_one after_one_job 0 _
           (snd (get_statistics 0 after_one_job))).
  - after_one_job_is_reachable.
  - vm_compute. reflexivity.
Defined.

(** ** The processing-time average of the station statistics (C10) *)

(** C10: in every reachable state no station has a non-zero
    [total_processing_time], and every [avg_processing_time] that
    [get_statistics] returns is [0]. *)
Theorem C10_avg_processing_time_zero
    (np_random_gamma : nat -> Q -> Q -> Q)
    (np_random_exponential : nat -> Q -> Q)
    (L : ProductionLine) (warmup_period : Q) (st : Statistics)
    (L' : ProductionLine) :
  reachable np_random_gamma np_random_exponential L ->
  get_statistics warmup_period L = (Ok st, L') ->
  Forall (fun s => total_processing_time s = 0%Q) (stations L) /\
  length (station_stats st) = length (stations L) /\
  Forall (fun ss => (avg_processing_time ss == 0)%Q) (station_stats st).
Proof.
  intros HL. apply reachable_Inv in HL as [[_ _ _ _ _ C6 _ _ _] _ _ _].
  assert (HF : Forall (fun s => total_processing_time s = 0%Q) (stations L))
    by (apply Forall_lookup; exact C6).
  unfold get_statistics, bind, gets, modify, ret. cbn beta iota zeta.
  intros [= <- _]. cbn [station_stats stations set_stations].
  split; [done|]. split; [by rewrite !length_map|].
  rewrite !Forall_map. eapply Forall_impl; [exact HF|].
  intros s Hs. unfold station_stat, get_utilization.
  destruct (Qlt_bool 0 _); cbn [fst avg_processing_time];
    rewrite !update_statistics_total_processing_time, Hs;
    destruct (decide _); reflexivity.
Qed.

(** The station statistics of the line after one completed job. *)
Lemma C10_avg_processing_time_zero_witness :
  Forall (fun s => total_processing_time s = 0%Q) (stations after_one_job) /\
  length (station_stats (mkStatistics (1 # 2) 1 (1 # 2) 1
            [mkStationStats 0 "Station 1" (1 # 2) 1 0] 2))
    = length (stations after_one_job) /\
  Forall (fun ss => (avg_processing_time ss == 0)%Q)
    (station_stats (mkStatistics (1 # 2) 1 (1 # 2) 1
       [mkStationStats 0 "Station 1" (1 # 2) 1 0] 2)).
Proof.
  apply (C10_avg_processing_time_zero draw_one exponential_one
           after_one_job 0 _ (snd (get_statistics 0 after_one_job))).
  - after_one_job_is_reachable.
  - vm_compute. reflexivity.
Defined.

(** ** The time bound of the run loop (C4) *)

(** C4, counterexample: with [max_time = 3] and one event at time 5 in the
    queue, the bound is checked while the clock is still 0, the event is
    popped, and the run ends with the clock at 5. *)
Lemma C4_clock_overshoots :
  let L := with_arrival 5 (single_station_line 1 0) in
  let r := sim_run draw_one 10 (Some 3%Q) None L in
  fst r = Ok true /\
  (clock (simulator (snd r)) == 5)%Q /\
  (3 < clock (simulator (snd r)))%Q.
Proof. cbv zeta. repeat split; vm_compute; reflexivity. Qed.

(** C4, amended: the bound is checked before each pop.  A turn of the loop
    either finds the clock still below [max_time], or it stops the loop and
    leaves the line as it is; the clock itself is then set to the time of
    the popped event, whatever [max_time] is. *)
Theorem C4_bound_checked_before_pop
    (np_random_gamma : nat -> Q -> Q -> Q)
    (max_time : Q) (max_events : option Z)
    (L : ProductionLine) (r : Result bool) (L' : ProductionLine) :
  run_iteration np_random_gamma (Some max_time) max_events L = (r, L') ->
  (clock (simulator L) < max_time)%Q \/ (r = Ok false /\ L' = L).
Proof.
  unfold run_iteration. unfold bind at 1. unfold gets at 1.
  cbn beta iota zeta.
  destruct (event_queue (simulator L)) as [|e q];
    [unfold ret; intros [= <- <-]; by right|].
  destruct (Qle_bool max_time (clock (simulator L))) eqn:E.
  - unfold ret. intros [= <- <-]. by right.
  - intros _. left. apply Qlt_bool_true. unfold Qlt_bool. by rewrite E.
Qed.

(** The first turn of the run above: the clock is 0, below the bound 3. *)
Lemma C4_bound_checked_before_pop_witness :
  (clock (simulator (with_arrival 5 (single_station_line 1 0))) < 3)%Q \/
  (Ok true = Ok false /\
   dispatch (with_arrival 5 (single_station_line 1 0))
   = with_arrival 5 (single_station_line 1 0)).
Proof.
  apply (C4_bound_checked_before_pop draw_one 3 None
           (with_arrival 5 (single_station_line 1 0)) (Ok true)
           (dispatch (with_arrival 5 (single_station_line 1 0)))).
  vm_compute. reflexivity.
Defined.

(** ** Construction (C5) *)

(** C5, counterexample: [__init__] accepts [num_stations = 0],
    [conwip_level = 0] and [arrival_rate = 0]; it accepts a mean processing
    time of [0] and a CV of [-1]; and it accepts a list of means that is
    longer than [num_stations]. *)
Lemma C5_invalid_parameters_accepted :
  (exists L, ProductionLine__init__ 0 0 None None 0 1 0 = Ok L) /\
  (exists L, ProductionLine__init__ 1 1 (Some [0%Q]) (Some [(-1)%Q]) 10 1 0
             = Ok L) /\
  (exists L, ProductionLine__init__ 1 1 (Some [1%Q; 1%Q]) None 10 1 0 = Ok L).
Proof. repeat split; eexists; reflexivity. Qed.

Lemma py_getitem_in_range {A} (l : list A) (i : Z) :
  0 <= i < Z.of_nat (length l) -> exists x, py_getitem l i = Ok x.
Proof.
  intros H. unfold py_getitem. rewrite py_index_nonneg by done.
  destruct (lookup_lt_is_Some_2 l (Z.to_nat i) ltac:(lia)) as [x ->]. eauto.
Qed.

Lemma py_getitem_beyond {A} (l : list A) (i : Z) :
  Z.of_nat (length l) <= i -> py_getitem l i = Raise IndexError.
Proof.
  intros H. unfold py_getitem, py_index.
  rewrite decide_False by lia. rewrite decide_False by lia. done.
Qed.

Lemma build_stations_enough (k : nat) (means cvs : list Q) : forall m,
  0 <= m ->
  m + Z.of_nat k <= Z.of_nat (length means) ->
  m + Z.of_nat k <= Z.of_nat (length cvs) ->
  exists sts, build_stations (seqZ m (Z.of_nat k)) means cvs = Ok sts.
Proof.
  induction k as [|k IH]; intros m Hm H1 H2.
  - exists []. done.
  - rewrite seqZ_cons by lia. cbn [build_stations].
    destruct (py_getitem_in_range means m ltac:(lia)) as [x ->].
    destruct (py_getitem_in_range cvs m ltac:(lia)) as [y ->].
    replace (Z.pred (Z.of_nat (S k))) with (Z.of_nat k) by lia.
    destruct (IH (Z.succ m) ltac:(lia) ltac:(lia) ltac:(lia)) as [tl ->].
    cbn. eauto.
Qed.

Lemma build_stations_short (k : nat) (means cvs : list Q) : forall m,
  0 <= m ->
  m <= Z.of_nat (length means) -> m <= Z.of_nat (length cvs) ->
  Z.of_nat (length means) < m + Z.of_nat k \/
  Z.of_nat (length cvs) < m + Z.of_nat k ->
  build_stations (seqZ m (Z.of_nat k)) means cvs = Raise IndexError.
Proof.
  induction k as [|k IH]; intros m Hm H1 H2 Hshort; [lia|].
  rewrite seqZ_cons by lia. cbn [build_stations].
  destruct (decide (m < Z.of_nat (length means))) as [Hm1|Hm1];
    [|by rewrite py_getitem_beyond by lia].
  destruct (py_getitem_in_range means m ltac:(lia)) as [x ->].
  destruct (decide (m < Z.of_nat (length cvs))) as [Hm2|Hm2];
    [|by rewrite py_getitem_beyond by lia].
  destruct (py_getitem_in_range cvs m ltac:(lia)) as [y ->].
  replace (Z.pred (Z.of_nat (S k))) with (Z.of_nat k) by lia.
  rewrite (IH (Z.succ m)) by lia. done.
Qed.

(** C5, amended: [__init__] validates nothing.  It raises, with
    [IndexError], exactly when the list of means or the list of CVs that it
    subscripts has fewer than [num_stations] entries, and it returns a line
    in every other case, whatever the values of the parameters. *)
Theorem C5_init_fails_only_on_short_lists
    (num_stations conwip_level : Z)
    (mean_processing_times cv_processing : option (list Q))
    (arrival_rate cv_arrival : Q) (seed : nat) :
  let means := effective num_stations mean_processing_times in
  let cvs := effective num_stations cv_processing in
  let result := ProductionLine__init__ num_stations conwip_level
                  mean_processing_times cv_processing
                  arrival_rate cv_arrival seed in
  (result = Raise IndexError <->
     Z.of_nat (length means) < num_stations \/
     Z.of_nat (length cvs) < num_stations) /\
  ((exists L, result = Ok L) <->
     num_stations <= Z.of_nat (length means) /\
     num_stations <= Z.of_nat (length cvs)).
Proof.
  cbv zeta. unfold ProductionLine__init__.
  fold (effective num_stations mean_processing_times).
  fold (effective num_stations cv_processing).
  set (means := effective _ mean_processing_times).
  set (cvs := effective _ cv_processing).
  destruct (decide (num_stations <= 0)) as [Hn|Hn].
  - rewrite seqZ_nil by lia. cbn. split.
    + split; [done|]. intros H. pose proof (Nat2Z.is_nonneg (length means)).
      pose proof (Nat2Z.is_nonneg (length cvs)). exfalso. lia.
    + split; [|by eauto]. intros _.
      pose proof (Nat2Z.is_nonneg (length means)).
      pose proof (Nat2Z.is_nonneg (length cvs)). lia.
  - destruct (decide (num_stations <= Z.of_nat (length means) /\
                      num_stations <= Z.of_nat (length cvs))) as [[H1 H2]|Hs].
    + assert (exists sts,
        build_stations (seqZ 0 num_stations) means cvs = Ok sts) as [sts ->].
      { replace num_stations with (Z.of_nat (Z.to_nat num_stations)) by lia.
        apply build_stations_enough; lia. }
      cbn. split; split; try done; try lia; try (exfalso; lia); eauto.
    + assert (build_stations (seqZ 0 num_stations) means cvs
              = Raise IndexError) as ->.
      { replace num_stations with (Z.of_nat (Z.to_nat num_stations)) at 1
          by lia.
        apply build_stations_short; lia. }
      cbn. split; split; try done; try lia; try (exfalso; lia).
      by intros [L ?].
Qed.

(** ** Kingman's approximation (C7) *)



(** ** Deterministic service times (C8) *)

(** C8, counterexample: a deterministic station ([cv_processing = 0]) with
    mean 1/2000 takes the job that arrives at time 2; the end of processing
    is scheduled at 2 + 1/1000, not at 2 + 1/2000. *)
Lemma C8_small_mean_is_clamped :
  let L := dispatch (with_arrival 2 (single_station_line (1 # 2000) 0)) in
  exists e, event_queue (simulator L) = [e] /\
    event_type e = PROCESSING_END /\
    (time e == 2 + (1 # 1000))%Q /\ ~ (time e == 2 + (1 # 2000))%Q.
Proof.
  cbv zeta. eexists. split; [vm_compute; reflexivity|].
  split; [reflexivity|]. split; [vm_compute; reflexivity|].
  vm_compute. discriminate.
Qed.

(** C8, amended: when an idle station with [cv_processing = 0] takes a job,
    no random draw is made and the end of processing is scheduled after
    [max(0.001, mean_processing_time)], which is the mean itself for every
    mean of at least 0.001. *)
Theorem C8_deterministic_service_time
    (np_random_gamma : nat -> Q -> Q -> Q)
    (station_id job_id : Z) (L : ProductionLine) (i : nat) (st : Station) :
  lookup_station station_id L = (Ok (i, st), L) ->
  state st = IDLE ->
  (cv_processing st == 0)%Q ->
  let duration := py_max (1 # 1000) (mean_processing_time st) in
  exists L',
    _try_start_processing np_random_gamma station_id job_id L = (Ok tt, L') /\
    np_random L' = np_random L /\
    event_queue (simulator L') =
      heapq.heappush (event_queue (simulator L))
        {| time := (clock (simulator L) + duration)%Q;
           event_type := PROCESSING_END;
           ev_station_id := Some station_id;
           ev_entity_id := Some job_id |} /\
    ((1 # 1000 <= mean_processing_time st)%Q ->
     (duration == mean_processing_time st)%Q) /\
    ((mean_processing_time st < 1 # 1000)%Q -> (duration == 1 # 1000)%Q).
Proof.
  intros Hl Hidle Hcv. cbv zeta.
  unfold _try_start_processing. unfold bind at 1. rewrite Hl.
  cbn beta iota zeta. rewrite decide_True by done.
  unfold bind, gets, store_station, modify, sim_schedule_event.
  cbn beta iota zeta.
  set (st1 := update_statistics _ _).
  assert (Hcv1 : cv_processing st1 = cv_processing st)
    by (unfold st1, update_statistics; cbn; reflexivity).
  assert (Hm1 : mean_processing_time st1 = mean_processing_time st)
    by (unfold st1, update_statistics; cbn; reflexivity).
  unfold get_processing_time. rewrite Hcv1, Hm1.
  apply Qeq_bool_iff in Hcv. rewrite Hcv. cbn beta iota zeta.
  eexists. split; [reflexivity|]. cbn.
  split; [done|]. split; [done|]. unfold py_max. split.
  - intros H. destruct (Qlt_bool _ _) eqn:E; [reflexivity|].
    apply Qlt_bool_false in E. lra.
  - intros H. destruct (Qlt_bool _ _) eqn:E; [|reflexivity].
    apply Qlt_bool_true in E. lra.
Qed.

(** A deterministic station with mean 3 taking job 7. *)
Lemma C8_deterministic_service_time_witness :
  let L := with_arrival 2 (single_station_line 3 0) in
  let st := new_Station 0 "Station 1" 3 0 in
  let duration := py_max (1 # 1000) (mean_processing_time st) in
  exists L',
    _try_start_processing draw_one 0 7 L = (Ok tt, L') /\
    np_random L' = np_random L /\
    event_queue (simulator L') =
      heapq.heappush (event_queue (simulator L))
        {| time := (clock (simulator L) + duration)%Q;
           event_type := PROCESSING_END;
           ev_station_id := Some 0;
           ev_entity_id := Some 7 |} /\
    ((1 # 1000 <= mean_processing_time st)%Q ->
     (duration == mean_processing_time st)%Q) /\
    ((mean_processing_time st < 1 # 1000)%Q -> (duration == 1 # 1000)%Q).
Proof.
  apply (C8_deterministic_service_time draw_one 0 7
           (with_arrival 2 (single_station_line 3 0)) 0%nat
           (new_Station 0 "Station 1" 3 0)).
  - reflexivity.
  - reflexivity.
  - reflexivity.
Defined.

(** ** Station positions in [update_parameters] (C9) *)

(** C9, counterexample: on a line with one station,
    [update_parameters(-1, mean_processing_time=5)] returns and changes the
    mean of station 0. *)
Lemma C9_negative_station_id_accepted :
  let L := single_station_line 1 0 in
  let r := update_parameters (-1) (Some 5%Q) None L in
  fst r = Ok tt /\
  map mean_processing_time (stations L) = [1%Q] /\
  map mean_processing_time (stations (snd r)) = [5%Q].
Proof. cbv zeta. repeat split; reflexivity. Qed.

Lemma py_index_None (len : nat) (i : Z) :
  py_index len i = None <-> Z.of_nat len <= i \/ i < - Z.of_nat len.
Proof.
  unfold py_index. repeat case_decide; split; try done; lia.
Qed.

Lemma py_index_Some_lt (len : nat) (i : Z) (n : nat) :
  py_index len i = Some n ->
  (n < len)%nat /\
  (0 <= i -> n = Z.to_nat i) /\ (i < 0 -> n = Z.to_nat (Z.of_nat len + i)).
Proof.
  unfold py_index. repeat case_decide; intros [= <-]; lia.
Qed.

(** C9, amended: [update_parameters] fails, with [IndexError] and without
    changing the line, exactly for the positions [station_id >= len] and
    [station_id < -len] of the station list; a negative position from
    [-len] on is accepted and counts from the end of the list, and every
    accepted position changes that station only. *)
Theorem C9_update_parameters_out_of_range
    (station_id : Z) (mean cv : option Q) (L : ProductionLine) :
  let len := Z.of_nat (length (stations L)) in
  (update_parameters station_id mean cv L = (Raise IndexError, L) <->
     len <= station_id \/ station_id < - len) /\
  (- len <= station_id < len ->
   exists L', update_parameters station_id mean cv L = (Ok tt, L') /\
     forall k,
       k <> Z.to_nat (if decide (0 <= station_id) then station_id
                      else len + station_id) ->
       stations L' !! k = stations L !! k).
Proof.
  cbv zeta. unfold update_parameters, bind, lookup_station.
  destruct (py_index (length (stations L)) station_id) as [i|] eqn:Hi.
  - destruct (py_index_Some_lt _ _ _ Hi) as (Hlt & Hpos & Hneg).
    assert (Hnone : ~ (Z.of_nat (length (stations L)) <= station_id \/
                       station_id < - Z.of_nat (length (stations L)))).
    { intros H. apply py_index_None in H. congruence. }
    destruct (lookup_lt_is_Some_2 _ _ Hlt) as [st ->].
    unfold store_station, modify. cbn beta iota zeta. split.
    + split; [done|]. intros H. by destruct Hnone.
    + intros _. eexists. split; [reflexivity|]. cbn. intros k Hk.
      rewrite list_lookup_insert_ne; [done|].
      destruct (decide (0 <= station_id)); [rewrite Hpos|rewrite Hneg]; lia.
  - apply py_index_None in Hi as Hi'. split.
    + split; [done|]. done.
    + intros H. exfalso. lia.
Qed.

(** * Further properties of the engine *)

(** ** The handlers as sequences of mutations *)

Section Mutations.

Variable np_random_gamma : nat -> Q -> Q -> Q.
Variable np_random_exponential : nat -> Q -> Q.

Lemma try_start_mutations (s j : Z) (L : ProductionLine) r L' :
  _try_start_processing np_random_gamma s j L = (r, L') ->
  rtc handler_mutation L L'.
Proof.
  unfold _try_start_processing, bind, lookup_station.
  destruct (py_index _ _) as [i|] eqn:Hi; [|by intros [= _ <-]].
  destruct (stations L !! i) as [st|] eqn:Hst; [|by intros [= _ <-]].
  cbn beta iota zeta.
  destruct (decide (state st = IDLE)) as [Hidle|Hbusy].
  - unfold gets, store_station, modify, sim_schedule_event.
    cbn beta iota zeta.
    destruct (get_processing_time _ _ _) as [pt g] eqn:Ept.
    cbn beta iota zeta. intros [= _ <-]. apply rtc_once.
    exact (mut_start L i st s j (py_max (1 # 1000) pt) g Hi Hst Hidle
             (py_max_ge_l _ _)).
  - destruct (decide (j ∈ queue st)) as [Hin|Hnin].
    + unfold ret. by intros [= _ <-].
    + unfold store_station, modify. intros [= _ <-]. apply rtc_once.
      by apply (mut_enqueue L i st j).
Qed.

Lemma handle_arrival_mutations (e : Event) (L : ProductionLine) r L' :
  _handle_arrival np_random_gamma e L = (r, L') ->
  rtc handler_mutation L L'.
Proof.
  unfold _handle_arrival, bind, gets, modify, ret. cbn beta iota zeta.
  destruct (decide (system_wip L < conwip_level L)) as [Hcap|Hcap];
    [|by intros [= _ <-]].
  intros Hrun. eapply rtc_l; [by apply mut_new_job|].
  by eapply try_start_mutations.
Qed.

Lemma handle_processing_end_mutations (e : Event) (L : ProductionLine) r L' :
  _handle_processing_end np_random_gamma e L = (r, L') ->
  rtc handler_mutation L L'.
Proof.
  unfold _handle_processing_end.
  destruct (ev_station_id e) as [s|]; [|by intros [= _ <-]].
  destruct (ev_entity_id e) as [j|]; [|by intros [= _ <-]].
  unfold bind at 1. unfold lookup_station.
  destruct (py_index _ _) as [i|]; [|by intros [= _ <-]].
  destruct (stations L !! i) as [st|] eqn:Hst; [|by intros [= _ <-]].
  cbn beta iota zeta.
  unfold bind at 1. unfold gets at 1. cbn beta iota zeta.
  unfold bind at 1. unfold store_station at 1. unfold modify at 1.
  cbn beta iota zeta.
  set (L2 := set_stations _ L).
  assert (H12 : handler_mutation L L2) by exact (mut_finish L i st Hst).
  unfold bind at 1. unfold gets at 1. cbn beta iota zeta.
  unfold bind at 1.
  match goal with
  | |- (match ?X with (_, _) => _ end) = _ -> _ =>
      destruct X as [r3 L3] eqn:Hbranch
  end.
  assert (H23 : rtc handler_mutation L2 L3).
  { destruct (decide (s < num_stations L2 - 1)).
    - by eapply try_start_mutations.
    - revert Hbranch. unfold bind, modify, gets, ret, sim_schedule_event.
      cbn beta iota zeta.
      set (L2' := set_jobs _ _ _ _ _ L2).
      assert (H2 : handler_mutation L2 L2') by exact (mut_complete L2 j).
      destruct (decide (system_wip L2' < conwip_level L2')) as [Hw|Hw];
        intros [= _ <-].
      + eapply rtc_l; [exact H2|]. apply rtc_once.
        exact (mut_pull L2' Hw).
      + by apply rtc_once. }
  destruct r3 as [[]|err]; [|intros [= _ <-]; by eapply rtc_l].
  intros Hdrain. eapply rtc_l; [exact H12|].
  etrans; [exact H23|]. revert Hdrain.
  unfold bind at 1. unfold gets at 1. cbn beta iota zeta.
  destruct (stations L3 !! i) as [st3|] eqn:Hst3; [|by intros [= _ <-]].
  destruct (queue st3) as [|k rest] eqn:Hq; [by intros [= _ <-]|].
  unfold bind at 1. unfold store_station at 1. unfold modify at 1.
  cbn beta iota zeta. intros Hrun.
  eapply rtc_l; [exact (mut_dequeue L3 i st3 k rest Hst3 Hq)|].
  by eapply try_start_mutations.
Qed.

(** The outcomes of one turn of the run loop: it stops and leaves the line
    as it is, or it pops an event, lets the handler mutate the line, and
    counts the dispatch unless the handler has raised. *)
Lemma run_iteration_cases max_time max_events (L : ProductionLine) r L' :
  run_iteration np_random_gamma max_time max_events L = (r, L') ->
  (r = Ok false /\ L' = L) \/
  exists event rest L2,
    heappop (event_queue (simulator L)) = Some (event, rest) /\
    rtc handler_mutation (popped event rest L) L2 /\
    ((r = Ok true /\ L' = counted L2) \/
     (exists err, r = Raise err /\ L' = L2)).
Proof.
  unfold run_iteration. unfold bind at 1. unfold gets at 1.
  cbn beta iota zeta.
  destruct (event_queue (simulator L)) as [|e0 q0] eqn:Hq;
    [unfold ret; intros [= <- <-]; by left|].
  match goal with
  | |- (if ?b then _ else _) _ = _ -> _ =>
      destruct b; [unfold ret; intros [= <- <-]; by left|]
  end.
  match goal with
  | |- (if ?b then _ else _) _ = _ -> _ =>
      destruct b; [unfold ret; intros [= <- <-]; by left|]
  end.
  rewrite <- Hq.
  destruct (heappop_is_Some (event_queue (simulator L))) as [[e rest] Hpop];
    [by rewrite Hq|].
  rewrite Hpop.
  unfold bind at 1. unfold modify at 1. cbn beta iota zeta.
  change (set_simulator _ L) with (popped e rest L). unfold bind at 1.
  match goal with
  | |- (match ?X with (_, _) => _ end) = _ -> _ =>
      destruct X as [r2 L2] eqn:Hh
  end.
  assert (H12 : rtc handler_mutation (popped e rest L) L2).
  { destruct (event_handlers (simulator L) (event_type e)) as [[|]|].
    - exact (handle_arrival_mutations e _ _ _ Hh).
    - exact (handle_processing_end_mutations e _ _ _ Hh).
    - unfold ret in Hh. by simplify_eq. }
  intros Hfin. right. exists e, rest, L2. split; [done|]. split; [done|].
  revert Hfin. destruct r2 as [[]|err].
  - unfold bind, modify, ret. cbn beta iota zeta. intros [= <- <-]. by left.
  - intros [= <- <-]. right. by exists err.
Qed.

End Mutations.

(** ** The dispatch counter and the event bound of the run loop *)

Lemma handler_mutation_simulator L L' :
  handler_mutation L L' ->
  stats (simulator L') = stats (simulator L) /\
  clock (simulator L') = clock (simulator L) /\
  event_handlers (simulator L') = event_handlers (simulator L).
Proof. by destruct 1. Qed.

Lemma handler_mutations_simulator L L' :
  rtc handler_mutation L L' ->
  stats (simulator L') = stats (simulator L) /\
  clock (simulator L') = clock (simulator L) /\
  event_handlers (simulator L') = event_handlers (simulator L).
Proof.
  induction 1 as [|L L1 L2 H1 _ IH]; [done|].
  destruct IH as (-> & -> & ->). by apply handler_mutation_simulator.
Qed.

Lemma run_iteration_events_processed g max_time max_events L r L' :
  run_iteration g max_time max_events L = (r, L') ->
  (r = Ok true /\
   events_processed (stats (simulator L'))
   = events_processed (stats (simulator L)) + 1 /\
   forall n, max_events = Some n ->
     events_processed (stats (simulator L)) < n) \/
  (r <> Ok true /\
   events_processed (stats (simulator L'))
   = events_processed (stats (simulator L))).
Proof.
  intros Hrun.
  destruct (run_iteration_cases g _ _ _ _ _ Hrun)
    as [[-> ->]|(e & rest & L2 & Hpop & Hmut & Hres)]; [by right|].
  destruct (handler_mutations_simulator _ _ Hmut) as (Hs & _ & _).
  destruct Hres as [[-> ->]|(err & -> & ->)].
  - left. split; [done|]. split; [cbn; by rewrite Hs|].
    intros n ->. revert Hrun. unfold run_iteration.
    unfold bind at 1. unfold gets at 1. cbn beta iota zeta.
    destruct (event_queue (simulator L)); [by intros [= ?]|].
    destruct (match max_time with Some _ => _ | None => _ end);
      [by intros [= ?]|].
    case_bool_decide; [by intros [= ?]|]. intros _. lia.
  - right. split; [done|]. by rewrite Hs.
Qed.

(** X1: [run] with [max_events] set never dispatches beyond the bound: the
    dispatch counter only grows, and it ends at most at [max_events] (or
    where it started, when that was already beyond the bound), whatever the
    handlers do. *)
Theorem sim_run_respects_max_events
    (np_random_gamma : nat -> Q -> Q -> Q)
    (fuel : nat) (max_time : option Q) (max_events : Z)
    (L : ProductionLine) (r : Result bool) (L' : ProductionLine) :
  sim_run np_random_gamma fuel max_time (Some max_events) L = (r, L') ->
  events_processed (stats (simulator L))
    <= events_processed (stats (simulator L'))
    <= Z.max max_events (events_processed (stats (simulator L))).
Proof.
  revert L. induction fuel as [|fuel IH]; intros L; cbn [sim_run].
  - unfold ret. intros [= _ <-]. lia.
  - unfold bind at 1.
    destruct (run_iteration _ _ _ L) as [r1 L1] eqn:Hit.
    destruct (run_iteration_events_processed _ _ _ _ _ _ Hit)
      as [(-> & Hinc & Hlt)|(Hne & Heq)].
    + specialize (Hlt _ eq_refl). intros Hrun. specialize (IH _ Hrun). lia.
    + destruct r1 as [[|]|err]; [done| |]; unfold ret; intros [= _ <-]; lia.
Qed.

Lemma sim_run_respects_max_events_witness :
  let L := with_arrival 2 (single_station_line 1 0) in
  let L' := snd (sim_run draw_one 10 None (Some 1) L) in
  events_processed (stats (simulator L))
    <= events_processed (stats (simulator L'))
    <= Z.max 1 (events_processed (stats (simulator L))).
Proof.
  apply (sim_run_respects_max_events draw_one 10 None 1
           (with_arrival 2 (single_station_line 1 0)) (Ok true)).
  apply eq_pair_fst_snd. vm_compute. reflexivity.
Defined.

(** ** The clock never runs backwards while the queue is timely *)

Lemma handler_mutation_timely L L' :
  handler_mutation L L' -> timely L -> timely L'.
Proof.
  intros Hm [Hh Hf].
  destruct Hm; try done; split; cbn;
    try (by apply heappush_heap);
    rewrite heappush_Permutation; constructor; try done; cbn; lra.
Qed.

Lemma handler_mutations_timely L L' :
  rtc handler_mutation L L' -> timely L -> timely L'.
Proof. induction 1; eauto using handler_mutation_timely. Qed.

Lemma popped_timely L e rest :
  timely L -> heappop (event_queue (simulator L)) = Some (e, rest) ->
  timely (popped e rest L) /\ (clock (simulator L) <= time e)%Q.
Proof.
  intros [Hh Hf] Hpop.
  destruct (heappop_spec _ _ _ Hh Hpop) as (H0 & Hheap & Hperm).
  split; [split; cbn|].
  - done.
  - apply Forall_forall. by apply (heappop_min _ _ _ Hh Hpop).
  - rewrite Forall_forall in Hf. apply Hf. rewrite Hperm. by left.
Qed.

Lemma run_iteration_timely g max_time max_events L r L' :
  timely L ->
  run_iteration g max_time max_events L = (r, L') ->
  timely L' /\ (clock (simulator L) <= clock (simulator L'))%Q.
Proof.
  intros Ht Hrun.
  destruct (run_iteration_cases g _ _ _ _ _ Hrun)
    as [[-> ->]|(e & rest & L2 & Hpop & Hmut & Hres)]; [split; [done|lra]|].
  destruct (popped_timely _ _ _ Ht Hpop) as [Ht1 Hle].
  pose proof (handler_mutations_timely _ _ Hmut Ht1) as Ht2.
  destruct (handler_mutations_simulator _ _ Hmut) as (_ & Hc & _).
  cbn in Hc.
  destruct Hres as [[-> ->]|(err & -> & ->)].
  - split; [exact Ht2|]. cbn. rewrite Hc. done.
  - split; [done|]. rewrite Hc. done.
Qed.

Lemma sim_run_timely
    (np_random_gamma : nat -> Q -> Q -> Q)
    (fuel : nat) (max_time : option Q) (max_events : option Z)
    (L : ProductionLine) (r : Result bool) (L' : ProductionLine) :
  timely L ->
  sim_run np_random_gamma fuel max_time max_events L = (r, L') ->
  (clock (simulator L) <= clock (simulator L'))%Q /\ timely L'.
Proof.
  revert L. induction fuel as [|fuel IH]; intros L Ht; cbn [sim_run].
  - unfold ret. intros [= _ <-]. split; [lra|done].
  - unfold bind at 1.
    destruct (run_iteration _ _ _ L) as [r1 L1] eqn:Hit.
    destruct (run_iteration_timely _ _ _ _ _ _ Ht Hit) as [Ht1 Hle].
    destruct r1 as [[|]|err]; [|unfold ret; by intros [= _ <-]..].
    intros Hrun. destruct (IH _ Ht1 Hrun) as [Hle' Ht']. split; [lra|done].
Qed.

(** X2: clock monotonicity.  From a line in which no queued event lies
    before the clock, [run] never moves the clock backwards, and it leaves
    the line in such a state again, whatever the bounds and whether or not a
    handler raises. *)
Theorem sim_run_clock_monotone
    (np_random_gamma : nat -> Q -> Q -> Q)
    (fuel : nat) (max_time : option Q) (max_events : option Z)
    (L : ProductionLine) (r : Result bool) (L' : ProductionLine) :
  timely L ->
  sim_run np_random_gamma fuel max_time max_events L = (r, L') ->
  (clock (simulator L) <= clock (simulator L'))%Q /\ timely L'.
Proof. apply sim_run_timely. Qed.

Lemma sim_run_clock_monotone_witness :
  let L := with_arrival 2 (single_station_line 1 0) in
  let L' := snd (sim_run draw_one 10 (Some 5%Q) None L) in
  (clock (simulator L) <= clock (simulator L'))%Q /\ timely L'.
Proof.
  apply (sim_run_clock_monotone draw_one 10 (Some 5%Q) None
           (with_arrival 2 (single_station_line 1 0)) (Ok true)).
  - split.
    + apply heappush_heap, heap_inv_nil.
    + repeat constructor. vm_compute. discriminate.
  - apply eq_pair_fst_snd. vm_compute. reflexivity.
Defined.

(** ** Properties of the station objects *)

Lemma handler_mutation_stations (P : Station -> Prop) L L' :
  (forall st j, P st -> state st = IDLE ->
     P (started j (clock (simulator L)) st)) ->
  (forall st, P st -> P (finished (clock (simulator L)) st)) ->
  (forall st j, P st -> state st <> IDLE -> j ∉ queue st ->
     P (set_queue (queue st ++ [j]) st)) ->
  (forall st k rest, P st -> queue st = k :: rest -> P (set_queue rest st)) ->
  handler_mutation L L' ->
  Forall P (stations L) -> Forall P (stations L').
Proof.
  intros Hs Hf He Hq Hm HF. rewrite Forall_lookup in HF.
  assert (HF' : Forall P (stations L)) by (by apply Forall_lookup).
  destruct Hm as [i st sid j d g Hi Hst Hidle Hd|i st j Hst Hb Hn|i st Hst
                 |i st k rest Hst Hk|Hw|j|Hw];
    cbn [stations set_simulator set_np_random set_stations set_jobs];
    try done;
    (apply Forall_insert; [done|]); specialize (HF _ _ Hst); eauto.
Qed.

Lemma handler_mutations_stations (P : Q -> Station -> Prop) L L' :
  (forall now st j, P now st -> state st = IDLE -> P now (started j now st)) ->
  (forall now st, P now st -> P now (finished now st)) ->
  (forall now st j, P now st -> state st <> IDLE -> j ∉ queue st ->
     P now (set_queue (queue st ++ [j]) st)) ->
  (forall now st k rest, P now st -> queue st = k :: rest ->
     P now (set_queue rest st)) ->
  rtc handler_mutation L L' ->
  Forall (P (clock (simulator L))) (stations L) ->
  Forall (P (clock (simulator L'))) (stations L').
Proof.
  intros Hs Hf He Hq. induction 1 as [|L L1 L2 H1 _ IH]; [done|]. intros HF.
  apply IH. destruct (handler_mutation_simulator _ _ H1) as (_ & -> & _).
  eapply (handler_mutation_stations (P (clock (simulator L)))); eauto.
Qed.

Lemma run_iteration_stations P g max_time max_events L r L' :
  station_invariant P ->
  run_iteration g max_time max_events L = (r, L') ->
  Forall P (stations L) -> Forall P (stations L').
Proof.
  intros HP Hrun HF.
  destruct (run_iteration_cases g _ _ _ _ _ Hrun)
    as [[-> ->]|(e & rest & L2 & Hpop & Hmut & Hres)]; [done|].
  assert (H2 : Forall P (stations L2)).
  { apply (handler_mutations_stations (fun _ => P) _ _
             (fun now st j H Hi => si_update P HP _ now (si_start P HP st j H Hi))
             (fun now st H => si_update P HP _ now (si_finish P HP st H))
             (fun _ => si_enqueue P HP) (fun _ => si_dequeue P HP) Hmut).
    done. }
  by destruct Hres as [[-> ->]|(err & -> & ->)].
Qed.

Lemma get_statistics_stations warmup L r L' :
  get_statistics warmup L = (r, L') ->
  stations L' =
    map (fun st => snd (station_stat (clock (simulator L))
                          (update_statistics st (clock (simulator L)))))
        (stations L) /\
  simulator L' = simulator L.
Proof.
  unfold get_statistics, bind, gets, modify, ret. cbn beta iota zeta.
  intros [= _ <-]. cbn. by rewrite !map_map.
Qed.

Lemma station_stat_snd now st :
  snd (station_stat now st) = update_statistics st now.
Proof. unfold station_stat, get_utilization. by destruct (Qlt_bool 0 now). Qed.

Lemma init_stations n c means cvs rate cva seed L :
  ProductionLine__init__ n c means cvs rate cva seed = Ok L ->
  simulator L =
    register_handler
      (register_handler new_DiscreteEventSimulator ARRIVAL Handle_arrival)
      PROCESSING_END Handle_processing_end /\
  Forall (fun st => fresh_station st = st) (stations L).
Proof.
  unfold ProductionLine__init__.
  destruct (build_stations _ _ _) as [sts|] eqn:Hb; [|done]. cbn.
  intros [= <-]. cbn. split; [done|].
  revert sts Hb. generalize (seqZ 0 n). intros positions.
  induction positions as [|i rest IH]; intros sts; cbn.
  - by intros [= <-].
  - destruct (py_getitem _ i); [|done]. cbn.
    destruct (py_getitem _ i); [|done]. cbn.
    destruct (build_stations rest _ _) as [tl|]; [|done]. cbn.
    intros [= <-]. constructor; [done|]. by apply IH.
Qed.

(** Every station of a reachable line has every property that the
    assignments of the code keep. *)
Lemma reachable_stations P g x L :
  station_invariant P -> reachable g x L -> Forall P (stations L).
Proof.
  intros HP.
  induction 1 as [n c means cvs rate cva seed L _ Hinit
                 |L d t t' L' _ IH Hrun
                 |L mt me b L' _ IH Hrun
                 |L w st L' _ IH Hrun
                 |L sid m cv L' _ IH Hrun
                 |L _ IH].
  - destruct (init_stations _ _ _ _ _ _ _ _ Hinit) as [_ HF].
    eapply Forall_impl; [exact HF|]. intros st <-. apply (si_new P HP).
  - revert Hrun. unfold generate_arrivals_body, bind, gets, modify, ret, raise.
    cbn beta iota zeta. destruct (Qeq_bool _ 0); [done|].
    destruct (Qlt_bool _ d); unfold sim_schedule_event, modify;
      cbn beta iota zeta; intros H; inversion H; subst; exact IH.
  - by eapply run_iteration_stations.
  - destruct (get_statistics_stations _ _ _ _ Hrun) as [-> _].
    apply Forall_map. eapply Forall_impl; [exact IH|]. intros s Hs.
    rewrite station_stat_snd. by do 2 apply (si_update P HP).
  - revert Hrun. unfold update_parameters, bind, lookup_station.
    destruct (py_index _ _) as [i|]; [|done].
    destruct (stations L !! i) as [s|] eqn:Hs; [|done].
    unfold store_station, modify. cbn beta iota zeta. intros [= <-]. cbn.
    apply Forall_insert; [done|].
    rewrite Forall_lookup in IH. specialize (IH _ _ Hs).
    destruct m, cv;
      [apply (si_cv P HP), (si_mean P HP)|apply (si_mean P HP)
      |apply (si_cv P HP)|]; done.
  - cbn. apply Forall_map. eapply Forall_impl; [exact IH|].
    apply (si_reset P HP).
Qed.

Lemma update_statistics_mode_ok st now :
  station_mode_ok st -> station_mode_ok (update_statistics st now).
Proof.
  intros ([[Hs Hc]|[Hs Hc]] & Hb & Hv); unfold update_statistics;
    rewrite Hs; (split; [|done]); cbn; auto.
Qed.

Lemma started_mode_ok st j now :
  station_mode_ok st -> station_mode_ok (started j now st).
Proof.
  intros (_ & Hb & Hv). unfold started. apply update_statistics_mode_ok.
  split; [|done]. right. cbn. eauto.
Qed.

Lemma finished_mode_ok st now :
  station_mode_ok st -> station_mode_ok (finished now st).
Proof.
  intros (_ & Hb & Hv). unfold finished. apply update_statistics_mode_ok.
  split; [|done]. left. cbn. eauto.
Qed.

Lemma station_mode_ok_invariant : station_invariant station_mode_ok.
Proof.
  split; try done.
  - intros. split; [left|]; done.
  - apply update_statistics_mode_ok.
  - intros st j (_ & Hb & Hv) _. split; [|done]. right. cbn. eauto.
  - intros st (_ & Hb & Hv). split; [|done]. left. cbn. eauto.
  - intros. split; [left|]; done.
Qed.

(** X3: in every reachable state each station is either idle with no
    current job or processing with one; the [BLOCKED] and [STARVED] states
    are never entered and their time counters stay 0. *)
Theorem stations_idle_or_processing
    (np_random_gamma : nat -> Q -> Q -> Q)
    (np_random_exponential : nat -> Q -> Q) (L : ProductionLine) :
  reachable np_random_gamma np_random_exponential L ->
  Forall station_mode_ok (stations L).
Proof. apply reachable_stations, station_mode_ok_invariant. Qed.

Lemma stations_idle_or_processing_witness :
  Forall station_mode_ok (stations after_one_job).
Proof.
  apply (stations_idle_or_processing draw_one exponential_one after_one_job).
  after_one_job_is_reachable.
Defined.

(** ** Utilization on a first run *)

Lemma update_statistics_time_ok st now :
  station_time_ok now st -> station_time_ok now (update_statistics st now).
Proof.
  intros (Hm & H0 & H1 & H2).
  split; [by apply update_statistics_mode_ok|].
  destruct Hm as ([[Hs Hc]|[Hs Hc]] & Hb & Hv); unfold update_statistics;
    rewrite Hs; cbn; repeat split; clear Hb Hv; lra.
Qed.

Lemma station_time_ok_later now now' st :
  (now <= now')%Q -> station_time_ok now st -> station_time_ok now' st.
Proof.
  intros Hle (Hm & H0 & H1 & H2). split; [done|]. repeat split; try done; lra.
Qed.

Lemma started_time_ok now st j :
  station_time_ok now st -> state st = IDLE ->
  station_time_ok now (started j now st).
Proof.
  intros ((_ & Hb & Hv) & H0 & H1 & H2) _. unfold started.
  apply update_statistics_time_ok. split; [|done].
  split; [|done]. right. cbn. eauto.
Qed.

Lemma finished_time_ok now st :
  station_time_ok now st -> station_time_ok now (finished now st).
Proof.
  intros ((_ & Hb & Hv) & H0 & H1 & H2). unfold finished.
  apply update_statistics_time_ok. split; [|done].
  split; [|done]. left. cbn. eauto.
Qed.

Lemma set_queue_time_ok now st q :
  station_time_ok now st -> station_time_ok now (set_queue q st).
Proof. done. Qed.

Lemma run_iteration_time_ok g max_time max_events L r L' :
  time_ok L ->
  run_iteration g max_time max_events L = (r, L') -> time_ok L'.
Proof.
  intros [Ht HF] Hrun.
  split; [by destruct (run_iteration_timely _ _ _ _ _ _ Ht Hrun)|].
  destruct (run_iteration_cases g _ _ _ _ _ Hrun)
    as [[-> ->]|(e & rest & L2 & Hpop & Hmut & Hres)]; [done|].
  destruct (popped_timely _ _ _ Ht Hpop) as [_ Hle].
  assert (H1 : Forall (station_time_ok (clock (simulator (popped e rest L))))
                 (stations (popped e rest L))).
  { cbn. eapply Forall_impl; [exact HF|]. intros st.
    by apply station_time_ok_later. }
  pose proof (handler_mutations_stations station_time_ok _ _
                (fun now st j => started_time_ok now st j)
                finished_time_ok
                (fun now st j H _ _ => set_queue_time_ok now st _ H)
                (fun now st k rest H _ => set_queue_time_ok now st rest H)
                Hmut H1) as H2.
  by destruct Hres as [[-> ->]|(err & -> & ->)].
Qed.

Lemma sim_run_time_ok g fuel max_time max_events : forall L r L',
  time_ok L ->
  sim_run g fuel max_time max_events L = (r, L') -> time_ok L'.
Proof.
  induction fuel as [|fuel IH]; intros L r L' Ht; cbn [sim_run].
  - unfold ret. by intros [= _ <-].
  - unfold bind at 1.
    destruct (run_iteration _ _ _ L) as [r1 L1] eqn:Hit.
    pose proof (run_iteration_time_ok _ _ _ _ _ _ Ht Hit) as Ht1.
    destruct r1 as [[|]|err]; [|unfold ret; by intros [= _ <-]..].
    by apply IH.
Qed.

Lemma generate_arrivals_loop_time_ok x fuel duration :
  (forall n scale, (0 <= x n scale)%Q) ->
  forall t L r L',
    time_ok L -> (clock (simulator L) <= t)%Q ->
    generate_arrivals_loop x fuel duration t L = (r, L') -> time_ok L'.
Proof.
  intros Hx. induction fuel as [|fuel IH]; intros t L r L' Ht Hle;
    cbn [generate_arrivals_loop].
  - unfold ret. by intros [= _ <-].
  - destruct (Qlt_bool t duration); [|unfold ret; by intros [= _ <-]].
    unfold bind at 1.
    destruct (generate_arrivals_body x duration t L) as [r1 L1] eqn:Hb.
    revert Hb. unfold generate_arrivals_body, bind, gets, modify, ret, raise.
    cbn beta iota zeta.
    destruct (Qeq_bool _ 0); [intros [= <- <-]; by intros [= _ <-]|].
    set (t' := (t + x _ _)%Q).
    assert (Hle' : (clock (simulator L) <= t')%Q)
      by (unfold t'; pose proof (Hx (np_random L)
            (1 / (if Qeq_bool (cv_arrival L) 1 then arrival_rate L
                  else arrival_rate L * cv_arrival L))%Q); lra).
    destruct Ht as [[Hh Hf] HF].
    destruct (Qlt_bool t' duration); unfold sim_schedule_event, modify;
      cbn beta iota zeta; intros [= <- <-]; apply IH; try done.
    split; [split|]; cbn; try done.
    + by apply heappush_heap.
    + rewrite heappush_Permutation. by constructor.
Qed.

Lemma generate_arrivals_loop_clock x fuel duration : forall t L r L',
  generate_arrivals_loop x fuel duration t L = (r, L') ->
  clock (simulator L') = clock (simulator L).
Proof.
  induction fuel as [|fuel IH]; intros t L r L'; cbn [generate_arrivals_loop].
  - unfold ret. by intros [= _ <-].
  - destruct (Qlt_bool t duration); [|unfold ret; by intros [= _ <-]].
    unfold bind at 1.
    unfold generate_arrivals_body, bind, gets, modify, ret, raise.
    cbn beta iota zeta. destruct (Qeq_bool _ 0); [by intros [= _ <-]|].
    destruct (Qlt_bool _ duration); unfold sim_schedule_event, modify;
      cbn beta iota zeta; intros Hl; by rewrite (IH _ _ _ _ Hl).
Qed.

Lemma init_time_ok n c means cvs rate cva seed L :
  ProductionLine__init__ n c means cvs rate cva seed = Ok L ->
  time_ok L /\ clock (simulator L) = 0%Q.
Proof.
  intros Hinit. destruct (init_stations _ _ _ _ _ _ _ _ Hinit) as [Hs HF].
  unfold time_ok, timely. rewrite Hs. split; [|done]. split; [split; cbn|].
  - apply heap_inv_nil.
  - constructor.
  - cbn. eapply Forall_impl; [exact HF|]. intros st <-.
    unfold fresh_station.
    split; [split; [left|]; done|]. cbn. repeat split; lra.
Qed.

Lemma station_stat_utilization now st :
  station_time_ok now st ->
  (0 <= utilization (fst (station_stat now st)) <= 1)%Q.
Proof.
  intros Hok. unfold station_stat, get_utilization.
  destruct (update_statistics_time_ok st now Hok)
    as ((_ & Hb & Hv) & H0 & H1 & H2).
  assert (Hl : last_state_change_time (update_statistics st now) = now)
    by (unfold update_statistics; by destruct (state st)).
  rewrite Hl in H1. clear Hl.
  destruct (Qlt_bool 0 now) eqn:E; cbn; [|lra].
  apply Qlt_bool_true in E. rewrite Hb, Hv. clear Hb Hv. split.
  - apply Qle_shift_div_l; [done|]. lra.
  - apply Qle_shift_div_r; [done|]. lra.
Qed.

(** X4: on the first [run] of a newly constructed line, with inter-arrival
    draws that are not negative, every utilization in the returned
    statistics lies between 0 and 1, and the simulation time is not
    negative. *)
Theorem first_run_utilization_in_range
    (np_random_gamma : nat -> Q -> Q -> Q)
    (np_random_exponential : nat -> Q -> Q)
    (n c : Z) (means cvs : option (list Q)) (rate cva : Q) (seed : nat)
    (L : ProductionLine) (fuel_arrivals fuel_events : nat)
    (duration warmup_period : Q) (st : Statistics) (L' : ProductionLine) :
  (forall k scale, (0 <= np_random_exponential k scale)%Q) ->
  ProductionLine__init__ n c means cvs rate cva seed = Ok L ->
  run np_random_gamma np_random_exponential fuel_arrivals fuel_events
      duration warmup_period L = (Ok (Some st), L') ->
  Forall (fun ss => (0 <= utilization ss <= 1)%Q) (station_stats st) /\
  (0 <= simulation_time st)%Q.
Proof.
  intros Hx Hinit. destruct (init_time_ok _ _ _ _ _ _ _ _ Hinit) as [Ht H0].
  unfold run. unfold bind at 1. unfold generate_arrivals.
  destruct (generate_arrivals_loop _ _ _ _ L) as [[gen|e] L1] eqn:Hg;
    [|done].
  assert (Ht1 : time_ok L1).
  { eapply generate_arrivals_loop_time_ok; [exact Hx|exact Ht| |exact Hg].
    rewrite H0. lra. }
  assert (Hc1 : clock (simulator L1) = clock (simulator L))
    by exact (generate_arrivals_loop_clock _ _ _ _ _ _ _ Hg).
  destruct gen; [|done].
  unfold bind at 1.
  destruct (sim_run _ _ _ _ L1) as [[fin|e] L2] eqn:Hs; [|done].
  pose proof (sim_run_time_ok _ _ _ _ _ _ _ Ht1 Hs) as [Ht2 HF2].
  destruct (sim_run_timely _ _ _ _ _ _ _ (proj1 Ht1) Hs) as [Hle _].
  destruct fin; [|done].
  unfold bind at 1, get_statistics, bind, gets, modify, ret.
  cbn beta iota zeta. intros [= <- _].
  cbn [station_stats simulation_time stations set_stations simulator].
  split; [|rewrite Hc1, H0 in Hle; exact Hle].
  rewrite !Forall_map. eapply Forall_impl; [exact HF2|]. intros s Hs'.
  by apply station_stat_utilization, update_statistics_time_ok.
Qed.

Lemma first_run_utilization_in_range_witness :
  let st := {| throughput := 2 # 3; avg_cycle_time := 2 # 2; avg_wip := 4 # 6;
               total_completed := 2;
               station_stats :=
                 [{| ss_station_id := 0; ss_name := "Station 1";
                     utilization := 1 # 3; ss_total_processed := 2;
                     avg_processing_time := 0 # 2 |}];
               simulation_time := 3 |} in
  Forall (fun ss => (0 <= utilization ss <= 1)%Q) (station_stats st) /\
  (0 <= simulation_time st)%Q.
Proof.
  apply (first_run_utilization_in_range draw_one exponential_one
           1 1 (Some [1%Q]) (Some [0%Q]) 10 1 0 (single_station_line 1 0)
           10 50 3 0 _
           (snd (run draw_one exponential_one 10 50 3 0
                   (single_station_line 1 0)))).
  - intros k scale. vm_compute. discriminate.
  - apply single_station_line_init.
  - vm_compute. reflexivity.
Defined.

(** ** [reset] and the constructor *)

Lemma update_statistics_label st now :
  station_label (update_statistics st now) = station_label st.
Proof. unfold update_statistics. by destruct (state st). Qed.

Lemma insert_same_label i st st' (sts : list Station) :
  sts !! i = Some st -> station_label st' = station_label st ->
  map station_label (<[i := st']> sts) = map station_label sts.
Proof.
  intros Hst Hl. rewrite list_fmap_insert, Hl.
  apply list_insert_id. by rewrite list_lookup_fmap, Hst.
Qed.

Lemma handler_mutation_layout L L' :
  handler_mutation L L' ->
  map station_label (stations L') = map station_label (stations L) /\
  num_stations L' = num_stations L /\ conwip_level L' = conwip_level L /\
  arrival_rate L' = arrival_rate L /\ cv_arrival L' = cv_arrival L.
Proof.
  destruct 1 as [i st sid j d g Hi Hst Hidle Hd|i st j Hst Hb Hn|i st Hst
                |i st k rest Hst Hk|Hw|j|Hw];
    cbn [stations set_simulator set_np_random set_stations set_jobs
         num_stations conwip_level arrival_rate cv_arrival];
    (split; [|done]); try done;
    apply (insert_same_label _ _ _ _ Hst); try done;
    unfold started, finished; by rewrite update_statistics_label.
Qed.

Lemma handler_mutations_layout L L' :
  rtc handler_mutation L L' ->
  map station_label (stations L') = map station_label (stations L) /\
  num_stations L' = num_stations L /\ conwip_level L' = conwip_level L /\
  arrival_rate L' = arrival_rate L /\ cv_arrival L' = cv_arrival L.
Proof.
  induction 1 as [|L L1 L2 H1 _ IH]; [done|].
  destruct IH as (-> & -> & -> & -> & ->). by apply handler_mutation_layout.
Qed.

Lemma run_iteration_layout g max_time max_events L r L' :
  run_iteration g max_time max_events L = (r, L') ->
  (map station_label (stations L') = map station_label (stations L) /\
   num_stations L' = num_stations L /\ conwip_level L' = conwip_level L /\
   arrival_rate L' = arrival_rate L /\ cv_arrival L' = cv_arrival L) /\
  event_handlers (simulator L') = event_handlers (simulator L).
Proof.
  intros Hrun.
  destruct (run_iteration_cases g _ _ _ _ _ Hrun)
    as [[-> ->]|(e & rest & L2 & Hpop & Hmut & Hres)]; [done|].
  pose proof (handler_mutations_layout _ _ Hmut) as Hl.
  destruct (handler_mutations_simulator _ _ Hmut) as (_ & _ & Hh).
  by destruct Hres as [[-> ->]|(err & -> & ->)].
Qed.

Lemma init_laid_out n c means cvs rate cva seed L :
  ProductionLine__init__ n c means cvs rate cva seed = Ok L -> laid_out L.
Proof.
  unfold ProductionLine__init__.
  destruct (build_stations _ _ _) as [sts|] eqn:Hb; [|done]. cbn.
  intros [= <-]. split; [|done]. cbn.
  revert sts Hb. generalize (seqZ 0 n). intros positions.
  induction positions as [|i rest IH]; intros sts; cbn.
  - by intros [= <-].
  - destruct (py_getitem _ i); [|done]. cbn.
    destruct (py_getitem _ i); [|done]. cbn.
    destruct (build_stations rest _ _) as [tl|]; [|done]. cbn.
    intros [= <-]. cbn. f_equal. by apply IH.
Qed.

Lemma reachable_laid_out g x L : reachable g x L -> laid_out L.
Proof.
  induction 1 as [n c means cvs rate cva seed L Hv Hinit
                 |L duration t t' L' _ IH Hgen
                 |L max_time max_events b L' _ IH Hrun
                 |L warmup st L' _ IH Hst
                 |L station_id mean cv L' _ IH Hup
                 |L _ IH].
  - by eapply init_laid_out.
  - revert Hgen. unfold generate_arrivals_body, bind, gets, modify, ret, raise.
    cbn beta iota zeta. destruct (Qeq_bool _ 0); [done|].
    destruct (Qlt_bool _ duration); unfold sim_schedule_event, modify;
      cbn beta iota zeta; by intros [= _ <-].
  - destruct (run_iteration_layout _ _ _ _ _ _ Hrun)
      as ((Hl & Hn & _) & Hh).
    destruct IH as [IH1 IH2]. split; [by rewrite Hl, Hn|by rewrite Hh].
  - destruct (get_statistics_stations _ _ _ _ Hst) as [Hs Hsim].
    assert (Hn : num_stations L' = num_stations L).
    { revert Hst. unfold get_statistics, bind, gets, modify, ret.
      cbn beta iota zeta. by intros [= _ <-]. }
    destruct IH as [IH1 IH2]. split; [|by rewrite Hsim].
    rewrite Hs, Hn, <- IH1, map_map. apply map_ext. intros st0.
    unfold station_stat, get_utilization.
    destruct (Qlt_bool 0 _); cbn; by rewrite !update_statistics_label.
  - revert Hup. unfold update_parameters, bind, lookup_station.
    destruct (py_index _ _) as [i|]; [|done].
    destruct (stations L !! i) as [st0|] eqn:Hi; [|done].
    unfold store_station, modify. intros [= <-].
    destruct IH as [IH1 IH2]. split; [|done].
    cbn [stations set_stations num_stations]. rewrite <- IH1.
    apply (insert_same_label _ _ _ _ Hi). by destruct mean, cv.
  - destruct IH as [IH1 IH2]. split; [|done]. cbn.
    rewrite <- IH1, map_map. by apply map_ext.
Qed.

Lemma build_stations_rebuild means cvs : forall positions sts,
  Forall2 (fun i st =>
             py_getitem means i = Ok (mean_processing_time st) /\
             py_getitem cvs i = Ok (cv_processing st) /\
             station_label st = label_at i) positions sts ->
  build_stations positions means cvs = Ok (map reset_station sts).
Proof.
  induction 1 as [|i st positions sts (Hm & Hc & Hl) _ IH]; [done|].
  cbn [build_stations]. rewrite Hm, Hc, IH. cbn.
  injection Hl as Hid Hname Hcap. do 2 f_equal.
  unfold reset_station, new_Station. by rewrite Hid, Hname, Hcap.
Qed.

(** X5: in every reachable state [reset] gives the line that the constructor
    builds from the line's configuration, the current parameters of its
    stations and the current state of the random generator: what has been
    simulated is forgotten, what [update_parameters] has set is kept. *)
Theorem reset_is_reconstruction
    (np_random_gamma : nat -> Q -> Q -> Q)
    (np_random_exponential : nat -> Q -> Q) (L : ProductionLine) :
  reachable np_random_gamma np_random_exponential L ->
  ProductionLine__init__ (num_stations L) (conwip_level L)
    (Some (map mean_processing_time (stations L)))
    (Some (map cv_processing (stations L)))
    (arrival_rate L) (cv_arrival L) (np_random L)
  = Ok (snd (reset L)).
Proof.
  intros Hr. destruct (reachable_laid_out _ _ _ Hr) as [Hl Hh].
  unfold ProductionLine__init__.
  rewrite (build_stations_rebuild _ _ _ (stations L)).
  - cbn. unfold sim_reset. rewrite Hh. done.
  - apply Forall2_same_length_lookup. split.
    + apply (f_equal length) in Hl. by rewrite !length_map in Hl.
    + intros k i st Hi Hst.
      assert (Hk : (k < length (stations L))%nat)
        by (apply lookup_lt_is_Some; eauto).
      apply lookup_seqZ in Hi as [-> _].
      unfold py_getitem. rewrite !length_map.
      rewrite py_index_nonneg by lia.
      replace (Z.to_nat (0 + Z.of_nat k)) with k by lia.
      rewrite !list_lookup_fmap, Hst. cbn. split; [done|]. split; [done|].
      assert (Hlen : length (stations L) = Z.to_nat (num_stations L)).
      { apply (f_equal length) in Hl.
        by rewrite !length_map, length_seqZ in Hl. }
      apply (f_equal (fun l => l !! k)) in Hl.
      rewrite !list_lookup_fmap, Hst in Hl.
      rewrite (proj2 (lookup_seqZ 0 (num_stations L) k (0 + Z.of_nat k)))
        in Hl by (split; [done|lia]).
      by apply (inj Some).
Qed.

Lemma reset_is_reconstruction_witness :
  ProductionLine__init__ (num_stations after_one_job)
    (conwip_level after_one_job)
    (Some (map mean_processing_time (stations after_one_job)))
    (Some (map cv_processing (stations after_one_job)))
    (arrival_rate after_one_job) (cv_arrival after_one_job)
    (np_random after_one_job)
  = Ok (snd (reset after_one_job)).
Proof.
  apply (reset_is_reconstruction draw_one exponential_one after_one_job).
  after_one_job_is_reachable.
Defined.

(** ** The next event *)

(** X6: [get_next_event_time] is the time of the event that the next
    [heappop] of the run loop returns, and [None] exactly when there is
    nothing to pop. *)
Theorem get_next_event_time_is_next_pop (sim : DiscreteEventSimulator) :
  get_next_event_time sim
  = (fun p => time (fst p)) <$> heappop (event_queue sim).
Proof.
  unfold get_next_event_time, heappop.
  destruct (event_queue sim) as [|e q]; [done|].
  destruct (last (e :: q)) as [lastelt|] eqn:Hlast.
  - destruct q as [|e' q]; [cbn in *; by simplify_eq|].
    change (removelast (e :: e' :: q)) with (e :: removelast (e' :: q)).
    done.
  - by rewrite last_None in Hlast.
Qed.

(** ** What [run] can raise *)









(** ** What [generate_arrivals] schedules *)

Lemma same_but_queue_refl L : same_but_queue L L.
Proof. by repeat split. Qed.

Lemma same_but_queue_trans L1 L2 L3 :
  same_but_queue L1 L2 -> same_but_queue L2 L3 -> same_but_queue L1 L3.
Proof.
  unfold same_but_queue. intros H1 H2.
  repeat match goal with H : _ /\ _ |- _ => destruct H as [? H] end.
  repeat split; congruence.
Qed.

(** X9: [generate_arrivals] adds to the event queue only arrival events
    without station and job, each with a time below [duration] and, when
    the draws are not negative, not below 0; the queue stays a heap, and
    apart from the queue and the state of the random generator the line is
    left as it was, whether the loop ends, is cut short or raises. *)
Theorem generate_arrivals_schedules_arrivals
    (np_random_exponential : nat -> Q -> Q)
    (fuel : nat) (duration : Q) (L : ProductionLine)
    (r : Result bool) (L' : ProductionLine) :
  heap_inv (event_queue (simulator L)) ->
  generate_arrivals np_random_exponential fuel duration L = (r, L') ->
  exists new,
    event_queue (simulator L') ≡ₚ new ++ event_queue (simulator L) /\
    Forall (generated_arrival duration) new /\
    ((forall k scale, (0 <= np_random_exponential k scale)%Q) ->
     Forall (fun e => (0 <= time e)%Q) new) /\
    heap_inv (event_queue (simulator L')) /\
    same_but_queue L L'.
Proof.
  unfold generate_arrivals. generalize 0%Q at 1 3. intros t0.
  assert (Hgen : forall t L r L',
    heap_inv (event_queue (simulator L)) ->
    generate_arrivals_loop np_random_exponential fuel duration t L = (r, L') ->
    exists new,
      event_queue (simulator L') ≡ₚ new ++ event_queue (simulator L) /\
      Forall (generated_arrival duration) new /\
      ((forall k scale, (0 <= np_random_exponential k scale)%Q) ->
       (t0 <= t)%Q -> Forall (fun e => (t0 <= time e)%Q) new) /\
      heap_inv (event_queue (simulator L')) /\
      same_but_queue L L').
  { clear L r L'. induction fuel as [|fuel IH]; intros t L r L' Hh;
      cbn [generate_arrivals_loop].
    - unfold ret. intros [= _ <-]. exists []. split; [done|].
      split; [done|]. split; [done|]. split; [done|].
      apply same_but_queue_refl.
    - destruct (Qlt_bool t duration).
      2:{ unfold ret. intros [= _ <-]. exists []. split; [done|].
          split; [done|]. split; [done|]. split; [done|].
          apply same_but_queue_refl. }
      unfold bind at 1.
      unfold generate_arrivals_body, bind, gets, modify, ret, raise.
      cbn beta iota zeta. destruct (Qeq_bool _ 0).
      { intros [= _ <-]. exists []. split; [done|].
        split; [done|]. split; [done|]. split; [done|].
        apply same_but_queue_refl. }
      set (d := np_random_exponential _ _).
      destruct (Qlt_bool (t + d) duration) eqn:Hlt;
        unfold sim_schedule_event, modify; cbn beta iota zeta; intros Hloop.
      + apply IH in Hloop as (new & Hp & Hn & Hpos & Hh' & Hsame);
          [|by apply heappush_heap].
        cbn -[heappush] in Hp. rewrite heappush_Permutation in Hp.
        exists (new ++ [arrival_at (t + d)]). split.
        { by rewrite Hp, <- app_assoc. }
        split.
        { apply Forall_app. split; [done|]. constructor; [|done].
          apply Qlt_bool_true in Hlt. by repeat split. }
        split.
        { intros Hx Ht. apply Forall_app. split.
          - apply Hpos; [done|]. pose proof (Hx (np_random L)
              (1 / (if Qeq_bool (cv_arrival L) 1 then arrival_rate L
                    else arrival_rate L * cv_arrival L))%Q).
            fold d in H. lra.
          - constructor; [|done]. cbn.
            pose proof (Hx (np_random L)
              (1 / (if Qeq_bool (cv_arrival L) 1 then arrival_rate L
                    else arrival_rate L * cv_arrival L))%Q).
            fold d in H. lra. }
        split; [done|].
        eapply same_but_queue_trans; [|exact Hsame]. by repeat split.
      + apply IH in Hloop as (new & Hp & Hn & Hpos & Hh' & Hsame); [|done].
        exists new. split; [done|]. split; [done|]. split.
        { intros Hx Ht. apply Hpos; [done|]. pose proof (Hx (np_random L)
              (1 / (if Qeq_bool (cv_arrival L) 1 then arrival_rate L
                    else arrival_rate L * cv_arrival L))%Q).
          fold d in H. lra. }
        split; [done|].
        eapply same_but_queue_trans; [|exact Hsame]. by repeat split. }
  intros Hh Hrun.
  destruct (Hgen _ _ _ _ Hh Hrun) as (new & Hp & Hn & Hpos & Hh' & Hsame).
  exists new. split; [done|]. split; [done|]. split; [|done].
  intros Hx. apply Hpos; [done|apply Qle_refl].
Qed.

Lemma generate_arrivals_schedules_arrivals_witness :
  let L := single_station_line 1 0 in
  let L' := snd (generate_arrivals exponential_one 10 3 L) in
  exists new,
    event_queue (simulator L') ≡ₚ new ++ event_queue (simulator L) /\
    Forall (generated_arrival 3) new /\
    ((forall k scale, (0 <= exponential_one k scale)%Q) ->
     Forall (fun e => (0 <= time e)%Q) new) /\
    heap_inv (event_queue (simulator L')) /\
    same_but_queue L L'.
Proof.
  apply (generate_arrivals_schedules_arrivals exponential_one 10 3
           (single_station_line 1 0) (Ok true)).
  - apply heap_inv_nil.
  - apply eq_pair_fst_snd. vm_compute. reflexivity.
Defined.

(** ** The service time sampler *)



(** ** The end of the run loop *)

Lemma run_iteration_stops g max_time max_events L L' :
  run_iteration g max_time max_events L = (Ok false, L') ->
  L' = L /\ stopping_condition max_time max_events (simulator L).
Proof.
  unfold run_iteration, stopping_condition. unfold bind at 1.
  unfold gets at 1. cbn beta iota zeta.
  destruct (event_queue (simulator L)) as [|e0 q0] eqn:Hq;
    [unfold ret; intros [= <-]; by split; [|left]|].
  destruct max_time as [t|].
  - destruct (Qle_bool t (clock (simulator L))) eqn:Ht.
    { unfold ret. intros [= <-]. split; [done|]. right. left.
      exists t. split; [done|]. by apply Qle_bool_iff. }
    destruct max_events as [n|].
    + case_bool_decide.
      { unfold ret. intros [= <-]. split; [done|]. right. right. eauto. }
      destruct (heappop (e0 :: q0)) as [[e rest]|]; [|done].
      unfold bind at 1. unfold modify at 1. cbn beta iota zeta.
      unfold bind at 1.
      match goal with
      | |- (match ?X with (_, _) => _ end) = _ -> _ =>
          destruct X as [[[]|err] L2]
      end; [|done]. unfold bind, modify, ret. cbn beta iota zeta. done.
    + destruct (heappop (e0 :: q0)) as [[e rest]|]; [|done].
      unfold bind at 1. unfold modify at 1. cbn beta iota zeta.
      unfold bind at 1.
      match goal with
      | |- (match ?X with (_, _) => _ end) = _ -> _ =>
          destruct X as [[[]|err] L2]
      end; [|done]. unfold bind, modify, ret. cbn beta iota zeta. done.
  - destruct max_events as [n|].
    + case_bool_decide.
      { unfold ret. intros [= <-]. split; [done|]. right. right. eauto. }
      destruct (heappop (e0 :: q0)) as [[e rest]|]; [|done].
      unfold bind at 1. unfold modify at 1. cbn beta iota zeta.
      unfold bind at 1.
      match goal with
      | |- (match ?X with (_, _) => _ end) = _ -> _ =>
          destruct X as [[[]|err] L2]
      end; [|done]. unfold bind, modify, ret. cbn beta iota zeta. done.
    + destruct (heappop (e0 :: q0)) as [[e rest]|]; [|done].
      unfold bind at 1. unfold modify at 1. cbn beta iota zeta.
      unfold bind at 1.
      match goal with
      | |- (match ?X with (_, _) => _ end) = _ -> _ =>
          destruct X as [[[]|err] L2]
      end; [|done]. unfold bind, modify, ret. cbn beta iota zeta. done.
Qed.

(** X11: when the loop of [run] has ended, a stopping condition holds in the
    state it leaves: the event queue is empty, or the clock has reached
    [max_time], or the dispatch counter has reached [max_events]. *)
Theorem sim_run_stopping_condition
    (np_random_gamma : nat -> Q -> Q -> Q)
    (fuel : nat) (max_time : option Q) (max_events : option Z)
    (L L' : ProductionLine) :
  sim_run np_random_gamma fuel max_time max_events L = (Ok true, L') ->
  stopping_condition max_time max_events (simulator L').
Proof.
  revert L. induction fuel as [|fuel IH]; intros L; cbn [sim_run]; [done|].
  unfold bind at 1.
  destruct (run_iteration _ _ _ L) as [[[|]|err] L1] eqn:Hit; [apply IH| |done].
  unfold ret. intros [= <-].
  by destruct (run_iteration_stops _ _ _ _ _ Hit) as [-> ?].
Qed.

Lemma sim_run_stopping_condition_witness :
  stopping_condition (Some 5%Q) None
    (simulator (snd (sim_run draw_one 10 (Some 5%Q) None
                       (with_arrival 2 (single_station_line 1 0))))).
Proof.
  apply (sim_run_stopping_condition draw_one 10 (Some 5%Q) None
           (with_arrival 2 (single_station_line 1 0))).
  apply eq_pair_fst_snd. vm_compute. reflexivity.
Defined.

(** X12: with [max_events] set the loop of [run] ends: it makes at most
    [max_events - events_processed] turns, so with one more turn allowed it
    is never cut short. *)
Theorem sim_run_ends_within_max_events
    (np_random_gamma : nat -> Q -> Q -> Q)
    (fuel : nat) (max_time : option Q) (max_events : Z)
    (L : ProductionLine) (r : Result bool) (L' : ProductionLine) :
  Z.max 0 (max_events - events_processed (stats (simulator L)))
    < Z.of_nat fuel ->
  sim_run np_random_gamma fuel max_time (Some max_events) L = (r, L') ->
  r <> Ok false.
Proof.
  revert L. induction fuel as [|fuel IH]; intros L Hf; cbn [sim_run]; [lia|].
  unfold bind at 1.
  destruct (run_iteration _ _ _ L) as [r1 L1] eqn:Hit.
  destruct (run_iteration_events_processed _ _ _ _ _ _ Hit)
    as [(-> & Hinc & Hlt)|(Hne & Heq)].
  - specialize (Hlt _ eq_refl). apply IH. lia.
  - destruct r1 as [[|]|err]; [done|..]; unfold ret; by intros [= <- _].
Qed.

Lemma sim_run_ends_within_max_events_witness :
  fst (sim_run draw_one 4 None (Some 3)
         (with_arrival 2 (single_station_line 1 0))) <> Ok false.
Proof.
  apply (sim_run_ends_within_max_events draw_one 4 None 3
           (with_arrival 2 (single_station_line 1 0)) _
           (snd (sim_run draw_one 4 None (Some 3)
                   (with_arrival 2 (single_station_line 1 0))))).
  - vm_compute. reflexivity.
  - apply eq_pair_fst_snd. reflexivity.
Defined.

(** ** The end of the arrival generation *)



(** ** The statistics of a run *)

Lemma update_statistics_station_id st now :
  station_id (update_statistics st now) = station_id st.
Proof. unfold update_statistics. by destruct (state st). Qed.

Lemma station_counts_ok_invariant : station_invariant station_counts_ok.
Proof.
  split; unfold station_counts_ok.
  - intros. split; [done|constructor].
  - intros st now. by rewrite update_statistics_total_processed,
      update_statistics_queue.
  - done.
  - intros st [H1 H2]. cbn. split; [lia|done].
  - intros st j [H1 H2] _ Hj. cbn. split; [done|].
    apply NoDup_app. split; [done|]. split; [|apply NoDup_singleton].
    intros k Hk ->%list_elem_of_singleton. done.
  - intros st k rest [H1 H2] Hq. cbn. split; [done|].
    rewrite Hq in H2. by apply NoDup_cons in H2 as [_ ?].
  - done.
  - done.
  - intros st _. cbn. split; [done|constructor].
Qed.

(** X14: the statistics of a line in a reachable state are never negative:
    throughput, average cycle time, average WIP, the number of jobs counted
    (which is at most the number of completed jobs) and the number of jobs
    each station has processed; the station entries come in the order of
    the line, with station ids 0, 1, ... *)
Theorem statistics_are_nonnegative
    (np_random_gamma : nat -> Q -> Q -> Q)
    (np_random_exponential : nat -> Q -> Q)
    (L : ProductionLine) (warmup_period : Q) (st : Statistics)
    (L' : ProductionLine) :
  reachable np_random_gamma np_random_exponential L ->
  get_statistics warmup_period L = (Ok st, L') ->
  (0 <= throughput st)%Q /\ (0 <= avg_cycle_time st)%Q /\
  (0 <= avg_wip st)%Q /\
  0 <= total_completed st <= Z.of_nat (length (completed_jobs L)) /\
  map ss_station_id (station_stats st) = seqZ 0 (num_stations L) /\
  Forall (fun ss => 0 <= ss_total_processed ss) (station_stats st).
Proof.
  intros HL.
  pose proof (reachable_stations _ _ _ _ station_counts_ok_invariant HL) as Hc.
  destruct (reachable_laid_out _ _ _ HL) as [Hlay _].
  apply reachable_Inv in HL as [_ [_ _ _ _ _ B6] _ _].
  unfold get_statistics, bind, gets, modify, ret. cbn beta iota zeta.
  intros [= <- _].
  cbn [avg_wip throughput avg_cycle_time total_completed station_stats].
  cbn [job_arrival_times job_completion_times completed_jobs set_stations
       stations simulator].
  pose proof (collect_cycle_times_nonneg _ _ _ warmup_period B6) as HF.
  assert (Hlen : (length (collect_cycle_times (completed_jobs L)
                            (job_arrival_times L) (job_completion_times L)
                            warmup_period)
                  <= length (completed_jobs L))%nat).
  { generalize (completed_jobs L). intros l.
    induction l as [|j l IH]; cbn; [lia|].
    destruct (job_arrival_times L !! j); [|lia].
    destruct (job_completion_times L !! j); [|lia].
    destruct (Qle_bool warmup_period _); cbn; lia. }
  set (cycle_times := collect_cycle_times _ _ _ _) in *.
  set (act := match cycle_times with [] => 0%Q | _ :: _ => np_mean cycle_times end).
  set (th := if Qlt_bool 0 (_ - _) then _ else 0%Q).
  assert (Hact : (0 <= act)%Q).
  { unfold act. destruct cycle_times as [|c l] eqn:E; [lra|].
    rewrite <- E in *. apply np_mean_nonneg; [by rewrite E|done]. }
  assert (Hth : (0 <= th)%Q).
  { unfold th. destruct (Qlt_bool 0 _) eqn:E; [|lra].
    apply Qlt_bool_true in E. apply Qle_shift_div_l; [done|].
    rewrite Qmult_0_l. change 0%Q with (inject_Z 0). rewrite <- Zle_Qle. lia. }
  split; [done|]. split; [done|]. split.
  { destruct (Qlt_bool 0 act); [|lra]. by apply Qmult_le_0_compat. }
  split; [lia|]. split.
  - assert (Hids : map station_id (stations L) = seqZ 0 (num_stations L)).
    { apply (f_equal (map (fun l => fst (fst l)))) in Hlay.
      rewrite !map_map in Hlay. cbn in Hlay. by rewrite map_id in Hlay. }
    rewrite <- Hids, !map_map. apply map_ext. intros s.
    unfold station_stat, get_utilization.
    destruct (Qlt_bool 0 (clock (simulator L))); cbn;
      by rewrite !update_statistics_station_id.
  - rewrite !Forall_map. eapply Forall_impl; [exact Hc|].
    intros s [Hs _]. unfold station_stat, get_utilization.
    destruct (Qlt_bool 0 (clock (simulator L))); cbn;
      by rewrite !update_statistics_total_processed.
Qed.

Lemma statistics_are_nonnegative_witness :
  let st := {| throughput := 1 # 2; avg_cycle_time := 1; avg_wip := 1 # 2;
               total_completed := 1;
               station_stats :=
                 [{| ss_station_id := 0; ss_name := "Station 1";
                     utilization := 1 # 2; ss_total_processed := 1;
                     avg_processing_time := 0 |}];
               simulation_time := 2 |} in
  (0 <= throughput st)%Q /\ (0 <= avg_cycle_time st)%Q /\
  (0 <= avg_wip st)%Q /\
  0 <= total_completed st
    <= Z.of_nat (length (completed_jobs after_one_job)) /\
  map ss_station_id (station_stats st) = seqZ 0 (num_stations after_one_job) /\
  Forall (fun ss => 0 <= ss_total_processed ss) (station_stats st).
Proof.
  apply (statistics_are_nonnegative draw_one exponential_one after_one_job 0
           _ (snd (get_statistics 0 after_one_job))).
  - after_one_job_is_reachable.
  - vm_compute. reflexivity.
Defined.

(** ** Stations, queues and pending events *)



(** X16: job ids are issued consecutively from 1: in every reachable state
    the jobs with an arrival time are those numbered 1 to
    [entity_counter]; every completed job is one of them and has a
    completion time not before its arrival time. *)
Theorem completed_jobs_bookkeeping
    (np_random_gamma : nat -> Q -> Q -> Q)
    (np_random_exponential : nat -> Q -> Q) (L : ProductionLine) :
  reachable np_random_gamma np_random_exponential L ->
  (forall j, is_Some (job_arrival_times L !! j)
             <-> 1 <= j <= entity_counter L) /\
  Forall (fun j => 1 <= j <= entity_counter L /\
            exists a c, job_arrival_times L !! j = Some a /\
                        job_completion_times L !! j = Some c /\ (a <= c)%Q)
         (completed_jobs L).
Proof.
  intros HL. apply reachable_Inv in HL as [_ [B1 B2 B3 B4 B5 B6] _ _].
  split; [done|]. apply Forall_forall. intros j Hj.
  destruct (B6 j Hj) as (a & c & Ha & Hc & Hle).
  split; [apply B4; eauto|eauto].
Qed.

Lemma completed_jobs_bookkeeping_witness :
  (forall j, is_Some (job_arrival_times after_one_job !! j)
             <-> 1 <= j <= entity_counter after_one_job) /\
  Forall (fun j => 1 <= j <= entity_counter after_one_job /\
            exists a c, job_arrival_times after_one_job !! j = Some a /\
                        job_completion_times after_one_job !! j = Some c /\
                        (a <= c)%Q)
         (completed_jobs after_one_job).
Proof.
  apply (completed_jobs_bookkeeping draw_one exponential_one after_one_job).
  after_one_job_is_reachable.
Defined.

(** ** No job is lost in service *)












(** * The estimators of factory_physics.py *)

Lemma Qle_bool_false x y : Qle_bool x y = false <-> (y < x)%Q.
Proof.
  split.
  - intros H. apply Qnot_le_lt. intros Hle. apply Qle_bool_iff in Hle.
    congruence.
  - intros H. destruct (Qle_bool x y) eqn:E; [|done].
    apply Qle_bool_iff in E. lra.
Qed.

Lemma py_min_spec a b :
  (py_min a b <= a)%Q /\ (py_min a b <= b)%Q /\
  ((a <= b)%Q -> py_min a b = a) /\ ((b < a)%Q -> py_min a b = b).
Proof.
  unfold py_min. destruct (Qlt_bool b a) eqn:E.
  - apply Qlt_bool_true in E. repeat split; try lra; done.
  - apply Qlt_bool_false in E. repeat split; try lra; done.
Qed.



Lemma calculate_utilization_cases (arrival_rate processing_rate : Q) :
  (calculate_utilization arrival_rate (Finite processing_rate) <= 1)%Q /\
  ((processing_rate <= 0)%Q ->
   calculate_utilization arrival_rate (Finite processing_rate) = 1%Q) /\
  ((0 < processing_rate)%Q ->
   ((arrival_rate <= processing_rate)%Q ->
    (calculate_utilization arrival_rate (Finite processing_rate)
     == arrival_rate / processing_rate)%Q) /\
   ((processing_rate <= arrival_rate)%Q ->
    (calculate_utilization arrival_rate (Finite processing_rate) == 1)%Q) /\
   ((0 <= arrival_rate)%Q ->
    (0 <= calculate_utilization arrival_rate (Finite processing_rate))%Q)).
Proof.
  unfold calculate_utilization.
  destruct (Qle_bool processing_rate 0) eqn:E.
  - apply Qle_bool_iff in E. split; [lra|]. split; [done|]. intros H. lra.
  - apply Qle_bool_false in E.
    destruct (py_min_spec (arrival_rate / processing_rate) 1)
      as (H1 & H2 & H3 & H4).
    split; [done|]. split; [intros H; lra|]. intros _.
    assert (Hdiv : forall c, (c * processing_rate <= arrival_rate)%Q <->
                             (c <= arrival_rate / processing_rate)%Q).
    { intros c. split; intros H.
      - by apply Qle_shift_div_l.
      - apply (Qmult_le_r _ _ processing_rate) in H; [|done].
        assert (arrival_rate / processing_rate * processing_rate
                == arrival_rate)%Q as Hq by (field; lra).
        by rewrite Hq in H. }
    split; [|split].
    + intros Hle. rewrite H3; [reflexivity|].
      apply Qle_shift_div_r; [done|]. lra.
    + intros Hle. assert (1 <= arrival_rate / processing_rate)%Q
        by (apply Hdiv; lra).
      destruct (Qlt_le_dec 1 (arrival_rate / processing_rate)) as [Hlt|Hge].
      * by rewrite H4.
      * rewrite H3 by done. lra.
    + intros Hpos. assert (0 <= arrival_rate / processing_rate)%Q
        by (apply Hdiv; lra).
      destruct (Qlt_le_dec 1 (arrival_rate / processing_rate)) as [Hlt|Hge].
      * rewrite H4 by done. lra.
      * by rewrite H3.
Qed.

(** X19: [calculate_utilization] never exceeds 1; it is 1 for a processing
    rate that is not positive, and for a positive rate it is
    [arrival_rate / processing_rate] capped at 1, so it is not negative
    when the arrival rate is not. *)
Theorem calculate_utilization_range (arrival_rate processing_rate : Q) :
  (calculate_utilization arrival_rate (Finite processing_rate) <= 1)%Q /\
  ((processing_rate <= 0)%Q ->
   calculate_utilization arrival_rate (Finite processing_rate) = 1%Q) /\
  ((0 < processing_rate)%Q ->
   ((arrival_rate <= processing_rate)%Q ->
    (calculate_utilization arrival_rate (Finite processing_rate)
     == arrival_rate / processing_rate)%Q) /\
   ((processing_rate <= arrival_rate)%Q ->
    (calculate_utilization arrival_rate (Finite processing_rate) == 1)%Q) /\
   ((0 <= arrival_rate)%Q ->
    (0 <= calculate_utilization arrival_rate (Finite processing_rate))%Q)).
Proof. apply calculate_utilization_cases. Qed.

Lemma calculate_utilization_range_witness :
  (calculate_utilization 2 (Finite 4) <= 1)%Q /\
  ((4 <= 0)%Q -> calculate_utilization 2 (Finite 4) = 1%Q) /\
  ((0 < 4)%Q ->
   ((2 <= 4)%Q -> (calculate_utilization 2 (Finite 4) == 2 / 4)%Q) /\
   ((4 <= 2)%Q -> (calculate_utilization 2 (Finite 4) == 1)%Q) /\
   ((0 <= 2)%Q -> (0 <= calculate_utilization 2 (Finite 4))%Q)).
Proof. apply (calculate_utilization_range 2 4). Defined.

Lemma kingman_term_nonneg ca ce : (0 <= (ca ^ 2 + ce ^ 2) / 2)%Q.
Proof.
  apply Qle_shift_div_l; [lra|]. rewrite Qmult_0_l.
  assert (0 <= ca ^ 2)%Q by (simpl; nra).
  assert (0 <= ce ^ 2)%Q by (simpl; nra). lra.
Qed.

(** X20: Kingman's cycle time of a station with a processing time that is
    not negative is never below the processing time, and never falls when
    the utilization rises. *)
Theorem calculate_cycle_time_monotone (te u u' ca ce : Q) :
  (0 <= te)%Q -> (u <= u')%Q ->
  float_le (Finite te) (calculate_cycle_time te u ca ce) /\
  float_le (calculate_cycle_time te u ca ce)
           (calculate_cycle_time te u' ca ce).
Proof.
  intros Hte Hu. pose proof (kingman_term_nonneg ca ce) as Hv.
  assert (Hterm : forall v, (0 < v)%Q -> (v < 1)%Q ->
            (0 <= v / (1 - v))%Q).
  { intros v H0 H1. apply Qle_shift_div_l; lra. }
  assert (Hfin : forall v, (0 < v)%Q -> (v < 1)%Q ->
            (te <= (ca ^ 2 + ce ^ 2) / 2 * (v / (1 - v)) * te + te)%Q).
  { intros v H0 H1. specialize (Hterm v H0 H1).
    set (a := ((ca ^ 2 + ce ^ 2) / 2)%Q) in *.
    set (b := (v / (1 - v))%Q) in *.
    assert (0 <= a * b)%Q by (by apply Qmult_le_0_compat).
    assert (0 <= a * b * te)%Q by (by apply Qmult_le_0_compat). lra. }
  unfold calculate_cycle_time.
  destruct (Qle_bool 1 u) eqn:E1.
  { apply Qle_bool_iff in E1.
    assert (Qle_bool 1 u' = true) as -> by (apply Qle_bool_iff; lra). done. }
  apply Qle_bool_false in E1.
  destruct (Qle_bool u 0) eqn:E0.
  { apply Qle_bool_iff in E0. split; [cbn [float_le]; lra|].
    destruct (Qle_bool 1 u') eqn:E1'; [done|]. apply Qle_bool_false in E1'.
    destruct (Qle_bool u' 0) eqn:E0'; [cbn [float_le]; lra|].
    apply Qle_bool_false in E0'. cbn [float_le]. by apply Hfin. }
  apply Qle_bool_false in E0. split; [cbn [float_le]; by apply Hfin|].
  destruct (Qle_bool 1 u') eqn:E1'; [done|]. apply Qle_bool_false in E1'.
  assert (Qle_bool u' 0 = false) as -> by (apply Qle_bool_false; lra).
  cbn [float_le].
  assert (Hmono : (u / (1 - u) <= u' / (1 - u'))%Q).
  { apply Qle_shift_div_l; [lra|].
    assert (u / (1 - u) * (1 - u') == u * (1 - u') / (1 - u))%Q as ->
      by (field; lra).
    apply Qle_shift_div_r; [lra|]. nra. }
  set (a := ((ca ^ 2 + ce ^ 2) / 2)%Q) in *.
  assert (a * (u / (1 - u)) <= a * (u' / (1 - u')))%Q.
  { rewrite !(Qmult_comm a). by apply Qmult_le_compat_r. }
  assert (a * (u / (1 - u)) * te <= a * (u' / (1 - u')) * te)%Q
    by (by apply Qmult_le_compat_r).
  lra.
Qed.

Lemma calculate_cycle_time_monotone_witness :
  float_le (Finite 2) (calculate_cycle_time 2 (1 # 2) 1 1) /\
  float_le (calculate_cycle_time 2 (1 # 2) 1 1)
           (calculate_cycle_time 2 (4 # 5) 1 1).
Proof.
  apply (calculate_cycle_time_monotone 2 (1 # 2) (4 # 5) 1 1).
  - vm_compute. discriminate.
  - vm_compute. discriminate.
Defined.



(** ** The bottleneck *)

Lemma np_argmax_from_spec (l : list Q) : forall best_pos best pos,
  let r := np_argmax_from best_pos best pos l in
  (r = best_pos /\ Forall (fun x => (x <= best)%Q) l) \/
  (exists k x, r = (pos + k)%nat /\ l !! k = Some x /\ (best < x)%Q /\
     Forall (fun y => (y <= x)%Q) l /\
     Forall (fun y => (y < x)%Q) (take k l)).
Proof.
  induction l as [|x l IH]; intros best_pos best pos; cbn zeta;
    cbn [np_argmax_from]; [by left|].
  destruct (Qlt_bool best x) eqn:E.
  - apply Qlt_bool_true in E. right.
    destruct (IH pos x (S pos)) as [[-> HF]|(k & y & -> & Hk & Hlt & HF & HT)].
    + exists 0%nat, x. split; [lia|]. split; [done|]. split; [done|].
      split; [|constructor]. constructor; [lra|done].
    + exists (S k), y. split; [lia|]. split; [done|]. split; [lra|].
      split; [constructor; [lra|done]|].
      cbn. constructor; [done|]. done.
  - apply Qlt_bool_false in E.
    destruct (IH best_pos best (S pos))
      as [[-> HF]|(k & y & -> & Hk & Hlt & HF & HT)].
    + left. split; [done|]. by constructor.
    + right. exists (S k), y. split; [lia|]. split; [done|]. split; [done|].
      split; [constructor; [lra|done]|].
      cbn. constructor; [lra|done].
Qed.

Lemma np_argmax_spec (l : list Q) (k : nat) :
  np_argmax l = Some k ->
  exists m, l !! k = Some m /\ Forall (fun y => (y <= m)%Q) l /\
            Forall (fun y => (y < m)%Q) (take k l).
Proof.
  destruct l as [|x l]; [done|]. cbn [np_argmax]. intros [= <-].
  destruct (np_argmax_from_spec l 0%nat x 1%nat)
    as [[-> HF]|(j & y & -> & Hj & Hlt & HF & HT)].
  - exists x. split; [done|]. split; [constructor; [lra|done]|]. constructor.
  - exists y. split; [done|]. split; [constructor; [lra|done]|].
    cbn. constructor; [done|]. done.
Qed.

Lemma bottleneck_first_maximum
    (stations : list (gmap string Q)) (arrival_rate : Q) :
  let util station :=
    calculate_utilization arrival_rate (Finite (rate_of station)) in
  (calculate_bottleneck_station stations arrival_rate = None
   <-> stations = []) /\
  forall k, calculate_bottleneck_station stations arrival_rate = Some k ->
    exists bottleneck, stations !! k = Some bottleneck /\
      forall j station, stations !! j = Some station ->
        (util station <= util bottleneck)%Q /\
        ((j < k)%nat -> (util station < util bottleneck)%Q).
Proof.
  intros util. unfold calculate_bottleneck_station. split.
  - destruct stations; cbn; split; done.
  - intros k Hk. apply np_argmax_spec in Hk as (m & Hm & Hle & Hlt).
    rewrite list_lookup_fmap in Hm.
    destruct (stations !! k) as [b|] eqn:Hb; [|done].
    cbn in Hm. injection Hm as <-. exists b. split; [done|].
    intros j station Hj. split.
    + rewrite Forall_forall in Hle. apply Hle.
      apply list_elem_of_lookup. exists j.
      by rewrite list_lookup_fmap, Hj.
    + intros Hjk. rewrite Forall_forall in Hlt. apply Hlt.
      apply list_elem_of_lookup. exists j.
      rewrite lookup_take_lt by done. by rewrite list_lookup_fmap, Hj.
Qed.

(** X22: [calculate_bottleneck_station] fails (the [ValueError] of
    [np.argmax]) exactly on an empty list of stations; otherwise it returns
    the position of a station of the list whose utilization no other
    station exceeds, and the first such position. *)
Theorem calculate_bottleneck_station_spec
    (stations : list (gmap string Q)) (arrival_rate : Q) :
  let util station :=
    calculate_utilization arrival_rate (Finite (rate_of station)) in
  (calculate_bottleneck_station stations arrival_rate = None
   <-> stations = []) /\
  forall k, calculate_bottleneck_station stations arrival_rate = Some k ->
    exists bottleneck, stations !! k = Some bottleneck /\
      forall j station, stations !! j = Some station ->
        (util station <= util bottleneck)%Q /\
        ((j < k)%nat -> (util station < util bottleneck)%Q).
Proof. apply bottleneck_first_maximum. Qed.

(** X23: [calculate_system_throughput] for an arrival rate that is not
    negative: when every station is faster than the arrivals it is the
    arrival rate; otherwise it is the processing rate of the first station
    that is not faster than the arrivals, whatever the rates of the
    stations behind it. *)
Theorem calculate_system_throughput_first_saturated
    (arrival_rate : Q) (stations before after : list (gmap string Q))
    (station : gmap string Q) :
  (0 <= arrival_rate)%Q ->
  Forall (fun s => (arrival_rate < rate_of s)%Q) before ->
  (stations <> [] ->
   Forall (fun s => (arrival_rate < rate_of s)%Q) stations ->
   calculate_system_throughput stations arrival_rate = Some arrival_rate) /\
  ((rate_of station <= arrival_rate)%Q ->
   exists throughput,
     calculate_system_throughput (before ++ station :: after) arrival_rate
     = Some throughput /\ (throughput == rate_of station)%Q).
Proof.
  intros Hpos Hbefore.
  set (util s := calculate_utilization arrival_rate (Finite (rate_of s))).
  assert (Hfast : forall s, (arrival_rate < rate_of s)%Q -> (util s < 1)%Q).
  { intros s Hs.
    destruct (calculate_utilization_cases arrival_rate (rate_of s))
      as (_ & _ & H). destruct H as (H & _ & _); [lra|].
    unfold util. rewrite H by lra. apply Qlt_shift_div_r; lra. }
  assert (Hslow : forall s, (rate_of s <= arrival_rate)%Q -> (util s == 1)%Q).
  { intros s Hs.
    destruct (calculate_utilization_cases arrival_rate (rate_of s))
      as (_ & H0 & H).
    destruct (Qlt_le_dec 0 (rate_of s)) as [Hp|Hn].
    - destruct (H Hp) as (_ & H1 & _). by apply H1.
    - unfold util. by rewrite H0. }
  split.
  - intros Hne HF. unfold calculate_system_throughput.
    destruct (bottleneck_first_maximum stations arrival_rate)
      as [Hnone Hsome].
    destruct (calculate_bottleneck_station stations arrival_rate) as [k|];
      [|by destruct Hne; apply Hnone].
    destruct (Hsome k eq_refl) as (b & Hb & _). rewrite Hb.
    cbn zeta. fold (rate_of b).
    rewrite Forall_forall in HF.
    assert (arrival_rate < rate_of b)%Q
      by (apply HF, list_elem_of_lookup; eauto).
    destruct (py_min_spec arrival_rate (rate_of b)) as (_ & _ & -> & _);
      [done|lra].
  - intros Hsat. unfold calculate_system_throughput.
    destruct (bottleneck_first_maximum
                (before ++ station :: after) arrival_rate) as [Hnone Hsome].
    destruct (calculate_bottleneck_station _ arrival_rate) as [k|];
      [|by destruct before; specialize (proj1 Hnone eq_refl)].
    destruct (Hsome k eq_refl) as (b & Hb & Hmax).
    assert (Hk : k = length before).
    { destruct (Hmax (length before) station) as [Hle Hlt];
        [by rewrite list_lookup_middle|].
      fold (util station) (util b) in Hle, Hlt.
      pose proof (Hslow station Hsat) as H1.
      destruct (calculate_utilization_cases arrival_rate (rate_of b))
        as (Hb1 & _). fold (util b) in Hb1.
      destruct (Nat.lt_trichotomy k (length before)) as [Hlt'|[->|Hgt]];
        [|done|].
      - rewrite lookup_app_l in Hb by done.
        rewrite Forall_forall in Hbefore.
        assert (util b < 1)%Q
          by (apply Hfast, Hbefore, list_elem_of_lookup; eauto). lra.
      - specialize (Hlt Hgt). lra. }
    subst k. rewrite list_lookup_middle in Hb by done. injection Hb as <-.
    rewrite list_lookup_middle by done. cbn zeta. fold (rate_of station).
    eexists. split; [reflexivity|].
    destruct (py_min_spec arrival_rate (rate_of station))
      as (H1 & H2 & H3 & H4).
    destruct (Qlt_le_dec (rate_of station) arrival_rate) as [Hlt|Hge].
    + by rewrite H4.
    + rewrite H3 by done. lra.
Qed.

Lemma calculate_system_throughput_first_saturated_witness :
  let fast : gmap string Q := {[ "processing_rate" := 20%Q ]} in
  let slow : gmap string Q := {[ "processing_rate" := 5%Q ]} in
  let slower : gmap string Q := {[ "processing_rate" := 2%Q ]} in
  ([fast] <> [] ->
   Forall (fun s => (10 < rate_of s)%Q) [fast] ->
   calculate_system_throughput [fast] 10 = Some 10%Q) /\
  ((rate_of slow <= 10)%Q ->
   exists throughput,
     calculate_system_throughput ([fast] ++ slow :: [slower]) 10
     = Some throughput /\ (throughput == rate_of slow)%Q).
Proof.
  apply (calculate_system_throughput_first_saturated 10
           [{[ "processing_rate" := 20%Q ]}] [{[ "processing_rate" := 20%Q ]}]
           [{[ "processing_rate" := 2%Q ]}] {[ "processing_rate" := 5%Q ]}).
  - vm_compute. discriminate.
  - repeat constructor.
Defined.

(** ** The cycle time of the line *)

Lemma float_add_inf_l b : float_add np_inf b = np_inf.
Proof. done. Qed.

Lemma py_getitem_replicate {A} (n : nat) (x : A) (i : Z) :
  0 <= i < Z.of_nat n -> py_getitem (replicate n x) i = Ok x.
Proof.
  intros H. unfold py_getitem. rewrite length_replicate.
  rewrite py_index_nonneg by done.
  rewrite lookup_replicate_2 by lia. done.
Qed.


(** The utilization and the cycle time of one station in the loop, and
    the arrival rate that the loop passes on. *)
Lemma station_step rate station ca ce :
  let mean_pt := mean_of station in
  let processing_rate :=
    if Qlt_bool 0 mean_pt then Finite (1 / mean_pt) else np_inf in
  let ct := calculate_cycle_time mean_pt
              (calculate_utilization rate processing_rate) ca ce in
  (station_saturated rate station -> ct = np_inf) /\
  (~ station_saturated rate station ->
   (exists t, ct = Finite t) /\
   match processing_rate with
   | Finite processing_rate => py_min rate processing_rate
   | np_inf => rate
   end = rate).
Proof.
  cbn zeta. unfold station_saturated.
  destruct (Qlt_bool 0 (mean_of station)) eqn:Hm.
  - apply Qlt_bool_true in Hm.
    assert (Hr : (0 < 1 / mean_of station)%Q)
      by (apply Qlt_shift_div_l; lra).
    assert (Hdiv : (rate / (1 / mean_of station)
                    == rate * mean_of station)%Q) by (field; lra).
    destruct (calculate_utilization_cases rate (1 / mean_of station))
      as (Hle1 & _ & H). destruct (H Hr) as (Hlow & Hhigh & _). clear H.
    split.
    + intros [_ Hsat].
      unfold calculate_cycle_time.
      assert (Qle_bool 1 (calculate_utilization rate
                            (Finite (1 / mean_of station))) = true) as ->;
        [|done].
      apply Qle_bool_iff. rewrite Hhigh; [lra|].
      apply Qle_shift_div_r; lra.
    + intros Hns.
      assert (Hlt : (rate * mean_of station < 1)%Q).
      { apply Qnot_le_lt. intros H. apply Hns. by split. }
      assert (Hlt' : (rate < 1 / mean_of station)%Q)
        by (apply Qlt_shift_div_l; lra).
      split.
      * unfold calculate_cycle_time.
        assert (Qle_bool 1 (calculate_utilization rate
                              (Finite (1 / mean_of station))) = false) as ->.
        { apply Qle_bool_false. rewrite Hlow by lra. by rewrite Hdiv. }
        destruct (Qle_bool _ 0); eauto.
      * destruct (py_min_spec rate (1 / mean_of station)) as (_ & _ & -> & _);
          [done|lra].
  - apply Qlt_bool_false in Hm. split.
    + intros [H _]. lra.
    + intros _. split; [|done]. cbn. eauto.
Qed.

Lemma float_eq_refl a : float_eq a a.
Proof. destruct a; cbn; [reflexivity|done]. Qed.

Lemma float_eq_trans a b c : float_eq a b -> float_eq b c -> float_eq a c.
Proof. destruct a, b, c; cbn; try done. intros -> ->. reflexivity. Qed.

Lemma float_add_assoc a b c :
  float_eq (float_add (float_add a b) c) (float_add a (float_add b c)).
Proof. destruct a, b, c; cbn; try done. ring. Qed.

Lemma float_add_inf_r a : float_add a np_inf = np_inf.
Proof. by destruct a. Qed.

Lemma station_saturated_dec rate station :
  station_saturated rate station \/ ~ station_saturated rate station.
Proof.
  unfold station_saturated.
  destruct (Qlt_le_dec 0 (mean_of station)) as [H0|H0]; [|right; lra].
  destruct (Qlt_le_dec (rate * mean_of station) 1) as [H1|H1];
    [right; lra|by left].
Qed.

Lemma system_cycle_time_loop_default (n : nat) :
  forall stations i total rate,
    0 <= i -> i + Z.of_nat (length stations) <= Z.of_nat n ->
    exists r,
      system_cycle_time_loop i stations (replicate n 1%Q) (replicate n 1%Q)
                             total rate = Ok r /\
      float_eq r (float_add total
                    (float_sum (map (station_cycle_time rate) stations))) /\
      (r = np_inf <->
       total = np_inf \/ Exists (station_saturated rate) stations).
Proof.
  intros stations.
  induction stations as [|station stations IH]; intros i total rate Hi Hn;
    cbn [system_cycle_time_loop].
  - exists total. split; [done|]. split.
    + destruct total; cbn; [ring|done].
    + split; [by left|]. intros [H|H]; [done|by apply Exists_nil in H].
  - cbn [length] in Hn. rewrite !py_getitem_replicate by lia.
    cbn [Result_bind]. fold (mean_of station).
    destruct (station_step rate station 1 1) as [Hsat Hnot].
    cbn zeta in Hsat, Hnot. cbn [map float_sum foldr].
    fold (float_sum (map (station_cycle_time rate) stations)).
    fold (station_cycle_time rate station) in Hsat, Hnot |- *.
    destruct (station_saturated_dec rate station) as [Hs|Hs].
    + rewrite (Hsat Hs), float_add_inf_r.
      match goal with
      | |- exists r, system_cycle_time_loop ?j _ _ _ _ ?c = _ /\ _ =>
          destruct (IH j np_inf c) as (r & Hr & _ & Hinf); [lia..|]
      end.
      exists r. split; [done|].
      assert (r = np_inf) as -> by (apply Hinf; by left).
      split; [by destruct total|]. split; [|done]. intros _. right. by left.
    + destruct (Hnot Hs) as [[t Ht] Hrate]. rewrite Hrate, Ht.
      destruct (IH (i + 1) (float_add total (Finite t)) rate)
        as (r & Hr & Heq & Hinf); [lia..|].
      exists r. split; [done|]. split.
      * eapply float_eq_trans; [exact Heq|]. apply float_add_assoc.
      * rewrite Hinf. split.
        -- intros [H|H]; [left; by destruct total|right; by right].
        -- intros [->|H]; [by left|]. right.
           by apply Exists_cons in H as [H|H].
Qed.

(** X24: with the default coefficients of variation
    [calculate_system_cycle_time] raises nothing and returns the sum of the
    Kingman cycle times of the stations, each taken at the arrival rate of
    the line: the lower arrival rate that the loop passes on behind a
    saturated station never shows in the result, which is [np.inf] exactly
    when some station is saturated. *)
Theorem calculate_system_cycle_time_default
    (stations : list (gmap string Q)) (arrival_rate : Q) :
  exists total_ct,
    calculate_system_cycle_time stations arrival_rate None None
    = Ok total_ct /\
    float_eq total_ct
             (float_sum (map (station_cycle_time arrival_rate) stations)) /\
    (total_ct = np_inf
     <-> Exists (station_saturated arrival_rate) stations).
Proof.
  unfold calculate_system_cycle_time.
  destruct (system_cycle_time_loop_default (length stations) stations 0
              (Finite 0) arrival_rate) as (r & Hr & Heq & Hinf); [lia..|].
  exists r. split; [done|]. split.
  - eapply float_eq_trans; [exact Heq|].
    destruct (float_sum _); cbn; [ring|done].
  - rewrite Hinf. split; [by intros [?|?]|by right].
Qed.




